(** * ToDo-back: a shallow embedding of the task service and its ephemeral store

    The development follows the TypeScript sources file by file:
    - [JS]            the JavaScript built-ins the sources rely on
                      (truthiness, [parseInt], [toString], [trim], regex tests);
    - [Runtime]       the process state (environment, clock, Redis client,
                      in-process map, database collections, emitted events)
                      and the state-and-exception monad the async functions
                      run in;
    - [AuthUtils]     [utils/auth.ts];
    - [TaskService]   [services/taskService.ts];
    - [StarService]   [services/starService.ts];
    - [Schemas]       [validation/schemas.ts];
    - [Middleware]    [middleware/auth.ts];
    - [Routes]        [routes/tasks.ts], [routes/stars.ts], [routes/auth.ts].

    Strings are [string]: the bytes of the UTF-8 form of the JavaScript
    text, so [JS.length] counts the UTF-16 code units of a text from its
    bytes.  Numbers that the code only ever uses as integers (versions,
    counters, millisecond clocks) are [Z]; [NaN] is represented by [None]
    where [parseInt] may produce it. *)

From Stdlib Require Import ZArith String Ascii List Bool Lia.
From Stdlib Require Import Decimal DecimalString DecimalN DecimalZ.
From stdpp Require Import gmap strings list fin_maps.

Local Open Scope string_scope.
Local Open Scope Z_scope.
Set Warnings "-register-all".

(* ===================================================================== *)
(** ** JavaScript built-ins *)
(* ===================================================================== *)

Module JS.

(** A [number] that may be [NaN]. *)
Definition num := option Z.

Definition is_digit (c : ascii) : bool :=
  let n := N_of_ascii c in (48 <=? n)%N && (n <=? 57)%N.

Definition is_hex (c : ascii) : bool :=
  let n := N_of_ascii c in
  ((48 <=? n)%N && (n <=? 57)%N)
  || ((65 <=? n)%N && (n <=? 70)%N)
  || ((97 <=? n)%N && (n <=? 102)%N).

(** White space as [String.prototype.trim] and [parseInt] see it.  The
    characters of one byte: TAB, LF, VT, FF, CR and SPACE. *)
Definition is_space (c : ascii) : bool :=
  let n := N_of_ascii c in
  ((9 <=? n)%N && (n <=? 13)%N) || (n =? 32)%N.

(** Of two bytes: NBSP, U+00A0. *)
Definition is_space2 (a b : ascii) : bool :=
  (N_of_ascii a =? 194)%N && (N_of_ascii b =? 160)%N.

(** Of three bytes: U+1680, U+2000 to U+200A, U+2028, U+2029, U+202F,
    U+205F, U+3000 and U+FEFF. *)
Definition is_space3 (a b c : ascii) : bool :=
  let '(x, y, z) := (N_of_ascii a, N_of_ascii b, N_of_ascii c) in
  ((x =? 225)%N && (y =? 154)%N && (z =? 128)%N)
  || ((x =? 226)%N && (y =? 128)%N
      && (((128 <=? z)%N && (z <=? 138)%N) || (z =? 168)%N || (z =? 169)%N || (z =? 175)%N))
  || ((x =? 226)%N && (y =? 129)%N && (z =? 159)%N)
  || ((x =? 227)%N && (y =? 128)%N && (z =? 128)%N)
  || ((x =? 239)%N && (y =? 187)%N && (z =? 191)%N).

Definition digit_of (c : ascii) (d : uint) : uint :=
  match N_of_ascii c with
  | 48%N => D0 d | 49%N => D1 d | 50%N => D2 d | 51%N => D3 d
  | 52%N => D4 d | 53%N => D5 d | 54%N => D6 d | 55%N => D7 d
  | 56%N => D8 d | _ => D9 d
  end.

(** The longest prefix of decimal digits, and what follows it. *)
Fixpoint scanDigits (s : string) : uint * string :=
  match s with
  | String c s' =>
      if is_digit c
      then let '(d, rest) := scanDigits s' in (digit_of c d, rest)
      else (Nil, s)
  | EmptyString => (Nil, EmptyString)
  end.

(** The same prefix as a string ([match[1]] of a [(\d+)] group). *)
Fixpoint spanDigits (s : string) : string * string :=
  match s with
  | String c s' =>
      if is_digit c
      then let '(d, rest) := spanDigits s' in (String c d, rest)
      else (EmptyString, s)
  | EmptyString => (EmptyString, EmptyString)
  end.

(** The double quote character. *)
Definition dquote : ascii := ascii_of_N 34.

Definition hexval (c : ascii) : Z :=
  let n := Z.of_N (N_of_ascii c) in
  if n <=? 57 then n - 48 else if n <=? 70 then n - 55 else n - 87.

Fixpoint scanHex (s : string) (seen : bool) (acc : Z) : option Z :=
  match s with
  | String c s' =>
      if is_hex c then scanHex s' true (16 * acc + hexval c)
      else if seen then Some acc else None
  | EmptyString => if seen then Some acc else None
  end.

(** The text without the white space it begins with. *)
Fixpoint skipSpaces (s : string) : string :=
  match s with
  | String a s1 =>
      if is_space a then skipSpaces s1
      else
        match s1 with
        | String b s2 =>
            if is_space2 a b then skipSpaces s2
            else
              match s2 with
              | String c s3 => if is_space3 a b c then skipSpaces s3 else s
              | EmptyString => s
              end
        | EmptyString => s
        end
  | EmptyString => EmptyString
  end.

Fixpoint startsWith (p s : string) : bool :=
  match p, s with
  | EmptyString, _ => true
  | String a p', String b s' => Ascii.eqb a b && startsWith p' s'
  | String _ _, EmptyString => false
  end.

Definition dropChars (n : nat) (s : string) : string :=
  String.substring n (String.length s) s.

Definition parseUnsigned (s : string) : num :=
  if startsWith "0x" s || startsWith "0X" s then scanHex (dropChars 2 s) false 0
  else
    match fst (scanDigits s) with
    | Nil => None
    | d => Some (Z.of_N (N.of_uint d))
    end.

(** [parseInt(s)] with no radix argument: leading white space, an optional
    sign, an optional [0x] prefix, then the longest run of digits; [NaN]
    ([None]) when there is no digit. *)
Definition parseInt (s : string) : num :=
  let s' := skipSpaces s in
  if startsWith "-" s' then Z.opp <$> parseUnsigned (dropChars 1 s')
  else if startsWith "+" s' then parseUnsigned (dropChars 1 s')
  else parseUnsigned s'.

(** [n.toString()] for an integer [n]. *)
Definition toString (n : Z) : string :=
  NilZero.string_of_int (Z.to_int n).

Definition numToString (n : num) : string :=
  match n with Some z => toString z | None => "NaN" end.

(** Truthiness of the values the sources test with [if (x)], [x || y],
    [x && y]. *)
Definition truthyStr (s : string) : bool :=
  match s with EmptyString => false | _ => true end.

Definition truthyOStr (s : option string) : bool :=
  match s with Some s => truthyStr s | None => false end.

Definition truthyNum (n : Z) : bool := negb (n =? 0).

(** [a || b] on optional strings. *)
Definition orStr (a : option string) (b : string) : string :=
  match a with
  | Some s => if truthyStr s then s else b
  | None => b
  end.

Fixpoint reverseOnto (s acc : string) : string :=
  match s with
  | String c s' => reverseOnto s' (String c acc)
  | EmptyString => acc
  end.

(** [skipSpaces] on a text read from its end. *)
Fixpoint skipSpacesBack (r : string) : string :=
  match r with
  | String c r1 =>
      if is_space c then skipSpacesBack r1
      else
        match r1 with
        | String b r2 =>
            if is_space2 b c then skipSpacesBack r2
            else
              match r2 with
              | String a r3 => if is_space3 a b c then skipSpacesBack r3 else r
              | EmptyString => r
              end
        | EmptyString => r
        end
  | EmptyString => EmptyString
  end.

(** The text without the white space it ends with. *)
Definition dropWhileEnd (s : string) : string :=
  reverseOnto (skipSpacesBack (reverseOnto s EmptyString)) EmptyString.

Definition trim (s : string) : string := dropWhileEnd (skipSpaces s).

(** [s.length], the number of UTF-16 code units of the text: a character
    of one, two or three bytes is one code unit, a character of four
    bytes is a surrogate pair; the bytes [10xxxxxx] continue a character. *)
Definition codeUnits (c : ascii) : nat :=
  let n := N_of_ascii c in
  if (n <? 128)%N then 1
  else if (n <? 192)%N then 0
  else if (n <? 240)%N then 1
  else 2.

Fixpoint length (s : string) : nat :=
  match s with
  | String c s' => (codeUnits c + length s')%nat
  | EmptyString => 0
  end.

(** A header value [res.setHeader] accepts: every code unit is TAB or in
    the ranges 0x20 to 0x7e and 0x80 to 0xff.  The characters U+0080 to
    U+00FF are the two-byte forms that begin with the bytes C2 and C3. *)
Fixpoint validHeaderValue (s : string) : bool :=
  match s with
  | String a s1 =>
      let n := N_of_ascii a in
      if (n <? 128)%N
      then ((n =? 9)%N || ((32 <=? n)%N && (n <=? 126)%N)) && validHeaderValue s1
      else if (n =? 194)%N || (n =? 195)%N
      then match s1 with
           | String _ s2 => validHeaderValue s2
           | EmptyString => false
           end
      else false
  | EmptyString => true
  end.

(** The time values of [Date]: at most 8.64e15 ms from the epoch.  Of a
    date outside ([Invalid Date]) [toISOString] throws a [RangeError]. *)
Definition MAX_TIME : Z := 8640000000000000.
Definition validTime (t : Z) : bool := (- MAX_TIME <=? t) && (t <=? MAX_TIME).

Definition lower (c : ascii) : ascii :=
  let n := N_of_ascii c in
  if (65 <=? n)%N && (n <=? 90)%N then ascii_of_N (n + 32) else c.

Fixpoint toLowerCase (s : string) : string :=
  match s with
  | String c s' => String (lower c) (toLowerCase s')
  | EmptyString => EmptyString
  end.

Fixpoint includes (needle s : string) : bool :=
  startsWith needle s
  || match s with
     | String _ s' => includes needle s'
     | EmptyString => false
     end.

Fixpoint allHex (s : string) : bool :=
  match s with
  | String c s' => is_hex c && allHex s'
  | EmptyString => true
  end.

(** [/^[0-9a-fA-F]{24}$/.test(s)] *)
Definition isObjectId (s : string) : bool :=
  (String.length s =? 24)%nat && allHex s.

(** [s.replace(p, '')] for a literal pattern [p]: the first occurrence is
    removed. *)
Fixpoint removeFirst (p s : string) : string :=
  if startsWith p s then dropChars (String.length p) s
  else match s with
       | String c s' => String c (removeFirst p s')
       | EmptyString => EmptyString
       end.

End JS.

(* ===================================================================== *)
(** ** The process state and the monad of the async functions *)
(* ===================================================================== *)

Module Runtime.

(** [process.env].  The variables the code compares as strings are kept as
    optional strings; the numeric ones hold the value the code obtains from
    [parseInt(process.env.X || default)].  [SESSION_MAX_AGE] goes into
    dates, so whether it is [NaN] matters and it is kept as a [JS.num]. *)
Record Env := {
  NODE_ENV : option string;
  REDIS_URL : option string;
  REDIS_DISABLED : option string;
  RATE_LIMIT_STRICT_MODE : option string;
  RATE_LIMIT_MAX_REQUESTS : Z;
  RATE_LIMIT_WINDOW_MS : Z;
  RATE_LIMIT_AUTH_MAX_REQUESTS : Z;
  RATE_LIMIT_AUTH_WINDOW_MS : Z;
  SESSION_MAX_AGE : JS.num;
  FRONTEND_URL : option string;
}.

(** The API shapes of [types/index.ts]. *)
Record User := {
  id : string;
  email : string;
  name : string;
  provider : string;
  userCreatedAt : Z;
}.

Record Task := {
  t_id : string;
  t_title : string;
  t_description : string;
  t_createdBy : User;
  t_createdAt : Z;
  t_updatedBy : option User;
  t_updatedAt : Z;
  t_assignees : list User;
  t_version : Z;
  t_isStarred : bool;
}.

Record PaginatedResponse := {
  items : list Task;
  page : Z;
  r_total : Z;
  hasMore : bool;
}.

(** The stores hold strings.  A string is either a plain text (a token, a
    decimal counter) or the [JSON.stringify] image of one of the three
    documents the program serialises; [JSON.parse] gives the document
    back.  Other texts under a document key are not written by this
    program and make [JSON.parse] throw. *)
Inductive Payload :=
| JSession (user : User) (expiresAt : Z)
| JReset (email : string) (expiresAt : Z)
| JPage (r : PaginatedResponse).

Inductive Stored :=
| Text (s : string)
| Json (p : Payload).

(** A value of [inMemoryStorage]: [{ data, expiresAt }]. *)
Record MemEntry := { data : Stored; expiresAt : Z }.

(** A key of the Redis server: its string value and its expiry time in
    milliseconds, if it has one. *)
Record RedisEntry := { rval : Stored; rexp : option Z }.

(** [rateLimitStats] *)
Record Stats := { total : Z; blocked : Z; failures : Z }.

Record Kv := {
  redisUp : bool;
  redisDb : gmap string RedisEntry;
  inMemoryStorage : gmap string MemEntry;
  rateLimitStats : Stats;
}.

(** The documents of the [users] and [tasks] collections. *)
Record DbUser := {
  u_email : string;
  u_name : string;
  u_provider : string;
  u_createdAt : Z;
}.

Record DbTask := {
  title : string;
  description : option string;
  createdBy : string;
  createdAt : Z;
  updatedBy : option string;
  updatedAt : Z;
  assignees : list string;
  version : Z;
  isDeleted : bool;
}.

(** [UpdateTaskData]: every field may be [undefined]. *)
Record UpdateTaskData := {
  p_title : option string;
  p_description : option string;
  p_assignees : option (list string);
}.

Inductive AuditAction := ACreate | AUpdate | ADelete | ADuplicate.

Inductive AuditDiff :=
| DiffCreate (title : string) (description : option string)
| DiffUpdate (patch : UpdateTaskData) (updatedBy : string) (version : Z)
| DiffDelete (deletedAt : Z)
| DiffDuplicate (sourceTaskId : string)
| DiffAssign (assignees : list string).

Record TaskAudit := {
  a_taskId : string;
  a_by : string;
  a_action : AuditAction;
  a_diff : AuditDiff;
}.

Record PasswordReset := {
  pr_email : string;
  pr_token : string;
  pr_expiresAt : Z;
  pr_used : bool;
}.

Record Db := {
  dbUp : bool;
  users : gmap string DbUser;
  tasks : gmap string DbTask;
  taskStars : gset (string * string);      (* (taskId, userId) *)
  taskAudits : list TaskAudit;
  passwordResets : list PasswordReset;
}.

(** What [WebSocketService] hands to [io.to(room).emit]. *)
Inductive WsEvent :=
| TaskCreated (task : Task)
| TaskUpdated (taskId : string) (patch : UpdateTaskData) (updatedBy : string)
              (version : Z) (updatedAt : Z)
| TaskDeleted (taskId : string)
| TaskAssigned (taskId assigneeId : string)
| StarAdded (taskId : string)
| StarRemoved (taskId : string).

Record Email := { to : string; subject : string; resetUrl : string }.

Record Out := {
  io : bool;                               (* WebSocketService.io is set *)
  emitted : list (string * WsEvent);       (* (room, event), oldest first *)
  mailUp : bool;
  outbox : list Email;
}.

Record World := {
  env : Env;
  clock : Z;                               (* Date.now() *)
  kv : Kv;
  db : Db;
  out : Out;
}.

Definition with_kv (f : Kv -> Kv) (w : World) : World :=
  {| env := env w; clock := clock w; kv := f (kv w); db := db w; out := out w |}.
Definition with_db (f : Db -> Db) (w : World) : World :=
  {| env := env w; clock := clock w; kv := kv w; db := f (db w); out := out w |}.
Definition with_out (f : Out -> Out) (w : World) : World :=
  {| env := env w; clock := clock w; kv := kv w; db := db w; out := f (out w) |}.
Definition at_time (t : Z) (w : World) : World :=
  {| env := env w; clock := t; kv := kv w; db := db w; out := out w |}.

Definition set_redisDb (m : gmap string RedisEntry) (k : Kv) : Kv :=
  {| redisUp := redisUp k; redisDb := m;
     inMemoryStorage := inMemoryStorage k; rateLimitStats := rateLimitStats k |}.
Definition set_inMemoryStorage (m : gmap string MemEntry) (k : Kv) : Kv :=
  {| redisUp := redisUp k; redisDb := redisDb k;
     inMemoryStorage := m; rateLimitStats := rateLimitStats k |}.
Definition set_rateLimitStats (s : Stats) (k : Kv) : Kv :=
  {| redisUp := redisUp k; redisDb := redisDb k;
     inMemoryStorage := inMemoryStorage k; rateLimitStats := s |}.

Definition set_tasks (m : gmap string DbTask) (d : Db) : Db :=
  {| dbUp := dbUp d; users := users d; tasks := m; taskStars := taskStars d;
     taskAudits := taskAudits d; passwordResets := passwordResets d |}.
Definition set_taskStars (s : gset (string * string)) (d : Db) : Db :=
  {| dbUp := dbUp d; users := users d; tasks := tasks d; taskStars := s;
     taskAudits := taskAudits d; passwordResets := passwordResets d |}.
Definition set_taskAudits (l : list TaskAudit) (d : Db) : Db :=
  {| dbUp := dbUp d; users := users d; tasks := tasks d; taskStars := taskStars d;
     taskAudits := l; passwordResets := passwordResets d |}.
Definition set_passwordResets (l : list PasswordReset) (d : Db) : Db :=
  {| dbUp := dbUp d; users := users d; tasks := tasks d; taskStars := taskStars d;
     taskAudits := taskAudits d; passwordResets := l |}.

Definition set_emitted (l : list (string * WsEvent)) (o : Out) : Out :=
  {| io := io o; emitted := l; mailUp := mailUp o; outbox := outbox o |}.
Definition set_outbox (l : list Email) (o : Out) : Out :=
  {| io := io o; emitted := emitted o; mailUp := mailUp o; outbox := l |}.

(** *** Exceptions and the monad *)

Inductive Err :=
| TaskNotFound            (* new Error('המשימה לא נמצאה') *)
| VersionConflict         (* new Error('גרסת המשימה לא תואמת') *)
| ZodError (field : string)
| RedisError
| PrismaError
| MailError               (* new Error('Failed to send email') *)
| TypeError
| RangeError.

Inductive Res (A : Type) :=
| Ok (a : A)
| Throw (e : Err).
Arguments Ok {A} a.
Arguments Throw {A} e.

Definition M (A : Type) : Type := World -> Res A * World.

Definition ret {A} (a : A) : M A := fun w => (Ok a, w).
Definition throw {A} (e : Err) : M A := fun w => (Throw e, w).
Definition bind {A B} (m : M A) (k : A -> M B) : M B :=
  fun w => match m w with
           | (Ok a, w') => k a w'
           | (Throw e, w') => (Throw e, w')
           end.
(** [try { m } catch (error) { h error }] *)
Definition tryCatch {A} (m : M A) (h : Err -> M A) : M A :=
  fun w => match m w with
           | (Ok a, w') => (Ok a, w')
           | (Throw e, w') => h e w'
           end.
Definition gets {A} (f : World -> A) : M A := fun w => (Ok (f w), w).
Definition modify (f : World -> World) : M unit := fun w => (Ok tt, f w).

Definition Date_now : M Z := gets clock.

(** [new Date(t).toISOString()]: the text is stood for by the time value
    it denotes; a time outside the range of [Date] has no text. *)
Definition Date_toISOString (t : Z) : M Z :=
  if JS.validTime t then ret t else throw RangeError.

End Runtime.

Export Runtime.

Declare Scope m_scope.
Delimit Scope m_scope with M.
Notation "'let*' x := m 'in' k" := (bind m (fun x => k))
  (at level 10, x name, m at level 100, k at level 200, only parsing) : m_scope.
Notation "'run' m 'in' k" := (bind m (fun _ => k))
  (at level 10, m at level 100, k at level 200, only parsing) : m_scope.
Local Open Scope m_scope.


(* ===================================================================== *)
(** ** The Redis client ([config/redis.ts] exports a node-redis client)

    The commands the sources call, with the semantics of the Redis server:
    a key whose expiry time has passed does not exist; [INCR] of a missing
    key creates it at 1 without expiry and keeps the expiry of an existing
    one; [EXPIRE] with a non-positive time deletes the key.  Every command
    rejects when the client is not connected. *)
(* ===================================================================== *)

Module Redis.

Definition live (now : Z) (e : RedisEntry) : bool :=
  match rexp e with
  | Some t => negb (t <? now)
  | None => true
  end.

Definition lookup (w : World) (k : string) : option RedisEntry :=
  match redisDb (kv w) !! k with
  | Some e => if live (clock w) e then Some e else None
  | None => None
  end.

Definition connected : M unit :=
  fun w => if redisUp (kv w) then (Ok tt, w) else (Throw RedisError, w).

Definition put (k : string) (e : RedisEntry) : M unit :=
  modify (fun w => with_kv (set_redisDb (<[k := e]> (redisDb (kv w)))) w).

Definition get (k : string) : M (option Stored) :=
  run connected in
  gets (fun w => rval <$> lookup w k).

Definition setEx (k : string) (ttlSeconds : Z) (v : Stored) : M unit :=
  run connected in
  if ttlSeconds <=? 0 then throw RedisError
  else let* now := Date_now in
       put k {| rval := v; rexp := Some (now + ttlSeconds * 1000) |}.

Definition del (k : string) : M unit :=
  run connected in
  modify (fun w => with_kv (set_redisDb (delete k (redisDb (kv w)))) w).

(** The value of a key as [INCR] reads it: the canonical decimal form of
    a signed 64-bit integer. *)
Definition asInteger (v : Stored) : option Z :=
  match v with
  | Text s =>
      match JS.parseInt s with
      | Some n =>
          if String.eqb (JS.toString n) s
             && (- 2 ^ 63 <=? n) && (n <? 2 ^ 63 - 1)
          then Some n else None
      | None => None
      end
  | Json _ => None
  end.

Definition incr (k : string) : M Z :=
  run connected in
  let* cur := gets (fun w => lookup w k) in
  match cur with
  | None =>
      run put k {| rval := Text "1"; rexp := None |} in ret 1
  | Some e =>
      match asInteger (rval e) with
      | Some n =>
          run put k {| rval := Text (JS.toString (n + 1)); rexp := rexp e |} in
          ret (n + 1)
      | None => throw RedisError
      end
  end.

Definition expire (k : string) (seconds : Z) : M bool :=
  run connected in
  let* cur := gets (fun w => lookup w k) in
  match cur with
  | None => ret false
  | Some e =>
      let* now := Date_now in
      run (if seconds <=? 0
           then modify (fun w => with_kv (set_redisDb (delete k (redisDb (kv w)))) w)
           else put k {| rval := rval e; rexp := Some (now + seconds * 1000) |}) in
      ret true
  end.

(** [KEYS prefix*] *)
Definition keys (prefix : string) : M (list string) :=
  run connected in
  gets (fun w =>
          List.filter (fun k => JS.startsWith prefix k
                                && bool_decide (is_Some (lookup w k)))
                      (map_to_list (redisDb (kv w))).*1).

End Redis.

(* ===================================================================== *)
(** ** [utils/auth.ts] *)
(* ===================================================================== *)

Module AuthUtils.

Inductive Storage := UseRedis | UseMemory.

Definition getStorage (e : Env) : Storage :=
  if bool_decide (REDIS_DISABLED e = Some "true") then UseMemory
  else
    let isRedisAvailable :=
      bool_decide (NODE_ENV e = Some "production") || JS.truthyOStr (REDIS_URL e) in
    if isRedisAvailable then UseRedis else UseMemory.

Definition memSet (k : string) (e : MemEntry) : M unit :=
  modify (fun w => with_kv (set_inMemoryStorage (<[k := e]> (inMemoryStorage (kv w)))) w).

Definition memDelete (k : string) : M unit :=
  modify (fun w => with_kv (set_inMemoryStorage (delete k (inMemoryStorage (kv w)))) w).

Definition memGet (k : string) : M (option MemEntry) :=
  gets (fun w => inMemoryStorage (kv w) !! k).

(** [cleanupExpiredEntries], run every [CLEANUP_INTERVAL]. *)
Definition cleanupExpiredEntries : M unit :=
  let* now := Date_now in
  modify (fun w =>
    with_kv (set_inMemoryStorage
               (filter (fun kv => ¬ (now > expiresAt kv.2)) (inMemoryStorage (kv w)))) w).

Definition setWithExpiration (key : string) (value : Stored) (ttlSeconds : Z) : M unit :=
  let* storage := gets (fun w => getStorage (env w)) in
  match storage with
  | UseRedis => Redis.setEx key ttlSeconds value
  | UseMemory =>
      let* now := Date_now in
      memSet key {| data := value; expiresAt := now + ttlSeconds * 1000 |}
  end.

Definition getValue (key : string) : M (option Stored) :=
  let* storage := gets (fun w => getStorage (env w)) in
  match storage with
  | UseRedis => Redis.get key
  | UseMemory =>
      let* item := memGet key in
      match item with
      | None => ret None
      | Some item =>
          let* now := Date_now in
          if now >? expiresAt item
          then run memDelete key in ret None
          else ret (Some (data item))
      end
  end.

Definition deleteValue (key : string) : M unit :=
  let* storage := gets (fun w => getStorage (env w)) in
  match storage with
  | UseRedis => Redis.del key
  | UseMemory => memDelete key
  end.

Definition SESSION_DURATION (e : Env) : JS.num := SESSION_MAX_AGE e.

(** [createSession]; [sessionToken] is the value [uuidv4()] returns.  The
    session data holds [expiresAt.toISOString()], which throws before
    anything is stored when [Date.now() + SESSION_DURATION] is [NaN] or
    outside the range of [Date]. *)
Definition createSession (sessionToken : string) (user : User) : M string :=
  let* now := Date_now in
  let* duration := gets (fun w => SESSION_DURATION (env w)) in
  match duration with
  | None => throw RangeError
  | Some duration =>
      let* expiresAt := Date_toISOString (now + duration) in
      let sessionData := JSession user expiresAt in
      run setWithExpiration ("session:" +:+ sessionToken) (Json sessionData)
                            (duration / 1000) in
      ret sessionToken
  end.

Definition getSession (sessionToken : string) : M (option User) :=
  tryCatch
    (let* sessionData := getValue ("session:" +:+ sessionToken) in
     match sessionData with
     | None | Some (Text EmptyString) => ret None
     | Some (Json (JSession user expiresAt)) =>
         let* now := Date_now in
         if expiresAt <? now
         then run deleteValue ("session:" +:+ sessionToken) in ret None
         else ret (Some user)
     | Some _ => throw TypeError
     end)
    (fun _ => ret None).

Definition deleteSession (sessionToken : string) : M unit :=
  tryCatch (deleteValue ("session:" +:+ sessionToken)) (fun _ => ret tt).

(** The expiry, one hour from now, is within the range of [Date] at every
    time a clock shows, so its ISO text can always be made. *)
Definition storePasswordResetToken (email token : string) : M unit :=
  let* now := Date_now in
  setWithExpiration ("password-reset:" +:+ token)
                    (Json (JReset email (now + 60 * 60 * 1000))) 3600.

Definition setStats (f : Stats -> Stats) : M unit :=
  modify (fun w => with_kv (fun k => set_rateLimitStats (f (rateLimitStats k)) k) w).

Definition incTotal (s : Stats) : Stats :=
  {| total := total s + 1; blocked := blocked s; failures := failures s |}.
Definition incBlocked (s : Stats) : Stats :=
  {| total := total s; blocked := blocked s + 1; failures := failures s |}.
Definition incFailures (s : Stats) : Stats :=
  {| total := total s; blocked := blocked s; failures := failures s + 1 |}.

(** [parseInt(item.data)] *)
Definition parseData (v : Stored) : JS.num :=
  match v with
  | Text s => JS.parseInt s
  | Json _ => None
  end.

(** [count <= limit], false when [count] is [NaN] *)
Definition leNum (count : JS.num) (limit : Z) : bool :=
  match count with
  | Some c => c <=? limit
  | None => false
  end.

Definition checkRateLimit (key : string) (limit windowMs : Z) : M bool :=
  run setStats incTotal in
  tryCatch
    (let* storage := gets (fun w => getStorage (env w)) in
     match storage with
     | UseRedis =>
         let* current := Redis.incr ("rate-limit:" +:+ key) in
         run (if current =? 1
              then run Redis.expire ("rate-limit:" +:+ key) (windowMs / 1000) in ret tt
              else ret tt) in
         let allowed := current <=? limit in
         run (if allowed then ret tt else setStats incBlocked) in
         ret allowed
     | UseMemory =>
         let* item := memGet key in
         let* now := Date_now in
         match item with
         | Some item =>
             if now >? expiresAt item
             then run memSet key {| data := Text "1"; expiresAt := now + windowMs |} in
                  ret true
             else
               let count := Z.add 1 <$> parseData (data item) in
               run memSet key {| data := Text (JS.numToString count);
                                expiresAt := expiresAt item |} in
               let allowed := leNum count limit in
               run (if allowed then ret tt else setStats incBlocked) in
               ret allowed
         | None =>
             run memSet key {| data := Text "1"; expiresAt := now + windowMs |} in
             ret true
         end
     end)
    (fun _ =>
       run setStats incFailures in
       let* e := gets env in
       let strictMode := bool_decide (RATE_LIMIT_STRICT_MODE e = Some "true") in
       if bool_decide (NODE_ENV e = Some "production") && strictMode
       then run setStats incBlocked in ret false
       else ret true).

Definition resetRateLimit (key : string) : M unit :=
  tryCatch
    (let* storage := gets (fun w => getStorage (env w)) in
     match storage with
     | UseRedis => Redis.del ("rate-limit:" +:+ key)
     | UseMemory => memDelete key
     end)
    (fun _ => ret tt).

(** [storedToken === token] *)
Definition sameToken (storedToken : option Stored) (token : string) : bool :=
  match storedToken with
  | Some (Text s) => String.eqb s token
  | _ => false
  end.

Definition validateCSRFToken (token sessionToken : string) : M bool :=
  tryCatch
    (let* storedToken := Redis.get ("csrf:" +:+ sessionToken) in
     ret (sameToken storedToken token))
    (fun _ => ret false).

Definition storeCSRFToken (token sessionToken : string) : M unit :=
  tryCatch
    (setWithExpiration ("csrf:" +:+ sessionToken) (Text token) 3600)
    (fun _ => ret tt).

(** [getPasswordResetToken], returning [{ email, expiresAt }]. *)
Definition getPasswordResetToken (token : string) : M (option (string * Z)) :=
  tryCatch
    (let* tokenData := getValue ("password-reset:" +:+ token) in
     match tokenData with
     | None | Some (Text EmptyString) => ret None
     | Some (Json (JReset email expiresAt)) =>
         let* now := Date_now in
         if expiresAt <? now
         then run deleteValue ("password-reset:" +:+ token) in ret None
         else ret (Some (email, expiresAt))
     | Some _ => throw TypeError
     end)
    (fun _ => ret None).

Definition deletePasswordResetToken (token : string) : M unit :=
  tryCatch (deleteValue ("password-reset:" +:+ token)) (fun _ => ret tt).

End AuthUtils.

(* ===================================================================== *)
(** ** The Prisma client ([config/database.ts])

    Ids are opaque strings; [tasks] is keyed by the task id and [users] by
    the user id.  Every call rejects when the database is unreachable. *)
(* ===================================================================== *)

Module Prisma.

Definition connected : M unit :=
  fun w => if dbUp (db w) then (Ok tt, w) else (Throw PrismaError, w).

(** [prisma.task.findFirst({ where: { id } })] and, with [activeOnly],
    [{ where: { id, isDeleted: false } }] *)
Definition task_findFirst (taskId : string) (activeOnly : bool) : M (option DbTask) :=
  run connected in
  gets (fun w =>
          match tasks (db w) !! taskId with
          | Some t => if activeOnly && isDeleted t then None else Some t
          | None => None
          end).

Definition task_put (taskId : string) (t : DbTask) : M unit :=
  modify (fun w => with_db (set_tasks (<[taskId := t]> (tasks (db w)))) w).

(** [prisma.task.update({ where, data })]: rejects when no document
    matches; [data] is given as the function it applies to the document. *)
Definition task_update (taskId : string) (activeOnly : bool)
           (data : DbTask -> DbTask) : M DbTask :=
  let* cur := task_findFirst taskId activeOnly in
  match cur with
  | None => throw PrismaError
  | Some t => let t' := data t in run task_put taskId t' in ret t'
  end.

Definition taskAudit_create (a : TaskAudit) : M unit :=
  run connected in
  modify (fun w => with_db (fun d => set_taskAudits (taskAudits d ++ [a]) d) w).

Definition passwordReset_create (r : PasswordReset) : M unit :=
  run connected in
  modify (fun w => with_db (fun d => set_passwordResets (passwordResets d ++ [r]) d) w).

(** [prisma.user.findMany({ where: { id: { in: ids } } })] *)
Definition user_findMany (ids : list string) : M (list (string * DbUser)) :=
  run connected in
  gets (fun w =>
          List.filter (fun iu => bool_decide (iu.1 ∈ ids)) (map_to_list (users (db w)))).

(** [prisma.user.findUnique({ where: { email } })] *)
Definition user_findUnique (email : string) : M (option (string * DbUser)) :=
  run connected in
  gets (fun w =>
          List.find (fun iu => String.eqb (u_email iu.2) email)
                    (map_to_list (users (db w)))).

(** The [creator] / [updater] relation with [select: { id, name, email }]. *)
Definition relation (userId : string) : M (option (string * DbUser)) :=
  gets (fun w => (fun u => (userId, u)) <$> users (db w) !! userId).

Definition taskStar_findUnique (taskId userId : string) : M bool :=
  run connected in
  gets (fun w => bool_decide ((taskId, userId) ∈ taskStars (db w))).

Definition taskStar_create (taskId userId : string) : M unit :=
  run connected in
  modify (fun w => with_db (fun d => set_taskStars ({[ (taskId, userId) ]} ∪ taskStars d) d) w).

(** [prisma.taskStar.deleteMany({ where: { taskId, userId } })], returning
    [count]. *)
Definition taskStar_deleteMany (taskId userId : string) : M Z :=
  let* present := taskStar_findUnique taskId userId in
  run modify (fun w => with_db (fun d => set_taskStars (taskStars d ∖ {[ (taskId, userId) ]}) d) w) in
  ret (if present then 1 else 0).

Definition taskStar_findMany (userId : string) : M (list string) :=
  run connected in
  gets (fun w =>
          (List.filter (fun tu => String.eqb tu.2 userId) (elements (taskStars (db w)))).*1).

(** [prisma.taskStar.count({ where: { taskId } })] *)
Definition taskStar_count (taskId : string) : M Z :=
  run connected in
  gets (fun w =>
          Z.of_nat (List.length
            (List.filter (fun tu => String.eqb tu.1 taskId) (elements (taskStars (db w)))))).

End Prisma.

(* ===================================================================== *)
(** ** [services/websocketService.ts]: the emitters *)
(* ===================================================================== *)

Module WebSocketService.

Definition emit (rooms : list string) (e : WsEvent) : M unit :=
  let* ready := gets (fun w => io (out w)) in
  if ready
  then modify (fun w =>
         with_out (fun o => set_emitted (emitted o ++ List.map (fun r => (r, e)) rooms) o) w)
  else ret tt.

Definition emitTaskCreated (task : Task) : M unit :=
  emit ["board:all"] (TaskCreated task).
Definition emitTaskUpdated (taskId : string) (patch : UpdateTaskData)
           (updatedBy : string) (version updatedAt : Z) : M unit :=
  emit ["board:all"] (TaskUpdated taskId patch updatedBy version updatedAt).
Definition emitTaskDeleted (taskId : string) : M unit :=
  emit ["board:all"] (TaskDeleted taskId).
Definition emitTaskAssigned (taskId assigneeId : string) : M unit :=
  emit ["board:all"] (TaskAssigned taskId assigneeId).
Definition emitStarAdded (taskId userId : string) : M unit :=
  emit ["board:all"; "user:" +:+ userId] (StarAdded taskId).
Definition emitStarRemoved (taskId userId : string) : M unit :=
  emit ["board:all"; "user:" +:+ userId] (StarRemoved taskId).

End WebSocketService.

(* ===================================================================== *)
(** ** [services/taskService.ts] *)
(* ===================================================================== *)

Module TaskService.

Definition CACHE_TTL : Z := 5 * 60.
Definition SEARCH_CACHE_PREFIX : string := "tasks:search:".

Inductive SortBy := ByCreatedAt | ByUpdatedAt | ByTitle | ByCreatedBy.
Inductive SortOrder := Asc | Desc.
Inductive Context := All | Mine | Starred.

Record TaskFilters := {
  f_search : string;
  f_page : Z;
  f_limit : Z;
  f_sortBy : SortBy;
  f_sortOrder : SortOrder;
  f_context : Context;
}.

Record CreateTaskData := {
  c_title : string;
  c_description : option string;
}.

Definition sortByName (s : SortBy) : string :=
  match s with
  | ByCreatedAt => "createdAt" | ByUpdatedAt => "updatedAt"
  | ByTitle => "title" | ByCreatedBy => "createdBy"
  end.
Definition sortOrderName (o : SortOrder) : string :=
  match o with Asc => "asc" | Desc => "desc" end.
Definition contextName (c : Context) : string :=
  match c with All => "all" | Mine => "mine" | Starred => "starred" end.

Definition generateCacheKey (filters : TaskFilters) (currentUser : User) : string :=
  SEARCH_CACHE_PREFIX +:+ contextName (f_context filters) +:+ ":"
    +:+ (if JS.truthyStr (f_search filters) then f_search filters else "all") +:+ ":"
    +:+ JS.toString (f_page filters) +:+ ":"
    +:+ JS.toString (f_limit filters) +:+ ":"
    +:+ sortByName (f_sortBy filters) +:+ ":"
    +:+ sortOrderName (f_sortOrder filters) +:+ ":"
    +:+ id currentUser.

Fixpoint deleteEach (keys : list string) : M unit :=
  match keys with
  | [] => ret tt
  | key :: rest => run Redis.del key in deleteEach rest
  end.

Definition invalidateTaskCache : M unit :=
  tryCatch
    (let* keys := Redis.keys SEARCH_CACHE_PREFIX in
     if (0 <? Z.of_nat (List.length keys)) then deleteEach keys else ret tt)
    (fun _ => ret tt).

(** *** The [where] object of [getTasks] *)

Inductive Cond :=
| IsDeleted (b : bool)
| CreatedBy (u : string)
| AssigneesHas (u : string)
| IdIn (ids : list string)
| TitleContains (s : string)          (* mode: 'insensitive' *)
| DescriptionContains (s : string)    (* mode: 'insensitive' *)
| OR (cs : list Cond).

Record Where := {
  w_isDeleted : option bool;
  w_AND : option (list Cond);
  w_OR : option (list Cond);
}.

Definition containsInsensitive (term s : string) : bool :=
  JS.includes (JS.toLowerCase term) (JS.toLowerCase s).

Fixpoint holds (taskId : string) (t : DbTask) (c : Cond) : bool :=
  match c with
  | IsDeleted b => Bool.eqb (isDeleted t) b
  | CreatedBy u => String.eqb (createdBy t) u
  | AssigneesHas u => bool_decide (u ∈ assignees t)
  | IdIn ids => bool_decide (taskId ∈ ids)
  | TitleContains s => containsInsensitive s (title t)
  | DescriptionContains s =>
      match description t with
      | Some d => containsInsensitive s d
      | None => false
      end
  | OR cs => existsb (holds taskId t) cs
  end.

Definition matches (w : Where) (taskId : string) (t : DbTask) : bool :=
  match w_isDeleted w with Some b => Bool.eqb (isDeleted t) b | None => true end
  && match w_AND w with Some cs => forallb (holds taskId t) cs | None => true end
  && match w_OR w with Some cs => existsb (holds taskId t) cs | None => true end.

(** *** Ordering *)

Definition optCompare (a b : option string) : comparison :=
  match a, b with
  | None, None => Eq
  | None, Some _ => Lt
  | Some _, None => Gt
  | Some x, Some y => String.compare x y
  end.

Definition compareBy (us : gmap string DbUser) (s : SortBy)
           (a b : string * DbTask) : comparison :=
  match s with
  | ByCreatedAt => Z.compare (createdAt a.2) (createdAt b.2)
  | ByUpdatedAt => Z.compare (updatedAt a.2) (updatedAt b.2)
  | ByTitle => String.compare (title a.2) (title b.2)
  | ByCreatedBy =>
      optCompare (u_name <$> us !! createdBy a.2) (u_name <$> us !! createdBy b.2)
  end.

Definition before (us : gmap string DbUser) (s : SortBy) (o : SortOrder)
           (a b : string * DbTask) : bool :=
  match o, compareBy us s a b with
  | Asc, Gt => false
  | Desc, Lt => false
  | _, _ => true
  end.

Fixpoint insertBy {A} (le : A -> A -> bool) (x : A) (l : list A) : list A :=
  match l with
  | [] => [x]
  | y :: l' => if le x y then x :: l else y :: insertBy le x l'
  end.

Definition sortBy {A} (le : A -> A -> bool) (l : list A) : list A :=
  List.fold_right (insertBy le) [] l.

(** *** From a document to the API shape *)

Definition creatorUser (task : DbTask) (c : string * DbUser) : User :=
  {| id := c.1; name := u_name c.2; email := u_email c.2;
     provider := "credentials"; userCreatedAt := createdAt task |}.

Definition assigneeUser (iu : string * DbUser) : User :=
  {| id := iu.1; name := u_name iu.2; email := u_email iu.2;
     provider := JS.orStr (Some (u_provider iu.2)) "credentials";
     userCreatedAt := u_createdAt iu.2 |}.

Definition assigneeUsers (task : DbTask) : M (list (string * DbUser)) :=
  match assignees task with
  | [] => ret []
  | ids => Prisma.user_findMany ids
  end.

(** [withUpdater] tells whether the query includes the [updater] relation
    and the result carries [updatedBy]. *)
Definition transform (withUpdater : bool) (taskId : string) (task : DbTask)
           (currentUser : User) : M Task :=
  let* creator := Prisma.relation (createdBy task) in
  match creator with
  | None => throw PrismaError
  | Some c =>
      let* updater :=
        match withUpdater, updatedBy task with
        | true, Some u => Prisma.relation u
        | _, _ => ret None
        end in
      let* starred := gets (fun w =>
                              bool_decide ((taskId, id currentUser) ∈ taskStars (db w))) in
      let* users := assigneeUsers task in
      ret {| t_id := taskId;
             t_title := title task;
             t_description := JS.orStr (description task) "";
             t_createdBy := creatorUser task c;
             t_createdAt := createdAt task;
             t_updatedBy := creatorUser task <$> updater;
             t_updatedAt := updatedAt task;
             t_assignees := List.map assigneeUser users;
             t_version := version task;
             t_isStarred := starred |}
  end.

Fixpoint transformAll (ts : list (string * DbTask)) (currentUser : User) : M (list Task) :=
  match ts with
  | [] => ret []
  | t :: rest =>
      let* x := transform true t.1 t.2 currentUser in
      let* xs := transformAll rest currentUser in
      ret (x :: xs)
  end.

(** *** [getTasks] *)

Definition readCache (cacheKey : string) : M (option PaginatedResponse) :=
  tryCatch
    (let* cached := Redis.get cacheKey in
     match cached with
     | None | Some (Text EmptyString) => ret None
     | Some (Json (JPage r)) => ret (Some r)
     | Some _ => throw TypeError
     end)
    (fun _ => ret None).

Definition buildWhere (filters : TaskFilters) (currentUser : User) : M Where :=
  let where0 := {| w_isDeleted := Some false; w_AND := None; w_OR := None |} in
  let* where1 :=
    match f_context filters with
    | Mine =>
        ret {| w_isDeleted := None;
               w_AND := Some [IsDeleted false;
                              OR [CreatedBy (id currentUser);
                                  AssigneesHas (id currentUser)]];
               w_OR := None |}
    | Starred =>
        let* starredTasks := Prisma.taskStar_findMany (id currentUser) in
        ret {| w_isDeleted := None;
               w_AND := Some [IsDeleted false; IdIn starredTasks];
               w_OR := None |}
    | All => ret where0
    end in
  if JS.truthyStr (f_search filters) && JS.truthyStr (JS.trim (f_search filters))
  then
    let searchTerm := JS.trim (f_search filters) in
    let searchConditions := [TitleContains searchTerm; DescriptionContains searchTerm] in
    match w_OR where1, w_AND where1 with
    | Some existingOR, _ =>
        ret {| w_isDeleted := w_isDeleted where1;
               w_AND := Some [OR existingOR; OR searchConditions];
               w_OR := None |}
    | None, Some conds =>
        ret {| w_isDeleted := w_isDeleted where1;
               w_AND := Some (conds ++ [OR searchConditions])%list;
               w_OR := None |}
    | None, None =>
        ret {| w_isDeleted := w_isDeleted where1;
               w_AND := None;
               w_OR := Some searchConditions |}
    end
  else ret where1.

Definition getTasks (filters : TaskFilters) (currentUser : User) : M PaginatedResponse :=
  let cacheKey := generateCacheKey filters currentUser in
  let* hit := readCache cacheKey in
  match hit with
  | Some r => ret r
  | None =>
      let* whereClause := buildWhere filters currentUser in
      let startIndex := (f_page filters - 1) * f_limit filters in
      run Prisma.connected in
      let* matching := gets (fun w =>
        List.filter (fun it => matches whereClause it.1 it.2) (map_to_list (tasks (db w)))) in
      let* us := gets (fun w => users (db w)) in
      let allTasks :=
        take (Z.to_nat (f_limit filters))
             (drop (Z.to_nat startIndex)
                   (sortBy (before us (f_sortBy filters) (f_sortOrder filters)) matching)) in
      let totalCount := Z.of_nat (List.length matching) in
      let nonDeletedTasks := List.filter (fun it => negb (isDeleted it.2)) allTasks in
      let total := totalCount in
      let* transformedTasks := transformAll nonDeletedTasks currentUser in
      let result := {| items := transformedTasks;
                       page := f_page filters;
                       r_total := total;
                       hasMore := f_page filters * f_limit filters <? total |} in
      run tryCatch (Redis.setEx cacheKey CACHE_TTL (Json (JPage result)))
                   (fun _ => ret tt) in
      ret result
  end.

Definition getTask (taskId : string) (currentUser : User) : M Task :=
  let* task := Prisma.task_findFirst taskId false in
  match task with
  | None => throw TaskNotFound
  | Some task =>
      if isDeleted task then throw TaskNotFound
      else transform true taskId task currentUser
  end.

(** *** Mutations *)

(** Modelled from the spec: the Prisma schema is not among the sources, so
    the column defaults of a created task are taken from the data model
    ([assignees] empty, [isDeleted] false, no [updatedBy], both time
    stamps set at creation). *)
Definition newTask (now : Z) (title : string) (description : option string)
           (createdBy : string) (assignees : list string) (version : Z) : DbTask :=
  {| title := title; description := description; createdBy := createdBy;
     createdAt := now; updatedBy := None; updatedAt := now;
     assignees := assignees; version := version; isDeleted := false |}.

(** [prisma.task.create({ data, include: { creator, stars } })]; [newId] is
    the id the database gives the document. *)
Definition task_create (newId : string) (t : DbTask) : M DbTask :=
  run Prisma.connected in
  run Prisma.task_put newId t in
  let* creator := Prisma.relation (createdBy t) in
  match creator with
  | None => throw PrismaError
  | Some _ => ret t
  end.

(** [taskData.description || null] *)
Definition orNull (d : option string) : option string :=
  match d with
  | Some s => if JS.truthyStr s then Some s else None
  | None => None
  end.

Definition createTask (newId : string) (taskData : CreateTaskData)
           (currentUser : User) : M Task :=
  let* now := Date_now in
  let* task := task_create newId
                 (newTask now (c_title taskData) (orNull (c_description taskData))
                          (id currentUser) [] 1) in
  run Prisma.taskAudit_create
        {| a_taskId := newId; a_by := id currentUser; a_action := ACreate;
           a_diff := DiffCreate (title task) (description task) |} in
  let* transformedTask := transform false newId task currentUser in
  run WebSocketService.emitTaskCreated transformedTask in
  run invalidateTaskCache in
  ret transformedTask.

(** The [updateData] object of [updateTask]. *)
Record UpdateData := {
  d_updatedBy : string;
  d_version : Z;
  d_title : option string;
  d_description : option string;
  d_assignees : option (list string);
}.

Definition prepareUpdate (currentTask : DbTask) (taskData : UpdateTaskData)
           (currentUser : User) : UpdateData :=
  let updateData :=
    {| d_updatedBy := id currentUser; d_version := version currentTask + 1;
       d_title := None; d_description := None; d_assignees := None |} in
  let updateData :=
    match p_title taskData with
    | Some t => {| d_updatedBy := d_updatedBy updateData; d_version := d_version updateData;
                   d_title := Some t; d_description := d_description updateData;
                   d_assignees := d_assignees updateData |}
    | None => updateData
    end in
  let updateData :=
    match p_description taskData with
    | Some d => {| d_updatedBy := d_updatedBy updateData; d_version := d_version updateData;
                   d_title := d_title updateData; d_description := Some d;
                   d_assignees := d_assignees updateData |}
    | None => updateData
    end in
  match p_assignees taskData with
  | Some a => {| d_updatedBy := d_updatedBy updateData; d_version := d_version updateData;
                 d_title := d_title updateData; d_description := d_description updateData;
                 d_assignees := Some a |}
  | None => updateData
  end.

(** What [prisma.task.update({ data: updateData })] writes: the fields
    present in [updateData], and the [updatedAt] stamp. *)
Definition applyData (now : Z) (d : UpdateData) (t : DbTask) : DbTask :=
  {| title := default (title t) (d_title d);
     description := match d_description d with Some x => Some x | None => description t end;
     createdBy := createdBy t;
     createdAt := createdAt t;
     updatedBy := Some (d_updatedBy d);
     updatedAt := now;
     assignees := default (assignees t) (d_assignees d);
     version := d_version d;
     isDeleted := isDeleted t |}.

(** [expectedVersion && currentTask.version !== expectedVersion] *)
Definition versionConflict (expectedVersion : option Z) (currentTask : DbTask) : bool :=
  match expectedVersion with
  | Some ev => JS.truthyNum ev && negb (version currentTask =? ev)
  | None => false
  end.

Definition updateTask (taskId : string) (taskData : UpdateTaskData)
           (currentUser : User) (expectedVersion : option Z) : M Task :=
  let* currentTask := Prisma.task_findFirst taskId true in
  match currentTask with
  | None => throw TaskNotFound
  | Some currentTask =>
      if isDeleted currentTask then throw TaskNotFound
      else if versionConflict expectedVersion currentTask then throw VersionConflict
      else
        let updateData := prepareUpdate currentTask taskData currentUser in
        let* now := Date_now in
        let* updatedTask := Prisma.task_update taskId true (applyData now updateData) in
        let* creator := Prisma.relation (createdBy updatedTask) in
        match creator with
        | None => throw PrismaError
        | Some _ =>
            let* verifyTask := Prisma.task_findFirst taskId true in
            run Prisma.taskAudit_create
                  {| a_taskId := taskId; a_by := id currentUser; a_action := AUpdate;
                     a_diff := DiffUpdate taskData (id currentUser) (version updatedTask) |} in
            let* transformedTask := transform true taskId updatedTask currentUser in
            run WebSocketService.emitTaskUpdated taskId taskData (id currentUser)
                  (version updatedTask) (updatedAt updatedTask) in
            run invalidateTaskCache in
            ret transformedTask
        end
  end.

(** [updateTask] is an [async] function: at each [await] the event loop
    may run another request.  Its first part, up to the second [await]:
    the read of the current task, the two checks and the [updateData]
    object, which holds the version read plus one. *)
Definition updateTask_read (taskId : string) (taskData : UpdateTaskData)
           (currentUser : User) (expectedVersion : option Z) : M UpdateData :=
  let* currentTask := Prisma.task_findFirst taskId true in
  match currentTask with
  | None => throw TaskNotFound
  | Some currentTask =>
      if isDeleted currentTask then throw TaskNotFound
      else if versionConflict expectedVersion currentTask then throw VersionConflict
      else ret (prepareUpdate currentTask taskData currentUser)
  end.

(** The rest of [updateTask], from [prisma.task.update] on: the write of
    [updateData] ([where] names the id and [isDeleted: false], not the
    version), the audit entry, the event and the invalidation. *)
Definition updateTask_write (taskId : string) (taskData : UpdateTaskData)
           (currentUser : User) (updateData : UpdateData) : M Task :=
  let* now := Date_now in
  let* updatedTask := Prisma.task_update taskId true (applyData now updateData) in
  let* creator := Prisma.relation (createdBy updatedTask) in
  match creator with
  | None => throw PrismaError
  | Some _ =>
      let* verifyTask := Prisma.task_findFirst taskId true in
      run Prisma.taskAudit_create
            {| a_taskId := taskId; a_by := id currentUser; a_action := AUpdate;
               a_diff := DiffUpdate taskData (id currentUser) (version updatedTask) |} in
      let* transformedTask := transform true taskId updatedTask currentUser in
      run WebSocketService.emitTaskUpdated taskId taskData (id currentUser)
            (version updatedTask) (updatedAt updatedTask) in
      run invalidateTaskCache in
      ret transformedTask
  end.

Definition markDeleted (now : Z) (t : DbTask) : DbTask :=
  {| title := title t; description := description t; createdBy := createdBy t;
     createdAt := createdAt t; updatedBy := updatedBy t; updatedAt := now;
     assignees := assignees t; version := version t; isDeleted := true |}.

Definition deleteTask (taskId : string) (currentUser : User) : M string :=
  let* task := Prisma.task_findFirst taskId false in
  match task with
  | None => throw TaskNotFound
  | Some task =>
      if isDeleted task then throw TaskNotFound
      else
        let* now := Date_now in
        run Prisma.task_update taskId false (markDeleted now) in
        run Prisma.taskAudit_create
              {| a_taskId := taskId; a_by := id currentUser; a_action := ADelete;
                 a_diff := DiffDelete now |} in
        let undoToken := "undo-" +:+ taskId +:+ "-" +:+ JS.toString now in
        run Prisma.passwordReset_create
              {| pr_email := undoToken; pr_token := undoToken;
                 pr_expiresAt := now + 10 * 60 * 1000; pr_used := false |} in
        run WebSocketService.emitTaskDeleted taskId in
        run invalidateTaskCache in
        ret undoToken
  end.

(** The suffix of a duplicated title, the Hebrew word for "copy" in
    brackets (here as its UTF-8 bytes). *)
Definition COPY_SUFFIX : string := " (עותק)".

Definition duplicateTask (newId taskId : string) (currentUser : User) : M Task :=
  let* originalTask := Prisma.task_findFirst taskId false in
  match originalTask with
  | None => throw TaskNotFound
  | Some originalTask =>
      if isDeleted originalTask then throw TaskNotFound
      else
        let* now := Date_now in
        let* duplicatedTask :=
          task_create newId
            (newTask now (title originalTask +:+ COPY_SUFFIX) (description originalTask)
                     (id currentUser) (assignees originalTask) 1) in
        run Prisma.taskAudit_create
              {| a_taskId := newId; a_by := id currentUser; a_action := ADuplicate;
                 a_diff := DiffDuplicate taskId |} in
        let* transformedTask := transform false newId duplicatedTask currentUser in
        run WebSocketService.emitTaskCreated transformedTask in
        ret transformedTask
  end.

Definition addAssignee (now : Z) (userId : string) (t : DbTask) : DbTask :=
  {| title := title t; description := description t; createdBy := createdBy t;
     createdAt := createdAt t; updatedBy := Some userId; updatedAt := now;
     assignees := (assignees t ++ [userId])%list; version := version t + 1;
     isDeleted := isDeleted t |}.

Definition assignSelfToTask (taskId : string) (currentUser : User) : M unit :=
  let* task := Prisma.task_findFirst taskId false in
  match task with
  | None => throw TaskNotFound
  | Some task =>
      if isDeleted task then throw TaskNotFound
      else if bool_decide (id currentUser ∈ assignees task) then ret tt
      else
        let* now := Date_now in
        run Prisma.task_update taskId false (addAssignee now (id currentUser)) in
        run Prisma.taskAudit_create
              {| a_taskId := taskId; a_by := id currentUser; a_action := AUpdate;
                 a_diff := DiffAssign (assignees task ++ [id currentUser])%list |} in
        run WebSocketService.emitTaskAssigned taskId (id currentUser) in
        ret tt
  end.

End TaskService.

(* ===================================================================== *)
(** ** [services/starService.ts] *)
(* ===================================================================== *)

Module StarService.

Definition addStar (taskId : string) (currentUser : User) : M unit :=
  let* task := Prisma.task_findFirst taskId false in
  match task with
  | None => throw TaskNotFound
  | Some task =>
      if isDeleted task then throw TaskNotFound
      else
        let* existingStar := Prisma.taskStar_findUnique taskId (id currentUser) in
        if existingStar then ret tt
        else
          run Prisma.taskStar_create taskId (id currentUser) in
          run WebSocketService.emitStarAdded taskId (id currentUser) in
          ret tt
  end.

Definition removeStar (taskId : string) (currentUser : User) : M unit :=
  let* count := Prisma.taskStar_deleteMany taskId (id currentUser) in
  if count =? 0 then ret tt
  else
    run WebSocketService.emitStarRemoved taskId (id currentUser) in
    ret tt.

(** [getStarredTasks]: the tasks with a star of the user, latest update
    first, without the deleted ones. *)
Definition getStarredTasks (currentUser : User) : M (list Task) :=
  run Prisma.connected in
  let* starredTasks := gets (fun w =>
    TaskService.sortBy
      (TaskService.before (users (db w)) TaskService.ByUpdatedAt TaskService.Desc)
      (List.filter (fun it => bool_decide ((it.1, id currentUser) ∈ taskStars (db w)))
                   (map_to_list (tasks (db w))))) in
  let nonDeletedStarredTasks :=
    List.filter (fun it => negb (isDeleted it.2)) starredTasks in
  TaskService.transformAll nonDeletedStarredTasks currentUser.

Definition isTaskStarred (taskId : string) (currentUser : User) : M bool :=
  tryCatch (Prisma.taskStar_findUnique taskId (id currentUser)) (fun _ => ret false).

Definition getStarCount (taskId : string) : M Z :=
  tryCatch (Prisma.taskStar_count taskId) (fun _ => ret 0).

End StarService.

(* ===================================================================== *)
(** ** Requests and responses (Express) *)
(* ===================================================================== *)

Module Http.

Inductive Method := GET | POST | PUT | PATCH | DELETE.

(** The route pattern a request path matches below its mount point, with
    the path parameter. *)
Inductive Target :=
| Root                          (* /            *)
| ById (taskId : string)        (* /:id         *)
| Duplicate (taskId : string)   (* /:id/duplicate *)
| AssignMe (taskId : string)    (* /:id/assign/me *)
| Star (taskId : string)        (* /:taskId/star *)
| Forgot.                       (* /forgot      *)

(** A JSON value of a request body. *)
Inductive JsVal :=
| VUndefined
| VNull
| VString (s : string)
| VNumber (n : Z)
| VBool (b : bool)
| VArray (l : list JsVal).

(** [req.body], an object; a key that is absent reads [undefined]. *)
Record Body := {
  b_title : JsVal;
  b_description : JsVal;
  b_assignees : JsVal;
  b_email : JsVal;
}.

Record Query := {
  q_page : option string;
  q_limit : option string;
  q_context : option string;
}.

Record Request := {
  method : Method;
  target : Target;
  path : string;
  ip : string;
  cookieSession : option string;       (* req.cookies?.session *)
  authorization : option string;       (* req.headers.authorization *)
  xCsrfToken : option string;          (* req.headers['x-csrf-token'] *)
  ifMatch : option string;             (* req.headers['if-match'] *)
  xRequestId : option string;          (* req.headers['x-request-id'] *)
  query : Query;
  body : Body;
  user : option User;                  (* req.user *)
  sessionToken : option string;        (* req.sessionToken *)
}.

Definition set_auth (u : User) (tok : string) (r : Request) : Request :=
  {| method := method r; target := target r; path := path r; ip := ip r;
     cookieSession := cookieSession r; authorization := authorization r;
     xCsrfToken := xCsrfToken r; ifMatch := ifMatch r; xRequestId := xRequestId r;
     query := query r; body := body r;
     user := Some u; sessionToken := Some tok |}.

Definition set_xRequestId (i : string) (r : Request) : Request :=
  {| method := method r; target := target r; path := path r; ip := ip r;
     cookieSession := cookieSession r; authorization := authorization r;
     xCsrfToken := xCsrfToken r; ifMatch := ifMatch r; xRequestId := Some i;
     query := query r; body := body r;
     user := user r; sessionToken := sessionToken r |}.

Inductive Message :=
| MsgNotLoggedIn | MsgSessionInvalid | MsgAuthFailure
| MsgCsrfMissing | MsgCsrfInvalid | MsgCsrfFailure
| MsgTooManyRequests | MsgTooManySearches
| MsgBadTaskId | MsgBadData | MsgBadParams
| MsgTaskNotFound | MsgVersionMismatch
| MsgServerError.

Inductive RespBody :=
| Empty
| DataTask (t : Task)
| DataPage (r : PaginatedResponse)
| DataUndo (undoToken : string)
| ErrorBody (code : Z) (message : Message) (requestId : option string)
            (field : option string).

(** The [ETag] header, ["${version}-${updatedAt}"]. *)
Record Response := {
  status : Z;
  payload : RespBody;
  etag : option (Z * Z);
}.

Definition respond (status : Z) (b : RespBody) : Response :=
  {| status := status; payload := b; etag := None |}.

(** A middleware either answers or calls [next()]. *)
Inductive Step :=
| Next (req : Request)
| Done (res : Response).

(** [res.setHeader(name, value)] for the headers that are not part of
    [Response]: all that is kept of the call is that it throws on a value
    with a character no header may hold. *)
Definition setHeader (value : string) : M unit :=
  if JS.validHeaderValue value then ret tt else throw TypeError.

End Http.

Export Http.

(* ===================================================================== *)
(** ** [validation/schemas.ts] *)
(* ===================================================================== *)

Module Schemas.

Definition TITLE_MAX_LENGTH : Z := 120.
Definition DESCRIPTION_MAX_LENGTH : Z := 5000.
Definition MAX_ASSIGNEES : Z := 20.
Definition MIN_PAGE : Z := 1.
Definition MAX_PAGE_SIZE : Z := 100.

(** [s.length] *)
Definition len (s : string) : Z := Z.of_nat (JS.length s).

(** The result of [schema.parse]: the validated data, or a [ZodError]
    whose first issue is at [field]. *)
Definition Parsed (A : Type) : Type := Err + A.

(** [z.string().min(1).max(max)] *)
Definition boundedString (field : string) (max : Z) (v : JsVal) : Parsed string :=
  match v with
  | VString s =>
      if (1 <=? len s) && (len s <=? max) then inr s else inl (ZodError field)
  | _ => inl (ZodError field)
  end.

Definition taskSchema (b : Body) : Parsed TaskService.CreateTaskData :=
  match boundedString "title" TITLE_MAX_LENGTH (b_title b) with
  | inl e => inl e
  | inr t =>
      match boundedString "description" DESCRIPTION_MAX_LENGTH (b_description b) with
      | inl e => inl e
      | inr d =>
          inr {| TaskService.c_title := JS.trim t; TaskService.c_description := Some d |}
      end
  end.

(** An optional field: [undefined] passes as [undefined]. *)
Definition optional {A} (p : JsVal -> Parsed A) (v : JsVal) : Parsed (option A) :=
  match v with
  | VUndefined => inr None
  | _ => match p v with inl e => inl e | inr a => inr (Some a) end
  end.

(** [z.string().max(max)] *)
Definition maxString (field : string) (max : Z) (v : JsVal) : Parsed string :=
  match v with
  | VString s => if len s <=? max then inr s else inl (ZodError field)
  | _ => inl (ZodError field)
  end.

Fixpoint objectIds (i : nat) (l : list JsVal) : Parsed (list string) :=
  match l with
  | [] => inr []
  | VString s :: rest =>
      if JS.isObjectId s
      then match objectIds (S i) rest with
           | inl e => inl e
           | inr ids => inr (s :: ids)
           end
      else inl (ZodError ("assignees." +:+ JS.toString (Z.of_nat i)))
  | _ :: _ => inl (ZodError ("assignees." +:+ JS.toString (Z.of_nat i)))
  end.

Definition assigneesArray (v : JsVal) : Parsed (list string) :=
  match v with
  | VArray l =>
      if Z.of_nat (List.length l) <=? MAX_ASSIGNEES then objectIds 0 l
      else inl (ZodError "assignees")
  | _ => inl (ZodError "assignees")
  end.

Definition updateTaskSchema (b : Body) : Parsed UpdateTaskData :=
  match optional (fun v => match boundedString "title" TITLE_MAX_LENGTH v with
                           | inl e => inl e | inr t => inr (JS.trim t) end) (b_title b) with
  | inl e => inl e
  | inr t =>
      match optional (maxString "description" DESCRIPTION_MAX_LENGTH) (b_description b) with
      | inl e => inl e
      | inr d =>
          match optional assigneesArray (b_assignees b) with
          | inl e => inl e
          | inr a =>
              if bool_decide (t = None) && bool_decide (d = None) && bool_decide (a = None)
              then inl (ZodError "title.description.assignees")
              else inr {| p_title := t; p_description := d; p_assignees := a |}
          end
      end
  end.

(** [searchSchema] on the object the list route builds; its [query] and
    [sort] keys are absent there, so [query] stays [undefined] and [sort]
    takes its default. *)
Definition searchSchema (page limit : Z) (context : string)
  : Parsed (Z * Z * TaskService.Context) :=
  if page <? MIN_PAGE then inl (ZodError "page")
  else if (limit <? 1) || (MAX_PAGE_SIZE <? limit) then inl (ZodError "limit")
  else if String.eqb context "all" then inr (page, limit, TaskService.All)
  else if String.eqb context "mine" then inr (page, limit, TaskService.Mine)
  else if String.eqb context "starred" then inr (page, limit, TaskService.Starred)
  else inl (ZodError "context").

Section Email.
(** zod's [.email()] test, a regular expression of the library. *)
Variable isEmail : string -> bool.

Definition forgotPasswordSchema (b : Body) : Parsed string :=
  match b_email b with
  | VString s =>
      if (1 <=? len s) && isEmail s then inr s else inl (ZodError "email")
  | _ => inl (ZodError "email")
  end.
End Email.

End Schemas.

(* ===================================================================== *)
(** ** [middleware/auth.ts] *)
(* ===================================================================== *)

Module Middleware.

(** [req.cookies?.session || req.headers.authorization?.replace('Bearer ', '')] *)
Definition presentedToken (req : Request) : option string :=
  if JS.truthyOStr (cookieSession req) then cookieSession req
  else JS.removeFirst "Bearer " <$> authorization req.

(** [req.headers['x-request-id'] || 'unknown'] *)
Definition requestIdOrUnknown (req : Request) : option string :=
  Some (JS.orStr (xRequestId req) "unknown").

(** The two headers [authenticate] sets before it calls [next]:
    [X-Session-Expires-At], the ISO text of
    [Date.now() + parseInt(process.env.SESSION_MAX_AGE || '86400000')], and
    [X-Session-Token]. *)
Definition sessionHeaders (sessionToken : string) : M unit :=
  let* now := Date_now in
  let* maxAge := gets (fun w => SESSION_MAX_AGE (env w)) in
  match maxAge with
  | None => throw RangeError
  | Some maxAge =>
      let* sessionExpiry := Date_toISOString (now + maxAge) in
      setHeader sessionToken
  end.

Definition authenticate (req : Request) : M Step :=
  tryCatch
    (match presentedToken req with
     | Some tok =>
         if JS.truthyStr tok then
           let* user := AuthUtils.getSession tok in
           match user with
           | None =>
               ret (Done (respond 401
                      (ErrorBody 401 MsgSessionInvalid (requestIdOrUnknown req) None)))
           | Some user =>
               run sessionHeaders tok in
               ret (Next (set_auth user (JS.orStr (sessionToken req) tok) req))
           end
         else ret (Done (respond 401
                     (ErrorBody 401 MsgNotLoggedIn (requestIdOrUnknown req) None)))
     | None =>
         ret (Done (respond 401
                (ErrorBody 401 MsgNotLoggedIn (requestIdOrUnknown req) None)))
     end)
    (fun _ => ret (Done (respond 500
                     (ErrorBody 500 MsgAuthFailure (requestIdOrUnknown req) None)))).

Definition csrfProtection (req : Request) : M Step :=
  tryCatch
    (match method req with
     | GET => ret (Next req)
     | _ =>
         match xCsrfToken req, presentedToken req with
         | Some csrf, Some tok =>
             if JS.truthyStr csrf && JS.truthyStr tok then
               let* isValid := AuthUtils.validateCSRFToken csrf tok in
               if isValid then ret (Next req)
               else ret (Done (respond 403
                           (ErrorBody 403 MsgCsrfInvalid (requestIdOrUnknown req) None)))
             else ret (Done (respond 403
                         (ErrorBody 403 MsgCsrfMissing (requestIdOrUnknown req) None)))
         | _, _ =>
             ret (Done (respond 403
                    (ErrorBody 403 MsgCsrfMissing (requestIdOrUnknown req) None)))
         end
     end)
    (fun _ => ret (Done (respond 500
                     (ErrorBody 500 MsgCsrfFailure (requestIdOrUnknown req) None)))).

(** [optionalAuth]: the session is attached when there is a valid one, and
    the request goes on in every case. *)
Definition optionalAuth (req : Request) : M Step :=
  tryCatch
    (match presentedToken req with
     | Some tok =>
         if JS.truthyStr tok then
           let* user := AuthUtils.getSession tok in
           match user with
           | Some user => ret (Next (set_auth user tok req))
           | None => ret (Next req)
           end
         else ret (Next req)
     | None => ret (Next req)
     end)
    (fun _ => ret (Next req)).

(** [a || b] on numbers; [None] is [undefined]. *)
Definition orNum (a : option Z) (b : Z) : Z :=
  match a with
  | Some n => if JS.truthyNum n then n else b
  | None => b
  end.

(** [rateLimit(limit, windowMs)] with the default key generator. *)
Definition rateLimit (limit windowMs : option Z) (req : Request) : M Step :=
  tryCatch
    (let* e := gets env in
     let defaultLimit := RATE_LIMIT_MAX_REQUESTS e in
     let defaultWindowMs := RATE_LIMIT_WINDOW_MS e in
     let actualLimit := orNum limit defaultLimit in
     let actualWindowMs := orNum windowMs defaultWindowMs in
     let key := ip req +:+ ":" +:+ path req in
     let* allowed := AuthUtils.checkRateLimit key actualLimit actualWindowMs in
     if allowed then ret (Next req)
     else ret (Done (respond 429
                 (ErrorBody 429 MsgTooManyRequests (requestIdOrUnknown req) None))))
    (fun _ => ret (Next req)).

Definition authRateLimit (limit windowMs : option Z) (req : Request) : M Step :=
  let* e := gets env in
  rateLimit (Some (orNum limit (RATE_LIMIT_AUTH_MAX_REQUESTS e)))
            (Some (orNum windowMs (RATE_LIMIT_AUTH_WINDOW_MS e))) req.

(** [requestId]; [fresh] is the id the middleware makes up from the clock
    and [Math.random()] when the request carries none. *)
Definition requestId (fresh : string) (req : Request) : Step :=
  Next (set_xRequestId (JS.orStr (xRequestId req) fresh) req).

(** Running a middleware before the rest of a chain. *)
Definition andThen (m : M Step) (k : Request -> M Response) : M Response :=
  let* s := m in
  match s with
  | Next req => k req
  | Done res => ret res
  end.

End Middleware.

(* ===================================================================== *)
(** ** [utils/email.ts] and [services/authService.ts] (password reset) *)
(* ===================================================================== *)

Module AuthService.

Definition sendEmail (e : Email) : M unit :=
  fun w => if mailUp (out w)
           then (Ok tt, with_out (fun o => set_outbox (outbox o ++ [e]) o) w)
           else (Throw MailError, w).

(** [forgotPassword]; [resetToken] is the value [uuidv4()] returns. *)
Definition forgotPassword (resetToken email : string) : M unit :=
  let* user := Prisma.user_findUnique email in
  match user with
  | None => ret tt
  | Some user =>
      run AuthUtils.storePasswordResetToken email resetToken in
      let* e := gets env in
      let resetUrl := default "undefined" (FRONTEND_URL e)
                        +:+ "/reset-password?token=" +:+ resetToken in
      sendEmail {| to := email; subject := "password reset"; resetUrl := resetUrl |}
  end.

(** [logout]: the error of [deleteSession], if any, is thrown again. *)
Definition logout (sessionToken : string) : M unit :=
  tryCatch (AuthUtils.deleteSession sessionToken) (fun e => throw e).

End AuthService.

(* ===================================================================== *)
(** ** The routers: [routes/tasks.ts], [routes/stars.ts], [routes/auth.ts] *)
(* ===================================================================== *)

Module Routes.

Import Middleware.

Definition liftParsed {A} (p : Schemas.Parsed A) : M A :=
  match p with
  | inl e => throw e
  | inr a => ret a
  end.

(** [req.user!]: a non-null assertion, erased at run time.  Every handler
    runs behind [authenticate], which sets [req.user] or answers 401 or
    500; with no user the first property access on it is a [TypeError]. *)
Definition currentUser (req : Request) : M User :=
  match user req with
  | Some u => ret u
  | None => throw TypeError
  end.

Definition errorBody (req : Request) (code : Z) (m : Message) (field : option string)
  : Response :=
  respond code (ErrorBody code m (xRequestId req) field).

Definition withTask (status : Z) (t : Task) : Response :=
  {| status := status; payload := DataTask t; etag := None |}.

Definition withETag (status : Z) (t : Task) : Response :=
  {| status := status; payload := DataTask t;
     etag := Some (t_version t, t_updatedAt t) |}.

(** [!taskId || !/^[0-9a-fA-F]{24}$/.test(taskId)] *)
Definition badTaskId (taskId : string) : bool :=
  negb (JS.truthyStr taskId) || negb (JS.isObjectId taskId).

Definition searchRateLimit (req : Request) : M Step :=
  let key := "search:" +:+ ip req in
  let* allowed := AuthUtils.checkRateLimit key 30 (60 * 1000) in
  if allowed then ret (Next req)
  else ret (Done (respond 429 (ErrorBody 429 MsgTooManySearches None None))).

Definition taskRateLimit := rateLimit (Some 60) (Some (60 * 1000)).
Definition writeRateLimit := rateLimit (Some 30) (Some (60 * 1000)).

(** [parseInt(x) || dflt] for a query parameter. *)
Definition intParam (x : option string) (dflt : Z) : Z :=
  match x with
  | Some s => match JS.parseInt s with
              | Some n => if JS.truthyNum n then n else dflt
              | None => dflt
              end
  | None => dflt
  end.

Definition listTasks (req : Request) : M Response :=
  tryCatch
    (let q := query req in
     let* v := liftParsed (Schemas.searchSchema (intParam (q_page q) 1)
                             (intParam (q_limit q) 20) (JS.orStr (q_context q) "all")) in
     let taskFilters :=
       {| TaskService.f_search := ""; TaskService.f_page := v.1.1;
          TaskService.f_limit := v.1.2; TaskService.f_sortBy := TaskService.ByUpdatedAt;
          TaskService.f_sortOrder := TaskService.Desc; TaskService.f_context := v.2 |} in
     let* u := currentUser req in
     let* result := TaskService.getTasks taskFilters u in
     ret (respond 200 (DataPage result)))
    (fun e => match e with
              | ZodError f => ret (errorBody req 400 MsgBadParams (Some f))
              | _ => ret (errorBody req 500 MsgServerError None)
              end).

Definition getTaskRoute (taskId : string) (req : Request) : M Response :=
  tryCatch
    (if badTaskId taskId then ret (errorBody req 400 MsgBadTaskId None)
     else
       let* u := currentUser req in
       let* task := TaskService.getTask taskId u in
       ret (withETag 200 task))
    (fun e => match e with
              | TaskNotFound => ret (errorBody req 404 MsgTaskNotFound None)
              | _ => ret (errorBody req 500 MsgServerError None)
              end).

Definition createTaskRoute (newId : string) (req : Request) : M Response :=
  tryCatch
    (let* validatedData := liftParsed (Schemas.taskSchema (body req)) in
     let* u := currentUser req in
     let* task := TaskService.createTask newId validatedData u in
     ret (withTask 201 task))
    (fun e => match e with
              | ZodError f => ret (errorBody req 400 MsgBadData (Some f))
              | _ => ret (errorBody req 500 MsgServerError None)
              end).

(** [ifMatch.match(re)] for the pattern [re]: a double quote at the start,
    one or more digits (the group), a dash; then [parseInt(match[1])]. *)
Definition parseIfMatch (ifMatch : option string) : option Z :=
  match ifMatch with
  | Some (String q rest) =>
      if Ascii.eqb q JS.dquote then
        match JS.spanDigits rest with
        | (String d ds, String "-" _) => JS.parseInt (String d ds)
        | _ => None
        end
      else None
  | _ => None
  end.

Definition updateTaskRoute (taskId : string) (req : Request) : M Response :=
  tryCatch
    (if badTaskId taskId then ret (errorBody req 400 MsgBadTaskId None)
     else
       let* validatedData := liftParsed (Schemas.updateTaskSchema (body req)) in
       let expectedVersion := parseIfMatch (ifMatch req) in
       let* u := currentUser req in
       let* task := TaskService.updateTask taskId validatedData u expectedVersion in
       ret (withETag 200 task))
    (fun e => match e with
              | ZodError f => ret (errorBody req 400 MsgBadData (Some f))
              | TaskNotFound => ret (errorBody req 404 MsgTaskNotFound None)
              | VersionConflict => ret (errorBody req 409 MsgVersionMismatch None)
              | _ => ret (errorBody req 500 MsgServerError None)
              end).

Definition notFoundOr500 (req : Request) (e : Err) : M Response :=
  match e with
  | TaskNotFound => ret (errorBody req 404 MsgTaskNotFound None)
  | _ => ret (errorBody req 500 MsgServerError None)
  end.

Definition deleteTaskRoute (taskId : string) (req : Request) : M Response :=
  tryCatch
    (if badTaskId taskId then ret (errorBody req 400 MsgBadTaskId None)
     else
       let* u := currentUser req in
       let* undoToken := TaskService.deleteTask taskId u in
       ret (respond 202 (DataUndo undoToken)))
    (notFoundOr500 req).

Definition duplicateTaskRoute (newId taskId : string) (req : Request) : M Response :=
  tryCatch
    (if badTaskId taskId then ret (errorBody req 400 MsgBadTaskId None)
     else
       let* u := currentUser req in
       let* task := TaskService.duplicateTask newId taskId u in
       ret (withTask 201 task))
    (notFoundOr500 req).

Definition assignMeRoute (taskId : string) (req : Request) : M Response :=
  tryCatch
    (if badTaskId taskId then ret (errorBody req 400 MsgBadTaskId None)
     else
       let* u := currentUser req in
       run TaskService.assignSelfToTask taskId u in
       ret (respond 204 Empty))
    (notFoundOr500 req).

(** A route that matched answers the request. *)
Definition answered (m : M Response) : M (Response + Request) :=
  let* res := m in ret (inl res).

(** [routes/tasks.ts]: [router.use(authenticate)], then the routes, each
    with its rate limiter.  A request no route matches goes on to the
    next router ([inr]). *)
Definition tasksRouter (newId : string) (req : Request) : M (Response + Request) :=
  let* s := authenticate req in
  match s with
  | Done res => ret (inl res)
  | Next req =>
      match method req, target req with
      | GET, Root => answered (andThen (searchRateLimit req) listTasks)
      | GET, ById i => answered (andThen (taskRateLimit req) (getTaskRoute i))
      | POST, Root => answered (andThen (writeRateLimit req) (createTaskRoute newId))
      | PATCH, ById i => answered (andThen (writeRateLimit req) (updateTaskRoute i))
      | DELETE, ById i => answered (andThen (writeRateLimit req) (deleteTaskRoute i))
      | POST, Duplicate i =>
          answered (andThen (writeRateLimit req) (duplicateTaskRoute newId i))
      | PUT, AssignMe i => answered (andThen (writeRateLimit req) (assignMeRoute i))
      | _, _ => ret (inr req)
      end
  end.

Definition starRateLimit := rateLimit (Some 30) (Some (60 * 1000)).

Definition addStarRoute (taskId : string) (req : Request) : M Response :=
  tryCatch
    (if badTaskId taskId then ret (errorBody req 400 MsgBadTaskId None)
     else
       let* u := currentUser req in
       run StarService.addStar taskId u in
       ret (respond 204 Empty))
    (notFoundOr500 req).

Definition removeStarRoute (taskId : string) (req : Request) : M Response :=
  tryCatch
    (if badTaskId taskId then ret (errorBody req 400 MsgBadTaskId None)
     else
       let* u := currentUser req in
       run StarService.removeStar taskId u in
       ret (respond 204 Empty))
    (fun _ => ret (errorBody req 500 MsgServerError None)).

(** [routes/stars.ts] *)
Definition starsRouter (fresh : string) (req : Request) : M (Response + Request) :=
  match requestId fresh req with
  | Done res => ret (inl res)
  | Next req =>
      let* s := authenticate req in
      match s with
      | Done res => ret (inl res)
      | Next req =>
          match method req, target req with
          | PUT, Star i => answered (andThen (starRateLimit req) (addStarRoute i))
          | DELETE, Star i => answered (andThen (starRateLimit req) (removeStarRoute i))
          | _, _ => ret (inr req)
          end
      end
  end.

(** [index.ts]: [app.use('/tasks', taskRoutes); app.use('/tasks', starRoutes)].
    None of the application-level middleware before the routers (helmet,
    cors, body and cookie parsers, logging) answers a request other than
    an [OPTIONS] preflight. *)
Definition tasksApp (newId fresh : string) (req : Request) : M Response :=
  let* r := tasksRouter newId req in
  match r with
  | inl res => ret res
  | inr req =>
      let* r := starsRouter fresh req in
      match r with
      | inl res => ret res
      | inr req => ret (errorBody req 404 MsgTaskNotFound None)
      end
  end.

Section Auth.
Variable isEmail : string -> bool.

Definition forgotRoute (resetToken : string) (req : Request) : M Response :=
  tryCatch
    (let* email := liftParsed (Schemas.forgotPasswordSchema isEmail (body req)) in
     run AuthService.forgotPassword resetToken email in
     ret (respond 204 Empty))
    (fun e => match e with
              | ZodError f => ret (errorBody req 400 MsgBadData (Some f))
              | _ => ret (respond 204 Empty)
              end).

(** [routes/auth.ts], the [/forgot] route: [router.use(requestId)], the
    default auth limiter, the handler. *)
Definition authRouter (fresh resetToken : string) (req : Request)
  : M (Response + Request) :=
  match requestId fresh req with
  | Done res => ret (inl res)
  | Next req =>
      match method req, target req with
      | POST, Forgot =>
          answered (andThen (authRateLimit None None req) (forgotRoute resetToken))
      | _, _ => ret (inr req)
      end
  end.
End Auth.

(** The text of the [ETag] header the task routes set, a template literal:
    a double quote, the version, a dash, the ISO text of [updatedAt], a
    double quote.  [toISOString] is [Date.prototype.toISOString]. *)
Definition etagHeader (toISOString : Z -> string) (e : Z * Z) : string :=
  String JS.dquote
    (JS.toString e.1 +:+ "-" +:+ toISOString e.2 +:+ String JS.dquote EmptyString).

(** [routes/auth.ts], [POST /logout], behind [authenticate]. *)
Definition logoutRoute (req : Request) : M Response :=
  tryCatch
    (run (match sessionToken req with
          | Some tok => if JS.truthyStr tok then AuthService.logout tok else ret tt
          | None => ret tt
          end) in
     ret (respond 204 Empty))
    (fun _ => ret (errorBody req 500 MsgServerError None)).



End Routes.

(* ===================================================================== *)
(** ** Vocabulary of the statements *)
(* ===================================================================== *)

(** The value of a call that returned. *)
Definition returned {A} (r : Res A) : option A :=
  match r with
  | Ok a => Some a
  | Throw _ => None
  end.

(** Worlds that differ at most in the key-value stores. *)
Definition same_but_kv (w w' : World) : Prop :=
  env w' = env w /\ clock w' = clock w /\ db w' = db w /\ out w' = out w.

(** Worlds that differ at most in the database, the emitted events and the
    mail: what a client of the password-reset flow cannot tell apart. *)
Definition same_but_accounts (w w' : World) : Prop :=
  env w' = env w /\ clock w' = clock w /\ kv w' = kv w.

(** The stored task, as the claims speak of it. *)
Definition stored (w : World) (taskId : string) : option DbTask :=
  tasks (db w) !! taskId.

(** A handler answered with a success status. *)
Definition answers2xx (r : Res Response * World) : bool :=
  match fst r with
  | Ok res => (200 <=? status res) && (status res <? 300)
  | Throw _ => false
  end.

(** A middleware answered 403 instead of calling [next()]. *)
Definition refuses403 (r : Res Step * World) : bool :=
  match fst r with
  | Ok (Done res) => status res =? 403
  | _ => false
  end.

(** The page a list query returns. *)
Definition listed (f : TaskService.TaskFilters) (u : User) (w : World)
  : option PaginatedResponse :=
  returned (fst (TaskService.getTasks f u w)).

(** What [updateTask] writes for a task [t]: the document [prisma.task.update]
    makes of it from the [updateData] object. *)
Definition updated (now : Z) (t : DbTask) (p : UpdateTaskData) (u : User) : DbTask :=
  TaskService.applyData now (TaskService.prepareUpdate t p u) t.

(** *** Exceptions and observers *)

(** Every exception a computation raises satisfies [P]. *)
Definition raises {A} (P : Err -> Prop) (m : M A) : Prop :=
  forall w e w', m w = (Throw e, w') -> P e.

Definition isZod (e : Err) : Prop := exists f, e = ZodError f.
Definition notZod (e : Err) : Prop := forall f, e <> ZodError f.
Definition notConflict (e : Err) : Prop := e <> VersionConflict.

(** A computation whose result and whose effect on the environment, the
    clock and the key-value stores do not depend on the database, the
    emitted events or the mail. *)
Definition blind {A} (m : M A) : Prop :=
  forall w1 w2, same_but_accounts w1 w2 ->
    fst (m w1) = fst (m w2) /\ same_but_accounts (snd (m w1)) (snd (m w2)).

(** The answer of the forgot-password handler, read off the request alone. *)
Definition forgotAnswer (isEmail : string -> bool) (req : Request) : Response :=
  match Schemas.forgotPasswordSchema isEmail (body req) with
  | inl (ZodError f) => Routes.errorBody req 400 MsgBadData (Some f)
  | _ => respond 204 Empty
  end.

(** *** The [If-Match] header, in the words of the claim *)

Definition allDigits (s : string) : bool :=
  forallb JS.is_digit (list_ascii_of_string s).

(** The header begins with a double quote, the digits [digits] and a dash. *)
Definition carriesVersion (h digits rest : string) : Prop :=
  h = String JS.dquote (digits +:+ String "-"%char rest)
  /\ digits <> "" /\ allDigits digits = true.

(** The header does not begin that way, or its version component is 0. *)
Definition preconditionDropped (h : string) : Prop :=
  (forall digits rest, ~ carriesVersion h digits rest)
  \/ (exists digits rest, carriesVersion h digits rest /\ JS.parseInt digits = Some 0).

(** The same request without its [If-Match] header. *)
Definition without_ifMatch (r : Request) : Request :=
  {| method := method r; target := target r; path := path r; ip := ip r;
     cookieSession := cookieSession r; authorization := authorization r;
     xCsrfToken := xCsrfToken r; ifMatch := None; xRequestId := xRequestId r;
     query := query r; body := body r;
     user := user r; sessionToken := sessionToken r |}.

(** *** The rate limiter *)

(** The backend in use can be reached. *)
Definition backendReady (w : World) : Prop :=
  match AuthUtils.getStorage (env w) with
  | AuthUtils.UseRedis => redisUp (kv w) = true
  | AuthUtils.UseMemory => True
  end.

(** The key has a live entry: a window is open. *)
Definition windowOpen (w : World) (key : string) : bool :=
  match AuthUtils.getStorage (env w) with
  | AuthUtils.UseRedis => bool_decide (is_Some (Redis.lookup w ("rate-limit:" +:+ key)))
  | AuthUtils.UseMemory =>
      match inMemoryStorage (kv w) !! key with
      | Some item => negb (clock w >? expiresAt item)
      | None => false
      end
  end.

(** The count of the open window and the time it ends. *)
Definition counter (w : World) (key : string) : option (Z * Z) :=
  match AuthUtils.getStorage (env w) with
  | AuthUtils.UseRedis =>
      match Redis.lookup w ("rate-limit:" +:+ key) with
      | Some e =>
          match Redis.asInteger (rval e), rexp e with
          | Some n, Some t => Some (n, t)
          | _, _ => None
          end
      | None => None
      end
  | AuthUtils.UseMemory =>
      match inMemoryStorage (kv w) !! key with
      | Some item =>
          if clock w >? expiresAt item then None
          else match AuthUtils.parseData (data item) with
               | Some n => Some (n, expiresAt item)
               | None => None
               end
      | None => None
      end
  end.

(** The length of the window a call opens: Redis counts whole seconds. *)
Definition windowOf (w : World) (windowMs : Z) : Z :=
  match AuthUtils.getStorage (env w) with
  | AuthUtils.UseRedis => windowMs / 1000 * 1000
  | AuthUtils.UseMemory => windowMs
  end.

(** One call at each of the given times. *)
Fixpoint callsAt (key : string) (limit windowMs : Z) (ts : list Z) : M (list bool) :=
  match ts with
  | [] => ret []
  | t :: rest =>
      run modify (at_time t) in
      let* allowed := AuthUtils.checkRateLimit key limit windowMs in
      let* others := callsAt key limit windowMs rest in
      ret (allowed :: others)
  end.

(** The answers the fixed window gives to [k] further calls when [n] calls
    have been counted. *)
Fixpoint windowAnswers (n limit : Z) (k : nat) : list bool :=
  match k with
  | O => []
  | S k' => (n + 1 <=? limit) :: windowAnswers (n + 1) limit k'
  end.

(* ===================================================================== *)
(** ** Sample data for the examples *)
(* ===================================================================== *)

Module Sample.

Definition env_redis : Env :=
  {| NODE_ENV := Some "production"; REDIS_URL := Some "redis://cache:6379";
     REDIS_DISABLED := None; RATE_LIMIT_STRICT_MODE := None;
     RATE_LIMIT_MAX_REQUESTS := 100; RATE_LIMIT_WINDOW_MS := 900000;
     RATE_LIMIT_AUTH_MAX_REQUESTS := 5; RATE_LIMIT_AUTH_WINDOW_MS := 900000;
     SESSION_MAX_AGE := Some 86400000; FRONTEND_URL := Some "https://tasks.example" |}.

Definition env_memory : Env :=
  {| NODE_ENV := Some "development"; REDIS_URL := None;
     REDIS_DISABLED := Some "true"; RATE_LIMIT_STRICT_MODE := None;
     RATE_LIMIT_MAX_REQUESTS := 100; RATE_LIMIT_WINDOW_MS := 900000;
     RATE_LIMIT_AUTH_MAX_REQUESTS := 5; RATE_LIMIT_AUTH_WINDOW_MS := 900000;
     SESSION_MAX_AGE := Some 86400000; FRONTEND_URL := Some "http://localhost:3000" |}.

Definition annId : string := "a00000000000000000000001".
Definition bobId : string := "b00000000000000000000002".
Definition taskA : string := "c00000000000000000000003".
Definition taskB : string := "d00000000000000000000004".

Definition annDoc : DbUser :=
  {| u_email := "ann@example.com"; u_name := "Ann"; u_provider := "credentials";
     u_createdAt := 10 |}.
Definition bobDoc : DbUser :=
  {| u_email := "bob@example.com"; u_name := "Bob"; u_provider := "credentials";
     u_createdAt := 20 |}.

Definition ann : User :=
  {| id := annId; email := "ann@example.com"; name := "Ann";
     provider := "credentials"; userCreatedAt := 10 |}.
Definition bob : User :=
  {| id := bobId; email := "bob@example.com"; name := "Bob";
     provider := "credentials"; userCreatedAt := 20 |}.

(** A running server with two accounts and no task; the Redis client is
    connected exactly when the environment selects Redis. *)
Definition start (e : Env) (redisConnected : bool) : World :=
  {| env := e; clock := 1000;
     kv := {| redisUp := redisConnected; redisDb := ∅; inMemoryStorage := ∅;
              rateLimitStats := {| total := 0; blocked := 0; failures := 0 |} |};
     db := {| dbUp := true; users := {[ annId := annDoc; bobId := bobDoc ]};
              tasks := ∅; taskStars := ∅; taskAudits := []; passwordResets := [] |};
     out := {| io := true; emitted := []; mailUp := true; outbox := [] |} |}.

Definition titleOnly (t : string) : UpdateTaskData :=
  {| p_title := Some t; p_description := None; p_assignees := None |}.
Definition assigneesOnly (a : list string) : UpdateTaskData :=
  {| p_title := None; p_description := None; p_assignees := Some a |}.

(** Ann has created task A, titled "A" and described "d". *)
Definition board : World :=
  snd (TaskService.createTask taskA
         {| TaskService.c_title := "A"; TaskService.c_description := Some "d" |}
         ann (start env_redis true)).

Definition firstPage (c : TaskService.Context) : TaskService.TaskFilters :=
  {| TaskService.f_search := ""; TaskService.f_page := 1; TaskService.f_limit := 20;
     TaskService.f_sortBy := TaskService.ByUpdatedAt;
     TaskService.f_sortOrder := TaskService.Desc; TaskService.f_context := c |}.

(** Ann has logged in: her session and its CSRF token are stored. *)
Definition loggedIn (e : Env) (redisConnected : bool) : World :=
  let w := start e redisConnected in
  let w := snd (AuthUtils.createSession "sess-ann" ann w) in
  snd (AuthUtils.storeCSRFToken "csrf-ann" "sess-ann" w).

(** The same, with task A on the board. *)
Definition office : World :=
  snd (TaskService.createTask taskA
         {| TaskService.c_title := "A"; TaskService.c_description := Some "d" |}
         ann (loggedIn env_redis true)).

Definition noBody : Body :=
  {| b_title := VUndefined; b_description := VUndefined;
     b_assignees := VUndefined; b_email := VUndefined |}.

Definition taskBody (title description : JsVal) : Body :=
  {| b_title := title; b_description := description;
     b_assignees := VUndefined; b_email := VUndefined |}.

Definition emailBody (email : string) : Body :=
  {| b_title := VUndefined; b_description := VUndefined;
     b_assignees := VUndefined; b_email := VString email |}.

(** A request that presents Ann's session cookie and no [X-CSRF-Token]. *)
Definition request (m : Method) (t : Target) (p : string) (b : Body) : Request :=
  {| method := m; target := t; path := p; ip := "203.0.113.7";
     cookieSession := Some "sess-ann"; authorization := None; xCsrfToken := None;
     ifMatch := None; xRequestId := None;
     query := {| q_page := None; q_limit := None; q_context := None |};
     body := b; user := None; sessionToken := None |}.

(** One request for each state-mutating route of the task and star routers. *)
Definition mutatingRequests : list Request :=
  [ request POST Root "/" (taskBody (VString "T") (VString "x"));
    request PATCH (ById taskA) ("/" +:+ taskA) (taskBody (VString "B") VUndefined);
    request POST (Duplicate taskA) ("/" +:+ taskA +:+ "/duplicate") noBody;
    request PUT (AssignMe taskA) ("/" +:+ taskA +:+ "/assign/me") noBody;
    request PUT (Star taskA) ("/" +:+ taskA +:+ "/star") noBody;
    request DELETE (Star taskA) ("/" +:+ taskA +:+ "/star") noBody;
    request DELETE (ById taskA) ("/" +:+ taskA) noBody ].

(** The same server with no account at all. *)
Definition withoutAccounts (w : World) : World :=
  with_db (fun d => {| dbUp := dbUp d; users := ∅; tasks := tasks d;
                       taskStars := taskStars d; taskAudits := taskAudits d;
                       passwordResets := passwordResets d |}) w.

(** A stand-in for the e-mail test of the validation library. *)
Definition looksLikeEmail (s : string) : bool := JS.includes "@" s.

(** A request as the route handlers receive it from [authenticate], with an
    [If-Match] header. *)
Definition patchWith (ifMatchHeader : string) : Request :=
  let r := request PATCH (ById taskA) ("/" +:+ taskA) (taskBody (VString "B") VUndefined) in
  {| method := method r; target := target r; path := path r; ip := ip r;
     cookieSession := cookieSession r; authorization := authorization r;
     xCsrfToken := xCsrfToken r; ifMatch := Some ifMatchHeader;
     xRequestId := xRequestId r; query := query r; body := body r;
     user := Some ann; sessionToken := Some "sess-ann" |}.

End Sample.

(** *** The stores, as the further properties speak of them *)


(** The two session headers of [authenticate] can be written:
    [SESSION_MAX_AGE] is a number, [Date.now()] plus it is within the range
    of [Date], and the token is a header value. *)
Definition headersOk (w : World) (tok : string) : bool :=
  match SESSION_MAX_AGE (env w) with
  | Some d => JS.validTime (clock w + d) && JS.validHeaderValue tok
  | None => false
  end.

(** Worlds that differ at most in what the two stores hold and in the
    statistics of the limiter: the environment, the clock, the database,
    the emitted events, the mail and the state of the Redis connection are
    the same. *)
Definition same_but_stores (w w' : World) : Prop :=
  env w' = env w /\ clock w' = clock w /\ db w' = db w /\ out w' = out w
  /\ redisUp (kv w') = redisUp (kv w).

(** A computation that writes to the stores only. *)
Definition storesOnly {A} (m : M A) : Prop :=
  forall w, same_but_stores w (snd (m w)).

(** What [getValue] reads, as a function of the state. *)
Definition readsAs (w : World) (key : string) : option Stored :=
  match AuthUtils.getStorage (env w) with
  | AuthUtils.UseRedis => rval <$> Redis.lookup w key
  | AuthUtils.UseMemory =>
      match inMemoryStorage (kv w) !! key with
      | Some item => if clock w >? expiresAt item then None else Some (data item)
      | None => None
      end
  end.

(** The session a token stands for, read off the store. *)
Definition sessionOf (w : World) (tok : string) : option User :=
  match readsAs w ("session:" +:+ tok) with
  | Some (Json (JSession u expiresAt)) => if expiresAt <? clock w then None else Some u
  | _ => None
  end.

(** A computation that leaves the statistics of the limiter alone. *)
Definition keepsStats {A} (m : M A) : Prop :=
  forall w, rateLimitStats (kv (snd (m w))) = rateLimitStats (kv w).

(** Worlds with the same environment, clock and connection state whose
    stores differ at most in the Redis keys [rk] and in the keys [mk] of
    the in-process map. *)
Definition same_but_keys (rk mk : string -> Prop) (w w' : World) : Prop :=
  (env w' = env w /\ clock w' = clock w /\ redisUp (kv w') = redisUp (kv w))
  /\ (forall k, ~ rk k -> redisDb (kv w') !! k = redisDb (kv w) !! k)
  /\ (forall k, ~ mk k -> inMemoryStorage (kv w') !! k = inMemoryStorage (kv w) !! k).

(** A computation that writes at most those keys. *)
Definition writesOnly {A} (rk mk : string -> Prop) (m : M A) : Prop :=
  forall w, same_but_keys rk mk w (snd (m w)).

(** A computation that cannot tell two worlds related by [R] apart: it
    returns the same result in both and leaves them related. *)
Definition respects (R : World -> World -> Prop) {A} (m : M A) : Prop :=
  forall w1 w2, R w1 w2 ->
    fst (m w1) = fst (m w2) /\ R (snd (m w1)) (snd (m w2)).

(** Worlds that agree on the environment, the clock, the state of the
    connection, the Redis key [rk] and the key [mk] of the in-process map:
    what a computation that reads and writes those two keys can see. *)
Definition sameAt (rk mk : string) (w w' : World) : Prop :=
  env w' = env w /\ clock w' = clock w /\ redisUp (kv w') = redisUp (kv w)
  /\ redisDb (kv w') !! rk = redisDb (kv w) !! rk
  /\ inMemoryStorage (kv w') !! mk = inMemoryStorage (kv w) !! mk.

(** Worlds of a server on the Redis backend that differ at most in the
    in-process map. *)
Definition sameRedis (w w' : World) : Prop :=
  AuthUtils.getStorage (env w) = AuthUtils.UseRedis
  /\ env w' = env w /\ clock w' = clock w /\ redisUp (kv w') = redisUp (kv w)
  /\ redisDb (kv w') = redisDb (kv w).

(** The Redis keys of the cached pages, and no key at all. *)
Definition isCacheKey (k : string) : Prop :=
  JS.startsWith TaskService.SEARCH_CACHE_PREFIX k = true.
Definition noKeys (k : string) : Prop := False.

(** The documents [getTasks] transforms on a miss: those that match the
    [where] object, in order, cut to the page, without the deleted ones. *)
Definition pageOf (f : TaskService.TaskFilters) (wh : TaskService.Where) (w : World)
  : list (string * DbTask) :=
  let matching := List.filter (fun it : string * DbTask => TaskService.matches wh it.1 it.2)
                              (map_to_list (tasks (db w))) in
  List.filter (fun it : string * DbTask => negb (isDeleted it.2))
    (take (Z.to_nat (TaskService.f_limit f))
       (drop (Z.to_nat ((TaskService.f_page f - 1) * TaskService.f_limit f))
          (TaskService.sortBy
             (TaskService.before (users (db w)) (TaskService.f_sortBy f)
                                 (TaskService.f_sortOrder f))
             matching))).

(* ===================================================================== *)
(** ** Reasoning about the monad *)
(* ===================================================================== *)

Ltac mred :=
  cbv beta iota zeta delta
    [bind ret throw gets modify tryCatch Date_now
     Prisma.task_findFirst Prisma.connected Prisma.task_update Prisma.task_put
     Prisma.relation Prisma.taskAudit_create Prisma.passwordReset_create
     Prisma.user_findMany Prisma.taskStar_findUnique Prisma.taskStar_create
     Prisma.taskStar_deleteMany Prisma.user_findUnique
     WebSocketService.emitTaskUpdated WebSocketService.emitTaskCreated
     WebSocketService.emitTaskDeleted WebSocketService.emitTaskAssigned
     WebSocketService.emitStarAdded WebSocketService.emitStarRemoved
     WebSocketService.emit TaskService.task_create TaskService.assigneeUsers] in *.

Ltac absurd_result := intros [=].

Lemma same_but_kv_refl w : same_but_kv w w.
Proof. repeat split. Qed.

Lemma same_but_kv_trans w1 w2 w3 :
  same_but_kv w1 w2 -> same_but_kv w2 w3 -> same_but_kv w1 w3.
Proof. intros (?&?&?&?) (?&?&?&?). repeat split; congruence. Qed.

(* ===================================================================== *)
(** ** The cache invalidation touches the key-value store only *)
(* ===================================================================== *)

Lemma redis_del_frame k w : same_but_kv w (snd (Redis.del k w)).
Proof.
  unfold Redis.del, Redis.connected. mred.
  destruct (redisUp (kv w)); simpl; repeat split.
Qed.

Lemma deleteEach_frame keys :
  forall w, same_but_kv w (snd (TaskService.deleteEach keys w)).
Proof.
  induction keys as [|k keys IH]; intros w; simpl.
  - apply same_but_kv_refl.
  - unfold bind. pose proof (redis_del_frame k w) as Hd.
    destruct (Redis.del k w) as [[[]|e] w1]; simpl in *.
    + eapply same_but_kv_trans; [exact Hd | apply IH].
    + exact Hd.
Qed.

Lemma invalidate_ok w : fst (TaskService.invalidateTaskCache w) = Ok tt.
Proof.
  unfold TaskService.invalidateTaskCache, tryCatch.
  destruct (bind _ _ w) as [[[]|e] w1]; reflexivity.
Qed.

Lemma invalidate_frame w : same_but_kv w (snd (TaskService.invalidateTaskCache w)).
Proof.
  unfold TaskService.invalidateTaskCache, Redis.keys, Redis.connected. mred.
  destruct (redisUp (kv w)); simpl; [|apply same_but_kv_refl].
  match goal with |- context [if ?c then _ else _] => destruct c end.
  - match goal with |- context [TaskService.deleteEach ?ks ?w0] =>
      pose proof (deleteEach_frame ks w0) as H;
      destruct (TaskService.deleteEach ks w0) as [[[]|e] w1] end; exact H.
  - apply same_but_kv_refl.
Qed.

(* ===================================================================== *)
(** ** The task mutations, step by step *)
(* ===================================================================== *)

Section TaskMutations.

Import TaskService.

Lemma transform_pure b taskId t u w : snd (transform b taskId t u w) = w.
Proof.
  unfold transform. mred.
  destruct (users (db w) !! createdBy t); simpl; [|reflexivity].
  destruct b, (updatedBy t); simpl;
    destruct (assignees t); simpl; try reflexivity;
    destruct (dbUp (db w)); reflexivity.
Qed.

Lemma transform_fields b taskId t u w task w' :
  transform b taskId t u w = (Ok task, w') ->
  t_id task = taskId /\ t_version task = version t /\ t_title task = title t
  /\ t_description task = JS.orStr (description t) "".
Proof.
  unfold transform. mred.
  destruct (users (db w) !! createdBy t); simpl; [|absurd_result].
  destruct b, (updatedBy t); simpl;
    destruct (assignees t); simpl; try (intros [= <- <-]; auto);
    destruct (dbUp (db w)); simpl; intros [= <- <-]; auto.
Qed.

Lemma prepareUpdate_fields t p u :
  d_version (prepareUpdate t p u) = version t + 1
  /\ d_updatedBy (prepareUpdate t p u) = id u
  /\ d_title (prepareUpdate t p u) = p_title p
  /\ d_description (prepareUpdate t p u) = p_description p
  /\ d_assignees (prepareUpdate t p u) = p_assignees p.
Proof.
  unfold prepareUpdate.
  destruct (p_title p), (p_description p), (p_assignees p); simpl; auto.
Qed.

Lemma updated_version now t p u : version (updated now t p u) = version t + 1.
Proof. unfold updated; simpl. apply prepareUpdate_fields. Qed.

Lemma updated_assignees now t p u :
  assignees (updated now t p u) = default (assignees t) (p_assignees p).
Proof.
  unfold updated; simpl.
  destruct (prepareUpdate_fields t p u) as (_ & _ & _ & _ & ->). reflexivity.
Qed.

Lemma updateTask_inv taskId p u ev w task w' :
  updateTask taskId p u ev w = (Ok task, w') ->
  exists t,
    stored w taskId = Some t
    /\ isDeleted t = false
    /\ versionConflict ev t = false
    /\ tasks (db w') = <[taskId := updated (clock w) t p u]> (tasks (db w))
    /\ t_version task = version t + 1
    /\ clock w' = clock w /\ dbUp (db w') = dbUp (db w) /\ users (db w') = users (db w).
Proof.
  unfold updateTask, stored. mred.
  destruct (dbUp (db w)) eqn:Hup; [|absurd_result].
  destruct (tasks (db w) !! taskId) as [t|] eqn:Ht; [|absurd_result].
  simpl.
  destruct (isDeleted t) eqn:Hdel; simpl; [absurd_result|]. rewrite ?Hdel.
  destruct (versionConflict ev t) eqn:Hc; [absurd_result|].
  repeat (progress (rewrite ?Hup, ?Ht, ?Hdel; simpl)).
  destruct (users (db w) !! createdBy t) eqn:Hcr; simpl; [|absurd_result].
  repeat (progress (rewrite ?Hup, ?Ht, ?Hdel; simpl)).
  match goal with |- context [transform ?b ?i ?t ?u ?w0] =>
    pose proof (transform_pure b i t u w0) as Hp;
    pose proof (transform_fields b i t u w0) as Hv;
    destruct (transform b i t u w0) as [[task0|e] w1] end; simpl in *; [|absurd_result].
  subst w1; destruct (Hv _ _ eq_refl) as (_ & Hver & _). clear Hv.
  simpl in *. destruct (io (out w)); simpl.
  all: match goal with |- context [invalidateTaskCache ?w0] =>
         pose proof (invalidate_ok w0) as Hi; pose proof (invalidate_frame w0) as Hf;
         destruct (invalidateTaskCache w0) as [r w2] end.
  all: simpl in *; subst r.
  all: intros [= <- <-]; destruct Hf as (_ & Hck & Hdb & _); exists t.
  all: rewrite ?Hdb, ?Hck, Hver; simpl.
  all: destruct (prepareUpdate_fields t p u) as (-> & _); auto 10.
Qed.

(** The task [updateTask] returns carries the version and the title it
    has written. *)
Lemma updateTask_returns taskId p u ev w task w' :
  updateTask taskId p u ev w = (Ok task, w') ->
  exists t,
    stored w taskId = Some t
    /\ t_version task = version t + 1
    /\ t_title task = title (updated (clock w) t p u).
Proof.
  unfold updateTask, stored. mred.
  destruct (dbUp (db w)) eqn:Hup; [|absurd_result].
  destruct (tasks (db w) !! taskId) as [t|] eqn:Ht; [|absurd_result].
  simpl.
  destruct (isDeleted t) eqn:Hdel; simpl; [absurd_result|]. rewrite ?Hdel.
  destruct (versionConflict ev t) eqn:Hc; [absurd_result|].
  repeat (progress (rewrite ?Hup, ?Ht, ?Hdel; simpl)).
  destruct (users (db w) !! createdBy t) eqn:Hcr; simpl; [|absurd_result].
  repeat (progress (rewrite ?Hup, ?Ht, ?Hdel; simpl)).
  match goal with |- context [transform ?b ?i ?t ?u ?w0] =>
    pose proof (transform_pure b i t u w0) as Hp;
    pose proof (transform_fields b i t u w0) as Hv;
    destruct (transform b i t u w0) as [[task0|e] w1] end; simpl in *; [|absurd_result].
  subst w1; destruct (Hv _ _ eq_refl) as (_ & Hver & Htitle & _). clear Hv.
  simpl in *. destruct (io (out w)); simpl.
  all: match goal with |- context [invalidateTaskCache ?w0] =>
         pose proof (invalidate_ok w0) as Hi;
         destruct (invalidateTaskCache w0) as [r w2] end.
  all: simpl in *; subst r.
  all: intros [= <- <-]; exists t.
  all: rewrite Hver, Htitle; simpl.
  all: destruct (prepareUpdate_fields t p u) as (-> & _); auto.
Qed.

(** What [assignSelfToTask] and [deleteTask] have written when they return. *)
Lemma assignSelf_inv taskId u w w' :
  assignSelfToTask taskId u w = (Ok tt, w') ->
  exists t,
    stored w taskId = Some t
    /\ isDeleted t = false
    /\ clock w' = clock w /\ dbUp (db w') = dbUp (db w) /\ users (db w') = users (db w)
    /\ if bool_decide (id u ∈ assignees t)
       then w' = w
       else tasks (db w') = <[taskId := addAssignee (clock w) (id u) t]> (tasks (db w)).
Proof.
  unfold assignSelfToTask, stored. mred.
  destruct (dbUp (db w)) eqn:Hup; [|absurd_result].
  destruct (tasks (db w) !! taskId) as [t|] eqn:Ht; [|absurd_result].
  simpl.
  destruct (isDeleted t) eqn:Hdel; simpl; [absurd_result|].
  destruct (bool_decide (id u ∈ assignees t)) eqn:Hin.
  - intros [= <-]. exists t. rewrite Hin. auto 10.
  - repeat (progress (rewrite ?Hup, ?Ht, ?Hdel; simpl)).
    destruct (io (out w)); simpl; intros [= <-]; exists t; rewrite Hin; simpl; auto 10.
Qed.

Lemma deleteTask_inv taskId u w token w' :
  deleteTask taskId u w = (Ok token, w') ->
  exists t,
    stored w taskId = Some t
    /\ isDeleted t = false
    /\ tasks (db w') = <[taskId := markDeleted (clock w) t]> (tasks (db w))
    /\ clock w' = clock w /\ dbUp (db w') = dbUp (db w) /\ users (db w') = users (db w).
Proof.
  unfold deleteTask, stored. mred.
  destruct (dbUp (db w)) eqn:Hup; [|absurd_result].
  destruct (tasks (db w) !! taskId) as [t|] eqn:Ht; [|absurd_result].
  simpl.
  destruct (isDeleted t) eqn:Hdel; simpl; [absurd_result|].
  repeat (progress (rewrite ?Hup, ?Ht, ?Hdel; simpl)).
  destruct (io (out w)); simpl.
  all: match goal with |- context [invalidateTaskCache ?w0] =>
         pose proof (invalidate_ok w0) as Hi; pose proof (invalidate_frame w0) as Hf;
         destruct (invalidateTaskCache w0) as [r w2] end.
  all: simpl in *; subst r.
  all: intros [= <- <-]; destruct Hf as (_ & Hck & Hdb & _); exists t.
  all: rewrite ?Hdb, ?Hck; simpl; auto 10.
Qed.

Lemma createTask_inv newId data u w task w' :
  createTask newId data u w = (Ok task, w') ->
  t_version task = 1
  /\ t_description task = JS.orStr (orNull (c_description data)) ""
  /\ stored w' newId
     = Some (newTask (clock w) (c_title data) (orNull (c_description data)) (id u) [] 1).
Proof.
  unfold createTask, stored. mred.
  destruct (dbUp (db w)) eqn:Hup; [|absurd_result].
  simpl. destruct (users (db w) !! id u) eqn:Hcr; simpl; [|absurd_result].
  repeat (progress (rewrite ?Hup; simpl)).
  match goal with |- context [transform ?b ?i ?t ?u ?w0] =>
    pose proof (transform_pure b i t u w0) as Hp;
    pose proof (transform_fields b i t u w0) as Hv;
    destruct (transform b i t u w0) as [[task0|e] w1] end; simpl in *; [|absurd_result].
  subst w1; destruct (Hv _ _ eq_refl) as (_ & Hver & _ & Hdesc). clear Hv.
  simpl in *. destruct (io (out w)); simpl.
  all: match goal with |- context [invalidateTaskCache ?w0] =>
         pose proof (invalidate_ok w0) as Hi; pose proof (invalidate_frame w0) as Hf;
         destruct (invalidateTaskCache w0) as [r w2] end.
  all: simpl in *; subst r.
  all: intros [= <- <-]; destruct Hf as (_ & Hck & Hdb & _).
  all: rewrite ?Hdb; simpl; rewrite lookup_insert_eq; auto.
Qed.

End TaskMutations.

(* ===================================================================== *)
(** ** Optimistic concurrency: the version gate of [updateTask] *)
(* ===================================================================== *)

(** A supplied version that is not zero and differs from the stored one is
    refused, and nothing is written: the task, the audit log, the emitted
    events and the cache are as before. *)
Lemma updateTask_stale_conflict taskId p u ev w t :
  dbUp (db w) = true ->
  stored w taskId = Some t ->
  isDeleted t = false ->
  ev <> 0 -> ev <> version t ->
  TaskService.updateTask taskId p u (Some ev) w = (Throw VersionConflict, w).
Proof.
  unfold stored. intros Hup Ht Hdel H0 Hne.
  unfold TaskService.updateTask. mred. rewrite Hup, Ht. simpl. rewrite Hdel. simpl.
  unfold TaskService.versionConflict, JS.truthyNum.
  destruct (Z.eqb_spec ev 0) as [|_]; [contradiction|].
  destruct (Z.eqb_spec (version t) ev) as [E|_]; [congruence|].
  simpl. rewrite Hdel. reflexivity.
Qed.

(** C1 (the code departs from the claim).  Bob updates task A, whose stored
    version is 1, and supplies the expected version 0: the call returns the
    updated task instead of failing, the title and the version are
    overwritten, an audit entry is appended and an event is published. *)
Theorem update_with_expected_version_zero_applies :
  let w := Sample.board in
  let r := TaskService.updateTask Sample.taskA (Sample.titleOnly "B") Sample.bob (Some 0) w in
  (version <$> stored w Sample.taskA = Some 1
   /\ isDeleted <$> stored w Sample.taskA = Some false)
  /\ t_version <$> returned (fst r) = Some 2
  /\ title <$> stored (snd r) Sample.taskA = Some "B"
  /\ version <$> stored (snd r) Sample.taskA = Some 2
  /\ List.length (taskAudits (db (snd r))) = S (List.length (taskAudits (db w)))
  /\ List.length (emitted (out (snd r))) = S (List.length (emitted (out w))).
Proof. vm_compute. repeat split; reflexivity. Qed.

(* ===================================================================== *)
(** ** Partial updates *)
(* ===================================================================== *)

(** C7.  After a successful update, every field the patch omits is as it
    was in the stored task, each field on its own; the fields the patch
    supplies hold the supplied values; the creator, the creation time and
    the deletion flag are never touched. *)
Theorem update_leaves_omitted_fields taskId p u ev w task w' t :
  stored w taskId = Some t ->
  TaskService.updateTask taskId p u ev w = (Ok task, w') ->
  exists t',
    stored w' taskId = Some t'
    /\ (p_title p = None -> title t' = title t)
    /\ (p_description p = None -> description t' = description t)
    /\ (p_assignees p = None -> assignees t' = assignees t)
    /\ (forall x, p_title p = Some x -> title t' = x)
    /\ (forall x, p_description p = Some x -> description t' = Some x)
    /\ (forall x, p_assignees p = Some x -> assignees t' = x)
    /\ createdBy t' = createdBy t /\ createdAt t' = createdAt t
    /\ isDeleted t' = isDeleted t.
Proof.
  intros Ht Hu. apply updateTask_inv in Hu as (t0 & Ht0 & _ & _ & Htasks & _).
  rewrite Ht in Ht0. injection Ht0 as <-.
  exists (updated (clock w) t p u). unfold stored. rewrite Htasks, lookup_insert_eq.
  unfold updated; simpl.
  destruct (prepareUpdate_fields t p u) as (_ & _ & -> & -> & ->).
  repeat split; try reflexivity; intros; subst;
    repeat match goal with H : _ = None |- _ => rewrite H end;
    repeat match goal with H : _ = Some _ |- _ => rewrite H end; reflexivity.
Qed.

Lemma update_leaves_omitted_fields_witness :
  exists task w' t',
    TaskService.updateTask Sample.taskA (Sample.assigneesOnly [Sample.bobId])
      Sample.bob (Some 1) Sample.board = (Ok task, w')
    /\ stored w' Sample.taskA = Some t'
    /\ title t' = "A" /\ description t' = Some "d" /\ assignees t' = [Sample.bobId].
Proof.
  destruct (TaskService.updateTask Sample.taskA (Sample.assigneesOnly [Sample.bobId])
              Sample.bob (Some 1) Sample.board) as [[task|e] w'] eqn:E;
    [|vm_compute in E; discriminate E].
  assert (Ht : stored Sample.board Sample.taskA
               = Some (TaskService.newTask 1000 "A" (Some "d") Sample.annId [] 1))
    by (vm_compute; reflexivity).
  destruct (update_leaves_omitted_fields _ _ _ _ _ _ _ _ Ht E)
    as (t' & Hs & Htitle & Hdesc & _ & _ & _ & Hasg & _).
  exists task, w', t'. split; [reflexivity|]. split; [exact Hs|].
  split; [apply Htitle; reflexivity|]. split; [apply Hdesc; reflexivity|].
  apply Hasg; reflexivity.
Defined.

(* ===================================================================== *)
(** ** Two updates of one task at the same time *)
(* ===================================================================== *)

(** [updateTask] is its two parts, one after the other. *)
Lemma updateTask_in_two_parts taskId p u ev w :
  TaskService.updateTask taskId p u ev w
  = bind (TaskService.updateTask_read taskId p u ev)
         (TaskService.updateTask_write taskId p u) w.
Proof.
  cbv beta delta [TaskService.updateTask TaskService.updateTask_read
                    TaskService.updateTask_write bind].
  destruct (Prisma.task_findFirst taskId true w) as [[[t|]|e] w1]; try reflexivity.
  destruct (isDeleted t); [reflexivity|].
  destruct (TaskService.versionConflict ev t); reflexivity.
Qed.

(** C5 (the code departs from the claim).  Task A is stored at version 1.
    Ann and Bob each send an update of it, and both calls read the task
    before either writes: [updateTask] awaits between its read and its
    write, and the write does not name the version it read.  Both calls
    pass the version check, with no expected version as well as when both
    supply the expected version 1; both return a task at version 2; both
    changes and two audit entries are written; and the stored version is
    2 after two successful updates, not 3.  Run one after the other, the
    same two updates leave version 3, and the second one is refused when
    it supplies the version 1 it read before the first. *)
Theorem interleaved_updates_count_once :
  let pa := Sample.titleOnly "B" in
  let pb := Sample.assigneesOnly [Sample.bobId] in
  let interleaved ev :=
    let r1 := TaskService.updateTask_read Sample.taskA pa Sample.ann ev Sample.board in
    let r2 := TaskService.updateTask_read Sample.taskA pb Sample.bob ev (snd r1) in
    match fst r1, fst r2 with
    | Ok dataAnn, Ok dataBob =>
        let r3 := TaskService.updateTask_write Sample.taskA pa Sample.ann dataAnn (snd r2) in
        let r4 := TaskService.updateTask_write Sample.taskA pb Sample.bob dataBob (snd r3) in
        Some (t_version <$> returned (fst r3), t_version <$> returned (fst r4),
              version <$> stored (snd r4) Sample.taskA,
              title <$> stored (snd r4) Sample.taskA,
              assignees <$> stored (snd r4) Sample.taskA,
              List.map a_action (taskAudits (db (snd r4))))
    | _, _ => None
    end in
  let serial ev :=
    let r1 := TaskService.updateTask Sample.taskA pa Sample.ann ev Sample.board in
    let r2 := TaskService.updateTask Sample.taskA pb Sample.bob ev (snd r1) in
    (t_version <$> returned (fst r1), fst r2, version <$> stored (snd r2) Sample.taskA) in
  let lost := Some (Some 2, Some 2, Some 2, Some "B", Some [Sample.bobId],
                    [ACreate; AUpdate; AUpdate]) in
  version <$> stored Sample.board Sample.taskA = Some 1
  /\ interleaved None = lost
  /\ interleaved (Some 1) = lost
  /\ (exists task, serial None = (Some 2, Ok task, Some 3) /\ t_version task = 3)
  /\ serial (Some 1) = (Some 2, Throw VersionConflict, Some 2).
Proof.
  vm_compute. repeat split; try reflexivity. eexists. split; reflexivity.
Qed.

(* ===================================================================== *)
(** ** CSRF tokens: storing and validating *)
(* ===================================================================== *)

(** With the Redis backend, a submitted token is valid exactly when it is
    the token stored for the session. *)
Lemma csrf_roundtrip_redis token sessionToken submitted w :
  AuthUtils.getStorage (env w) = AuthUtils.UseRedis ->
  redisUp (kv w) = true ->
  fst (AuthUtils.validateCSRFToken submitted sessionToken
         (snd (AuthUtils.storeCSRFToken token sessionToken w)))
  = Ok (bool_decide (submitted = token)).
Proof.
  intros Hs Hup.
  unfold AuthUtils.storeCSRFToken, AuthUtils.setWithExpiration, Redis.setEx,
    Redis.put, Redis.connected. mred. rewrite Hs, Hup. simpl.
  unfold AuthUtils.validateCSRFToken, Redis.get, Redis.connected. mred. simpl.
  rewrite Hup. simpl. unfold Redis.lookup. simpl. rewrite lookup_insert_eq.
  unfold Redis.live. simpl.
  destruct (Z.ltb_spec (clock w + 3600 * 1000) (clock w)) as [Hlt|_]; [lia|].
  simpl. f_equal.
  destruct (String.eqb_spec token submitted) as [->|Hne].
  - rewrite bool_decide_eq_true_2; reflexivity.
  - rewrite bool_decide_eq_false_2; [reflexivity|congruence].
Qed.

(** With the in-process fallback the token is stored in [inMemoryStorage],
    where [validateCSRFToken] never looks: it asks the Redis client, and
    the stored token is refused whenever the client is not connected. *)
Lemma csrf_fallback_refuses token sessionToken submitted w :
  AuthUtils.getStorage (env w) = AuthUtils.UseMemory ->
  redisUp (kv w) = false ->
  let w' := snd (AuthUtils.storeCSRFToken token sessionToken w) in
  data <$> inMemoryStorage (kv w') !! ("csrf:" +:+ sessionToken) = Some (Text token)
  /\ fst (AuthUtils.validateCSRFToken submitted sessionToken w') = Ok false.
Proof.
  intros Hs Hup.
  unfold AuthUtils.storeCSRFToken, AuthUtils.setWithExpiration, AuthUtils.memSet. mred.
  rewrite Hs. simpl. rewrite lookup_insert_eq. split; [reflexivity|].
  unfold AuthUtils.validateCSRFToken, Redis.get, Redis.connected. mred. simpl.
  rewrite Hup. reflexivity.
Qed.

(** C4 (the code departs from the claim).  The server runs on the
    in-process fallback ([REDIS_DISABLED=true], no Redis connection); Ann's
    CSRF token is stored for her session, and submitting that very token
    is refused.  On the Redis backend the same two calls accept it. *)
Theorem csrf_validation_differs_between_backends :
  let fallback := Sample.loggedIn Sample.env_memory false in
  let durable := Sample.loggedIn Sample.env_redis true in
  AuthUtils.getStorage (env fallback) = AuthUtils.UseMemory
  /\ data <$> inMemoryStorage (kv fallback) !! "csrf:sess-ann" = Some (Text "csrf-ann")
  /\ fst (AuthUtils.validateCSRFToken "csrf-ann" "sess-ann" fallback) = Ok false
  /\ AuthUtils.getStorage (env durable) = AuthUtils.UseRedis
  /\ fst (AuthUtils.validateCSRFToken "csrf-ann" "sess-ann" durable) = Ok true.
Proof. vm_compute. repeat split; reflexivity. Qed.

(* ===================================================================== *)
(** ** The CSRF guard and the routers *)
(* ===================================================================== *)

(** The guard lets every [GET] through untouched. *)
Lemma csrfProtection_get_exempt req w :
  method req = GET -> Middleware.csrfProtection req w = (Ok (Next req), w).
Proof.
  intros Hm. unfold Middleware.csrfProtection. mred. rewrite Hm. reflexivity.
Qed.

(** It answers 403 to any other request without an [X-CSRF-Token]. *)
Lemma csrfProtection_requires_token req w :
  method req <> GET -> xCsrfToken req = None ->
  exists res, Middleware.csrfProtection req w = (Ok (Done res), w) /\ status res = 403.
Proof.
  intros Hm Hc. unfold Middleware.csrfProtection. mred. rewrite Hc.
  destruct (method req); try contradiction; eexists; split; reflexivity.
Qed.

(** C3 (the code departs from the claim).  Ann is logged in and task A is
    on the board.  Each of the seven mutating requests below carries her
    session cookie and no CSRF token: [csrfProtection] would refuse it with
    403, yet the application, whose routers never mount that middleware,
    answers 2xx; the create request leaves the new task in the store. *)
Theorem mutations_applied_without_csrf_token :
  forallb (fun req => refuses403 (Middleware.csrfProtection req Sample.office))
          Sample.mutatingRequests = true
  /\ forallb (fun req => answers2xx (Routes.tasksApp Sample.taskB "req-1" req Sample.office))
             Sample.mutatingRequests = true
  /\ stored Sample.office Sample.taskB = None
  /\ title <$> stored (snd (Routes.tasksApp Sample.taskB "req-1"
                              (Sample.request POST Root "/"
                                 (Sample.taskBody (VString "T") (VString "x")))
                              Sample.office)) Sample.taskB = Some "T".
Proof. vm_compute. repeat split; reflexivity. Qed.

(* ===================================================================== *)
(** ** Creating a task without a description *)
(* ===================================================================== *)

(** The schema accepts no body whose description is absent or empty. *)
Lemma taskSchema_requires_description b :
  b_description b = VUndefined \/ b_description b = VString "" ->
  exists field, Schemas.taskSchema b = inl (ZodError field).
Proof.
  intros Hd. unfold Schemas.taskSchema.
  destruct (Schemas.boundedString "title" _ (b_title b)) as [e|t] eqn:Ht.
  - unfold Schemas.boundedString in Ht. destruct (b_title b); try (injection Ht as <-; eauto).
    destruct (_ && _); [discriminate|]. injection Ht as <-; eauto.
  - destruct Hd as [-> | ->]; simpl; eauto.
Qed.

(** The service itself stores no description and returns the empty one when
    it is given none. *)
Lemma createTask_without_description newId ttl d u w task w' :
  d = None \/ d = Some "" ->
  TaskService.createTask newId {| TaskService.c_title := ttl; TaskService.c_description := d |}
    u w = (Ok task, w') ->
  t_description task = "" /\ description <$> stored w' newId = Some None.
Proof.
  intros Hd Hc. apply createTask_inv in Hc as (_ & Hdesc & Hs).
  rewrite Hs, Hdesc. destruct Hd as [-> | ->]; simpl; auto.
Qed.

(** C8 (the code departs from the claim).  Ann posts a task with the valid
    title "Test Task" and no description, then with an empty description:
    [taskSchema] rejects both at the [description] field, the route answers
    400 and nothing is stored. *)
Theorem create_without_description_rejected :
  let absent := Sample.taskBody (VString "Test Task") VUndefined in
  let empty := Sample.taskBody (VString "Test Task") (VString "") in
  let post b := Routes.tasksApp Sample.taskB "req-1" (Sample.request POST Root "/" b)
                  Sample.office in
  Schemas.taskSchema absent = inl (ZodError "description")
  /\ Schemas.taskSchema empty = inl (ZodError "description")
  /\ status <$> returned (fst (post absent)) = Some 400
  /\ status <$> returned (fst (post empty)) = Some 400
  /\ stored (snd (post absent)) Sample.taskB = None
  /\ stored (snd (post empty)) Sample.taskB = None.
Proof. vm_compute. repeat split; reflexivity. Qed.

(* ===================================================================== *)
(** ** The query cache and the mutations *)
(* ===================================================================== *)

Section QueryCache.

Import TaskService.

(** The star operations, self-assignment and duplication never touch the
    key-value store: whatever pages are cached stay cached. *)
Lemma addStar_keeps_kv taskId u w :
  kv (snd (StarService.addStar taskId u w)) = kv w
  /\ clock (snd (StarService.addStar taskId u w)) = clock w
  /\ env (snd (StarService.addStar taskId u w)) = env w.
Proof.
  unfold StarService.addStar. mred.
  destruct (dbUp (db w)) eqn:Hup; [|auto].
  destruct (tasks (db w) !! taskId) as [t|]; simpl; [|auto].
  destruct (isDeleted t); simpl; [auto|].
  rewrite ?Hup; simpl.
  destruct (bool_decide _); simpl; [auto|].
  rewrite ?Hup; simpl.
  destruct (io (out w)); simpl; auto.
Qed.

Lemma removeStar_keeps_kv taskId u w :
  kv (snd (StarService.removeStar taskId u w)) = kv w
  /\ clock (snd (StarService.removeStar taskId u w)) = clock w
  /\ env (snd (StarService.removeStar taskId u w)) = env w.
Proof.
  unfold StarService.removeStar. mred.
  destruct (dbUp (db w)) eqn:Hup; [|auto]. simpl.
  destruct (bool_decide _); simpl; [|auto].
  destruct (io (out w)); simpl; auto.
Qed.

Lemma assignSelf_keeps_kv taskId u w :
  kv (snd (assignSelfToTask taskId u w)) = kv w
  /\ clock (snd (assignSelfToTask taskId u w)) = clock w
  /\ env (snd (assignSelfToTask taskId u w)) = env w.
Proof.
  unfold assignSelfToTask. mred.
  destruct (dbUp (db w)) eqn:Hup; [|auto].
  destruct (tasks (db w) !! taskId) as [t|] eqn:Ht; simpl; [|auto].
  destruct (isDeleted t) eqn:Hdel; simpl; [auto|].
  destruct (bool_decide _); simpl; [auto|].
  repeat (progress (rewrite ?Hup, ?Ht, ?Hdel; simpl)).
  destruct (io (out w)); simpl; auto.
Qed.

Lemma duplicate_keeps_kv newId taskId u w :
  kv (snd (duplicateTask newId taskId u w)) = kv w
  /\ clock (snd (duplicateTask newId taskId u w)) = clock w
  /\ env (snd (duplicateTask newId taskId u w)) = env w.
Proof.
  unfold duplicateTask. mred.
  destruct (dbUp (db w)) eqn:Hup; [|auto].
  destruct (tasks (db w) !! taskId) as [t|] eqn:Ht; simpl; [|auto].
  destruct (isDeleted t) eqn:Hdel; simpl; [auto|].
  repeat (progress (rewrite ?Hup, ?Ht, ?Hdel; simpl)).
  destruct (users (db w) !! id u); simpl; [|auto].
  repeat (progress (rewrite ?Hup, ?Ht, ?Hdel; simpl)).
  match goal with |- context [transform ?b ?i ?t ?u ?w0] =>
    pose proof (transform_pure b i t u w0) as Hp;
    destruct (transform b i t u w0) as [[task0|e] w1] end; simpl in *; subst w1; simpl; [|auto].
  destruct (io (out w)); simpl; auto.
Qed.

(** Reading the cache depends on the key-value store and the clock only. *)
Lemma readCache_ext key w1 w2 :
  kv w1 = kv w2 -> clock w1 = clock w2 ->
  fst (readCache key w1) = fst (readCache key w2).
Proof.
  intros Hk Hc. unfold readCache, Redis.get, Redis.connected, Redis.lookup. mred.
  rewrite Hk. destruct (redisUp (kv w2)); simpl; [|reflexivity]. rewrite Hk, Hc.
  destruct (redisDb (kv w2) !! key) as [e|]; simpl; [|reflexivity].
  destruct (Redis.live (clock w2) e); simpl; [|reflexivity].
  destruct (rval e) as [[|]|[]]; reflexivity.
Qed.

Lemma getTasks_hit f u w r :
  fst (readCache (generateCacheKey f u) w) = Ok (Some r) ->
  fst (getTasks f u w) = Ok r.
Proof.
  unfold getTasks. unfold bind at 1. intros H.
  destruct (readCache (generateCacheKey f u) w) as [[[r'|]|e] w1]; simpl in *; try discriminate.
  congruence.
Qed.

(** [invalidateTaskCache], which create, update and delete call, removes
    every cached page when Redis is connected. *)
Lemma deleteEach_connected keys :
  forall w, redisUp (kv w) = true ->
    exists m',
      deleteEach keys w = (Ok tt, with_kv (set_redisDb m') w)
      /\ forall k, m' !! k = if bool_decide (k ∈ keys) then None else redisDb (kv w) !! k.
Proof.
  induction keys as [|key keys IH]; intros w Hup; cbn [deleteEach].
  - exists (redisDb (kv w)). split.
    + unfold ret. f_equal. destruct w as [e c [u r m s] d o]; reflexivity.
    + intros k. rewrite bool_decide_eq_false_2; [reflexivity|]. apply not_elem_of_nil.
  - unfold Redis.del, Redis.connected. mred. rewrite Hup. simpl.
    destruct (IH (with_kv (set_redisDb (delete key (redisDb (kv w)))) w) Hup)
      as (m' & Hrun & Hm').
    rewrite Hrun. exists m'. split; [reflexivity|].
    intros k. rewrite Hm'. cbn [kv with_kv set_redisDb redisDb].
    destruct (decide (k = key)) as [->|Hne].
    + rewrite lookup_delete_eq.
      rewrite (bool_decide_eq_true_2 (key ∈ key :: keys)) by left.
      destruct (bool_decide _); reflexivity.
    + rewrite lookup_delete_ne by congruence.
      destruct (bool_decide (k ∈ keys)) eqn:E.
      * apply bool_decide_eq_true_1 in E.
        rewrite bool_decide_eq_true_2 by (right; exact E). reflexivity.
      * apply bool_decide_eq_false_1 in E.
        rewrite bool_decide_eq_false_2; [reflexivity|].
        intros [?|?]%elem_of_cons; contradiction.
Qed.

Lemma invalidate_clears w k :
  redisUp (kv w) = true ->
  JS.startsWith SEARCH_CACHE_PREFIX k = true ->
  Redis.lookup (snd (invalidateTaskCache w)) k = None.
Proof.
  intros Hup Hk.
  unfold invalidateTaskCache, Redis.keys, Redis.connected. mred. rewrite Hup.
  cbv beta iota zeta.
  set (keys := List.filter _ _).
  assert (Hkeys : k ∉ keys -> Redis.lookup w k = None).
  { intros Hnot. destruct (Redis.lookup w k) as [e|] eqn:Hl; [|reflexivity].
    exfalso. apply Hnot. unfold keys. apply list_elem_of_In, filter_In. split.
    - apply list_elem_of_In. unfold Redis.lookup in Hl.
      destruct (redisDb (kv w) !! k) as [e'|] eqn:Hm; [|discriminate].
      apply list_elem_of_fmap. exists (k, e'). split; [reflexivity|].
      apply elem_of_map_to_list. exact Hm.
    - rewrite Hk. simpl. apply bool_decide_eq_true_2. rewrite Hl. eauto. }
  destruct (0 <? Z.of_nat (List.length keys)) eqn:Hlen.
  - destruct (deleteEach_connected keys w Hup) as (m' & Hrun & Hm'). rewrite Hrun. simpl.
    unfold Redis.lookup. simpl. rewrite Hm'.
    destruct (bool_decide (k ∈ keys)) eqn:E; [reflexivity|].
    apply bool_decide_eq_false_1 in E. apply Hkeys in E.
    unfold Redis.lookup in E. exact E.
  - simpl. apply Hkeys. destruct keys; [apply not_elem_of_nil|].
    simpl in Hlen. apply Z.ltb_ge in Hlen. lia.
Qed.

Lemma cacheKey_prefix f u :
  JS.startsWith SEARCH_CACHE_PREFIX (generateCacheKey f u) = true.
Proof. reflexivity. Qed.

(** After an invalidation the next list query recomputes its page. *)
Lemma readCache_after_invalidate f u w :
  redisUp (kv w) = true ->
  fst (readCache (generateCacheKey f u) (snd (invalidateTaskCache w))) = Ok None.
Proof.
  intros Hup.
  pose proof (invalidate_clears w (generateCacheKey f u) Hup (cacheKey_prefix f u)) as Hl.
  unfold readCache, Redis.get, Redis.connected. mred.
  destruct (redisUp (kv (snd (invalidateTaskCache w)))); simpl; [|reflexivity].
  rewrite Hl. reflexivity.
Qed.

End QueryCache.

(** C2 (the code departs from the claim).  A page of the board is cached by
    a first list query; then a star is added, a star is removed, the task
    is duplicated, Bob assigns himself.  None of these four mutations
    invalidates the cache, and the repeated list query returns the page
    cached before the mutation: the starred flag, the total and Bob's own
    list are those of the old state, while the store holds the new one. *)
Theorem list_stale_after_star_assign_duplicate :
  let all := Sample.firstPage TaskService.All in
  let mine := Sample.firstPage TaskService.Mine in
  let starFlags p := List.map t_isStarred <$> (items <$> p) in
  let read w := t_isStarred <$> returned (fst (TaskService.getTask Sample.taskA Sample.ann w)) in
  (* star add *)
  let warm := snd (TaskService.getTasks all Sample.ann Sample.board) in
  let starred := snd (StarService.addStar Sample.taskA Sample.ann warm) in
  (read starred = Some true
   /\ starFlags (listed all Sample.ann starred) = Some [false])
  (* star remove *)
  /\ (let warm' := snd (TaskService.getTasks all Sample.ann
                         (snd (StarService.addStar Sample.taskA Sample.ann Sample.board))) in
      let unstarred := snd (StarService.removeStar Sample.taskA Sample.ann warm') in
      read unstarred = Some false
      /\ starFlags (listed all Sample.ann unstarred) = Some [true])
  (* duplicate *)
  /\ (let copied := snd (TaskService.duplicateTask Sample.taskB Sample.taskA Sample.ann warm) in
      isDeleted <$> stored copied Sample.taskB = Some false
      /\ r_total <$> listed all Sample.ann copied = Some 1)
  (* assign-self *)
  /\ (let warmBob := snd (TaskService.getTasks mine Sample.bob Sample.board) in
      let assigned := snd (TaskService.assignSelfToTask Sample.taskA Sample.bob warmBob) in
      assignees <$> stored assigned Sample.taskA = Some [Sample.bobId]
      /\ r_total <$> listed mine Sample.bob assigned = Some 0).
Proof. vm_compute. repeat split; reflexivity. Qed.

(* ===================================================================== *)
(** ** Which exceptions a computation can raise *)
(* ===================================================================== *)

Lemma raises_ret {A} P (a : A) : raises P (ret a).
Proof. intros w e w' [=]. Qed.

Lemma raises_gets {A} P (f : World -> A) : raises P (gets f).
Proof. intros w e w' [=]. Qed.

Lemma raises_modify P f : raises P (modify f).
Proof. intros w e w' [=]. Qed.

Lemma raises_throw {A} (P : Err -> Prop) e : P e -> raises P (@throw A e).
Proof. intros H w e' w' [= <- _]. exact H. Qed.

Lemma raises_bind {A B} P (m : M A) (k : A -> M B) :
  raises P m -> (forall a, raises P (k a)) -> raises P (bind m k).
Proof.
  intros Hm Hk w e w'. unfold bind.
  destruct (m w) as [[a|e0] w0] eqn:E.
  - apply Hk.
  - intros [= <- <-]. eapply Hm, E.
Qed.

Lemma raises_tryCatch {A} P (m : M A) (h : Err -> M A) :
  (forall e, raises P (h e)) -> raises P (tryCatch m h).
Proof.
  intros Hh w e w'. unfold tryCatch.
  destruct (m w) as [[a|e0] w0]; [intros [=] | apply Hh].
Qed.

Lemma raises_connected (P : Err -> Prop) : P RedisError -> raises P Redis.connected.
Proof.
  intros HP w e w'. unfold Redis.connected.
  destruct (redisUp (kv w)); intros [= <- _]; exact HP.
Qed.

Lemma raises_prisma (P : Err -> Prop) : P PrismaError -> raises P Prisma.connected.
Proof.
  intros HP w e w'. unfold Prisma.connected.
  destruct (dbUp (db w)); intros [= <- _]; exact HP.
Qed.

Ltac raises_step :=
  first
    [ apply raises_ret | apply raises_gets | apply raises_modify
    | apply raises_throw; solve [auto; discriminate]
    | apply raises_connected; solve [auto; discriminate]
    | apply raises_prisma; solve [auto; discriminate]
    | apply raises_tryCatch; intros ?
    | apply raises_bind; [|intros ?]
    | match goal with
      | |- raises _ (if ?c then _ else _) => destruct c
      | |- raises _ (match ?x with _ => _ end) => destruct x
      | |- raises _ (let '(_, _) := ?x in _) => destruct x
      end ].

(* ===================================================================== *)
(** ** What the rate limiter depends on *)
(* ===================================================================== *)

Lemma blind_ret {A} (a : A) : blind (ret a).
Proof. intros w1 w2 H. split; [reflexivity | exact H]. Qed.

Lemma blind_throw {A} e : blind (@throw A e).
Proof. intros w1 w2 H. split; [reflexivity | exact H]. Qed.

Lemma blind_bind {A B} (m : M A) (k : A -> M B) :
  blind m -> (forall a, blind (k a)) -> blind (bind m k).
Proof.
  intros Hm Hk w1 w2 H. unfold bind.
  destruct (Hm w1 w2 H) as (Hr & Hw).
  destruct (m w1) as [[a1|e1] w1'], (m w2) as [[a2|e2] w2']; simpl in *; try discriminate.
  - injection Hr as ->. apply Hk, Hw.
  - injection Hr as ->. split; [reflexivity | exact Hw].
Qed.

Lemma blind_tryCatch {A} (m : M A) (h : Err -> M A) :
  blind m -> (forall e, blind (h e)) -> blind (tryCatch m h).
Proof.
  intros Hm Hh w1 w2 H. unfold tryCatch.
  destruct (Hm w1 w2 H) as (Hr & Hw).
  destruct (m w1) as [[a1|e1] w1'], (m w2) as [[a2|e2] w2']; simpl in *; try discriminate.
  - injection Hr as ->. split; [reflexivity | exact Hw].
  - injection Hr as ->. apply Hh, Hw.
Qed.

Lemma blind_gets {A} (f : World -> A) :
  (forall w1 w2, same_but_accounts w1 w2 -> f w1 = f w2) -> blind (gets f).
Proof. intros Hf w1 w2 H. split; [simpl; f_equal; apply Hf, H | exact H]. Qed.

Lemma blind_modify (f : World -> World) :
  (forall w1 w2, same_but_accounts w1 w2 -> same_but_accounts (f w1) (f w2)) ->
  blind (modify f).
Proof. intros Hf w1 w2 H. split; [reflexivity | apply Hf, H]. Qed.

Lemma blind_with_kv (g : World -> Kv -> Kv) :
  (forall w1 w2, same_but_accounts w1 w2 -> g w1 (kv w1) = g w2 (kv w2)) ->
  blind (modify (fun w => with_kv (g w) w)).
Proof.
  intros Hg. apply blind_modify. intros w1 w2 H. pose proof (Hg _ _ H) as E.
  destruct H as (He & Hc & Hk). repeat split; simpl; congruence.
Qed.

Ltac blind_step :=
  first
    [ apply blind_ret | apply blind_throw
    | apply blind_bind; [|intros ?]
    | apply blind_tryCatch; [|intros ?]
    | apply blind_gets; intros ? ? (?He & ?Hc & ?Hk); congruence
    | apply blind_with_kv; intros ? ? (?He & ?Hc & ?Hk); congruence
    | match goal with
      | |- blind (if ?c then _ else _) => destruct c
      | |- blind (match ?x with _ => _ end) => destruct x
      end ].

Lemma blind_connected : blind Redis.connected.
Proof.
  intros w1 w2 (He & Hc & Hk). unfold Redis.connected. rewrite Hk.
  destruct (redisUp (kv w1)); simpl; repeat split; congruence.
Qed.

Lemma blind_lookup k : blind (gets (fun w => Redis.lookup w k)).
Proof.
  apply blind_gets. intros w1 w2 (He & Hc & Hk). unfold Redis.lookup.
  rewrite Hc, Hk. reflexivity.
Qed.

Lemma blind_put k e : blind (Redis.put k e).
Proof. unfold Redis.put. repeat blind_step. Qed.

Lemma blind_incr k : blind (Redis.incr k).
Proof.
  unfold Redis.incr.
  apply blind_bind; [apply blind_connected|intros _].
  apply blind_bind; [apply blind_lookup|intros cur].
  repeat (first [apply blind_put | blind_step]).
Qed.

Lemma blind_expire k s : blind (Redis.expire k s).
Proof.
  unfold Redis.expire, Date_now.
  apply blind_bind; [apply blind_connected|intros _].
  apply blind_bind; [apply blind_lookup|intros cur].
  repeat (first [apply blind_put | blind_step]).
Qed.

Lemma blind_checkRateLimit key limit windowMs :
  blind (AuthUtils.checkRateLimit key limit windowMs).
Proof.
  unfold AuthUtils.checkRateLimit, AuthUtils.setStats, AuthUtils.memGet, AuthUtils.memSet,
    Date_now.
  repeat (first [apply blind_incr | apply blind_expire | blind_step]).
Qed.

Lemma blind_authRateLimit limit windowMs req :
  blind (Middleware.authRateLimit limit windowMs req).
Proof.
  unfold Middleware.authRateLimit, Middleware.rateLimit.
  repeat (first [apply blind_checkRateLimit | blind_step]).
Qed.

(* ===================================================================== *)
(** ** Forgot password: the answer does not depend on the accounts *)
(* ===================================================================== *)

Lemma raises_sendEmail (P : Err -> Prop) m : P MailError -> raises P (AuthService.sendEmail m).
Proof.
  intros HP w e w'. unfold AuthService.sendEmail.
  destruct (mailUp (out w)); intros [= <- _]; exact HP.
Qed.

Lemma forgotPassword_raises tok email : raises notZod (AuthService.forgotPassword tok email).
Proof.
  unfold AuthService.forgotPassword, Prisma.user_findUnique,
    AuthUtils.storePasswordResetToken, AuthUtils.setWithExpiration, Redis.setEx,
    Redis.put, AuthUtils.memSet, Date_now.
  repeat (first [ apply raises_sendEmail; intros f; discriminate
                | apply raises_connected; intros f; discriminate
                | apply raises_prisma; intros f; discriminate
                | apply raises_throw; intros f; discriminate
                | raises_step ]).
Qed.

Section Forgot.
Variable isEmail : string -> bool.

Lemma forgotRoute_answer tok req w :
  fst (Routes.forgotRoute isEmail tok req w) = Ok (forgotAnswer isEmail req).
Proof.
  unfold Routes.forgotRoute, forgotAnswer, tryCatch. unfold bind at 1.
  destruct (Schemas.forgotPasswordSchema isEmail (body req)) as [e|email] eqn:Hs; simpl.
  - unfold Schemas.forgotPasswordSchema in Hs.
    destruct (b_email (body req)); try (injection Hs as <-; reflexivity).
    destruct (_ && _); [discriminate|]. injection Hs as <-. reflexivity.
  - unfold ret. unfold bind.
    destruct (AuthService.forgotPassword tok email w) as [[[]|e] w1] eqn:Hf; [reflexivity|].
    pose proof (forgotPassword_raises tok email w e w1 Hf) as Hnz.
    destruct e; try reflexivity. exfalso. eapply Hnz. reflexivity.
Qed.

(** C9.  Two forgot-password requests that are the same request, sent to
    servers that differ only in their accounts (and so in whether the
    submitted e-mail belongs to one), get the same answer: the same status
    code and the same body. *)
Theorem forgot_response_hides_accounts fresh resetToken req w1 w2 :
  same_but_accounts w1 w2 ->
  fst (Routes.authRouter isEmail fresh resetToken req w1)
  = fst (Routes.authRouter isEmail fresh resetToken req w2).
Proof.
  intros Hsame. unfold Routes.authRouter. simpl.
  destruct (method req); try reflexivity.
  destruct (target req); try reflexivity.
  unfold Routes.answered, Middleware.andThen. unfold bind.
  destruct (blind_authRateLimit None None
              (set_xRequestId (JS.orStr (xRequestId req) fresh) req) w1 w2 Hsame) as (Hr & _).
  destruct (Middleware.authRateLimit _ _ _ w1) as [[[r1|res1]|e1] w1'],
           (Middleware.authRateLimit _ _ _ w2) as [[[r2|res2]|e2] w2'];
    simpl in Hr; try discriminate; injection Hr as ->; try reflexivity.
  pose proof (forgotRoute_answer resetToken r2 w1') as H1.
  pose proof (forgotRoute_answer resetToken r2 w2') as H2.
  destruct (Routes.forgotRoute isEmail resetToken r2 w1') as [[a1|x1] v1],
           (Routes.forgotRoute isEmail resetToken r2 w2') as [[a2|x2] v2];
    simpl in *; congruence.
Qed.
End Forgot.

Lemma forgot_response_hides_accounts_witness :
  let req := Sample.request POST Forgot "/forgot" (Sample.emailBody "ann@example.com") in
  let known := Sample.start Sample.env_redis true in
  let unknown := Sample.withoutAccounts known in
  let send w := Routes.authRouter Sample.looksLikeEmail "req-1" "reset-1" req w in
  same_but_accounts known unknown
  /\ fst (send known) = fst (send unknown)
  /\ List.length (outbox (out (snd (send known)))) = 1%nat
  /\ List.length (outbox (out (snd (send unknown)))) = 0%nat.
Proof.
  intros req known unknown send.
  assert (Hsame : same_but_accounts known unknown) by (repeat split).
  split; [exact Hsame|].
  split; [exact (forgot_response_hides_accounts Sample.looksLikeEmail "req-1" "reset-1" req
                   known unknown Hsame)|].
  split; vm_compute; reflexivity.
Defined.

(* ===================================================================== *)
(** ** The [If-Match] precondition of [PATCH /tasks/:id] *)
(* ===================================================================== *)

Section IfMatch.

Import TaskService.

Lemma spanDigits_app ds rest :
  allDigits ds = true ->
  JS.spanDigits (ds +:+ String "-"%char rest) = (ds, String "-"%char rest).
Proof.
  induction ds as [|c ds IH]; simpl; intros H.
  - reflexivity.
  - unfold allDigits in *. simpl in H. apply andb_prop in H as (Hc & Hds).
    rewrite Hc, (IH Hds). reflexivity.
Qed.

Lemma spanDigits_spec s :
  forall a b, JS.spanDigits s = (a, b) -> s = a +:+ b /\ allDigits a = true.
Proof.
  induction s as [|c s IH]; simpl; intros a b.
  - intros [= <- <-]. split; reflexivity.
  - destruct (JS.is_digit c) eqn:Hc.
    + destruct (JS.spanDigits s) as [d r]. intros [= <- <-].
      destruct (IH d r eq_refl) as (-> & Hd). split; [reflexivity|].
      unfold allDigits in *. simpl. rewrite Hc, Hd. reflexivity.
    + intros [= <- <-]. split; reflexivity.
Qed.

Lemma parseIfMatch_carries h ds rest :
  carriesVersion h ds rest -> Routes.parseIfMatch (Some h) = JS.parseInt ds.
Proof.
  intros (-> & Hne & Hd). unfold Routes.parseIfMatch.
  rewrite Ascii.eqb_refl, (spanDigits_app _ _ Hd).
  destruct ds; [contradiction|reflexivity].
Qed.

Lemma parseIfMatch_some h n :
  Routes.parseIfMatch (Some h) = Some n -> exists ds rest, carriesVersion h ds rest.
Proof.
  unfold Routes.parseIfMatch. destruct h as [|q r]; [discriminate|].
  destruct (Ascii.eqb_spec q JS.dquote) as [->|_]; [|discriminate].
  destruct (JS.spanDigits r) as [ds after] eqn:Hs.
  destruct (spanDigits_spec _ _ _ Hs) as (-> & Hd).
  destruct ds as [|d ds]; [discriminate|].
  destruct after as [|c after]; [discriminate|].
  destruct (Ascii.eqb_spec c "-"%char) as [->|Hc].
  - intros _. exists (String d ds), after. repeat split; [discriminate | exact Hd].
  - intros H. exfalso. revert H.
    destruct c as [[|] [|] [|] [|] [|] [|] [|] [|]]; try discriminate. contradiction.
Qed.

Lemma dropped_parse h :
  preconditionDropped h ->
  Routes.parseIfMatch (Some h) = None \/ Routes.parseIfMatch (Some h) = Some 0.
Proof.
  intros [Hno | (ds & rest & Hc & H0)].
  - left. destruct (Routes.parseIfMatch (Some h)) as [n|] eqn:E; [|reflexivity].
    apply parseIfMatch_some in E as (ds & rest & Hc). exfalso. eapply Hno, Hc.
  - right. rewrite (parseIfMatch_carries _ _ _ Hc). exact H0.
Qed.

Lemma dropped_gate ev t :
  ev = None \/ ev = Some 0 -> versionConflict ev t = false.
Proof. intros [-> | ->]; reflexivity. Qed.

Lemma bind_ext {A B} (m : M A) (k1 k2 : A -> M B) w :
  (forall a w', k1 a w' = k2 a w') -> bind m k1 w = bind m k2 w.
Proof.
  intros H. unfold bind. destruct (m w) as [[a|e] w']; [apply H | reflexivity].
Qed.

Lemma updateTask_gate_ext taskId p u ev1 ev2 w :
  (forall t, versionConflict ev1 t = versionConflict ev2 t) ->
  updateTask taskId p u ev1 w = updateTask taskId p u ev2 w.
Proof.
  intros H. unfold updateTask. apply bind_ext. intros [t|] w'; [|reflexivity].
  rewrite H. reflexivity.
Qed.

Lemma transform_raises b taskId t u : raises notConflict (transform b taskId t u).
Proof.
  unfold transform, Prisma.relation, assigneeUsers, Prisma.user_findMany.
  repeat raises_step.
Qed.

Lemma findFirst_run w taskId a :
  dbUp (db w) = true ->
  Prisma.task_findFirst taskId a w =
    (Ok (match tasks (db w) !! taskId with
         | Some t => if a && isDeleted t then None else Some t
         | None => None
         end), w).
Proof.
  intros Hup. unfold Prisma.task_findFirst. mred. unfold Prisma.connected.
  rewrite Hup. reflexivity.
Qed.

Lemma findFirst_down w taskId a :
  dbUp (db w) = false -> Prisma.task_findFirst taskId a w = (Throw PrismaError, w).
Proof.
  intros Hup. unfold Prisma.task_findFirst. mred. unfold Prisma.connected.
  rewrite Hup. reflexivity.
Qed.

Lemma updateTask_conflict_from_gate taskId p u ev w w' :
  updateTask taskId p u ev w = (Throw VersionConflict, w') ->
  exists t, stored w taskId = Some t /\ versionConflict ev t = true.
Proof.
  unfold updateTask, stored. unfold bind at 1.
  destruct (dbUp (db w)) eqn:Hup;
    [rewrite findFirst_run by exact Hup | rewrite findFirst_down by exact Hup; intros [=]].
  destruct (tasks (db w) !! taskId) as [t|]; [|intros [=]]. cbn [andb].
  destruct (isDeleted t) eqn:Hdel; [intros [=]|]. rewrite Hdel.
  destruct (versionConflict ev t) eqn:Hc; [eauto|].
  intros H. exfalso.
  revert H. match goal with |- ?m w = _ -> _ =>
    assert (Hr : raises notConflict m) end.
  { unfold Prisma.task_update, Prisma.task_findFirst, Prisma.task_put, Prisma.relation,
      Prisma.taskAudit_create, WebSocketService.emitTaskUpdated, WebSocketService.emit,
      invalidateTaskCache, Date_now.
    repeat (first [apply transform_raises | raises_step]). }
  intros H. apply Hr in H. apply H. reflexivity.
Qed.

Lemma transform_ok b taskId t u w :
  dbUp (db w) = true -> is_Some (users (db w) !! createdBy t) ->
  exists task, transform b taskId t u w = (Ok task, w).
Proof.
  intros Hup [c Hc]. unfold transform. mred. rewrite Hc. simpl.
  destruct b, (updatedBy t); simpl; destruct (assignees t); simpl;
    rewrite ?Hup; simpl; eauto.
Qed.

Lemma updateTask_succeeds taskId p u ev w t :
  dbUp (db w) = true ->
  stored w taskId = Some t ->
  isDeleted t = false ->
  versionConflict ev t = false ->
  is_Some (users (db w) !! createdBy t) ->
  exists task w', updateTask taskId p u ev w = (Ok task, w').
Proof.
  unfold stored. intros Hup Ht Hdel Hc [c Hcr].
  unfold updateTask. mred.
  repeat (progress (rewrite ?Hup, ?Ht, ?Hdel, ?Hc, ?Hcr; simpl)).
  match goal with |- context [transform ?b ?i ?t0 ?u0 ?w0] =>
    destruct (transform_ok b i t0 u0 w0) as (task & Htr);
      [exact Hup | simpl; rewrite Hcr; eauto | rewrite Htr] end.
  simpl. destruct (io (out w)); simpl.
  all: match goal with |- context [invalidateTaskCache ?w0] =>
         pose proof (invalidate_ok w0) as Hi;
         destruct (invalidateTaskCache w0) as [r w2] end.
  all: simpl in Hi; subst r; eauto.
Qed.

Lemma updateTaskRoute_applies taskId req w patch u t :
  Routes.badTaskId taskId = false ->
  Schemas.updateTaskSchema (body req) = inr patch ->
  user req = Some u ->
  dbUp (db w) = true ->
  stored w taskId = Some t ->
  isDeleted t = false ->
  versionConflict (Routes.parseIfMatch (ifMatch req)) t = false ->
  is_Some (users (db w) !! createdBy t) ->
  exists task w',
    Routes.updateTaskRoute taskId req w = (Ok (Routes.withETag 200 task), w')
    /\ stored w' taskId = Some (updated (clock w) t patch u).
Proof.
  intros Hid Hs Hu Hup Ht Hdel Hc Hcr.
  destruct (updateTask_succeeds taskId patch u _ w t Hup Ht Hdel Hc Hcr) as (task & w' & Hrun).
  exists task, w'. split.
  - unfold Routes.updateTaskRoute, Routes.liftParsed, Routes.currentUser.
    rewrite Hid, Hs, Hu. unfold tryCatch, bind, ret. rewrite Hrun. reflexivity.
  - apply updateTask_inv in Hrun as (t0 & Ht0 & _ & _ & Htasks & _).
    rewrite Ht in Ht0. injection Ht0 as <-.
    unfold stored. rewrite Htasks. apply lookup_insert_eq.
Qed.

Lemma objectIds_error l : forall i e, Schemas.objectIds i l = inl e -> isZod e.
Proof.
  induction l as [|x l IH]; intros i e; simpl; [discriminate|].
  destruct x; try (intros [= <-]; eexists; reflexivity).
  destruct (JS.isObjectId s); [|intros [= <-]; eexists; reflexivity].
  destruct (Schemas.objectIds (S i) l) eqn:E; [|discriminate].
  intros [= <-]. eapply IH, E.
Qed.

Lemma boundedString_error f m v e : Schemas.boundedString f m v = inl e -> isZod e.
Proof.
  unfold Schemas.boundedString. destruct v; try (intros [= <-]; eexists; reflexivity).
  destruct (_ && _); [discriminate | intros [= <-]; eexists; reflexivity].
Qed.

Lemma maxString_error f m v e : Schemas.maxString f m v = inl e -> isZod e.
Proof.
  unfold Schemas.maxString. destruct v; try (intros [= <-]; eexists; reflexivity).
  destruct (_ <=? _); [discriminate | intros [= <-]; eexists; reflexivity].
Qed.

Lemma assigneesArray_error v e : Schemas.assigneesArray v = inl e -> isZod e.
Proof.
  unfold Schemas.assigneesArray. destruct v; try (intros [= <-]; eexists; reflexivity).
  destruct (_ <=? _); [apply objectIds_error | intros [= <-]; eexists; reflexivity].
Qed.

Lemma optional_error {A} (p : JsVal -> Schemas.Parsed A) v e :
  (forall e', p v = inl e' -> isZod e') -> Schemas.optional p v = inl e -> isZod e.
Proof.
  intros Hp. unfold Schemas.optional.
  destruct v; try discriminate;
    match goal with |- context [p ?x] => destruct (p x) end; try discriminate;
    intros [= <-]; apply Hp; reflexivity.
Qed.

Lemma updateTaskSchema_error b e : Schemas.updateTaskSchema b = inl e -> isZod e.
Proof.
  unfold Schemas.updateTaskSchema.
  destruct (Schemas.optional _ (b_title b)) as [e1|t] eqn:H1.
  - intros [= <-]. eapply optional_error; [|exact H1]. intros e'. cbv beta.
    destruct (Schemas.boundedString "title" Schemas.TITLE_MAX_LENGTH (b_title b)) eqn:E;
      [|discriminate].
    intros [= <-]. eapply boundedString_error, E.
  - destruct (Schemas.optional _ (b_description b)) as [e2|d] eqn:H2.
    + intros [= <-]. eapply optional_error; [|exact H2]. intros e'. apply maxString_error.
    + destruct (Schemas.optional _ (b_assignees b)) as [e3|a] eqn:H3.
      * intros [= <-]. eapply optional_error; [|exact H3]. intros e'.
        apply assigneesArray_error.
      * destruct (_ && _); [intros [= <-]; eexists; reflexivity | discriminate].
Qed.

Lemma updateTaskRoute_conflict taskId req w :
  status <$> returned (fst (Routes.updateTaskRoute taskId req w)) = Some 409 ->
  exists t, stored w taskId = Some t
            /\ versionConflict (Routes.parseIfMatch (ifMatch req)) t = true.
Proof.
  unfold Routes.updateTaskRoute, Routes.liftParsed, Routes.currentUser, tryCatch.
  destruct (Routes.badTaskId taskId); [intros [=]|].
  unfold bind at 1.
  destruct (Schemas.updateTaskSchema (body req)) as [e|patch] eqn:Hs.
  - apply updateTaskSchema_error in Hs as (f & ->). unfold throw. intros [=].
  - unfold ret. unfold bind at 1.
    destruct (user req) as [u|]; [|unfold throw; intros [=]].
    unfold bind.
    destruct (updateTask taskId patch u (Routes.parseIfMatch (ifMatch req)) w)
      as [[task|e] w'] eqn:Hrun; [intros [=]|].
    destruct e; try (intros [=]; fail). intros _.
    apply updateTask_conflict_from_gate in Hrun. exact Hrun.
Qed.

(** C10.  When the [If-Match] header of a PATCH request does not begin with
    a double quote, digits and a dash, or when its version component parses
    to 0, the precondition is dropped: the expected version is undefined or
    0, the version gate lets every stored version pass, the request is
    answered exactly as the same request without the header, never with
    409, and on an Active task the update is applied whatever the stored
    version: the answer is 200 with the updated task, and the stored task
    holds the title, the description and the assignees of the patch where
    the patch supplies them and the earlier ones where it does not, the
    version plus one, the editor and the time of the call. *)
Theorem if_match_precondition_dropped h taskId req w :
  ifMatch req = Some h ->
  preconditionDropped h ->
  (Routes.parseIfMatch (ifMatch req) = None \/ Routes.parseIfMatch (ifMatch req) = Some 0)
  /\ (forall t, versionConflict (Routes.parseIfMatch (ifMatch req)) t = false)
  /\ Routes.updateTaskRoute taskId req w
     = Routes.updateTaskRoute taskId (without_ifMatch req) w
  /\ status <$> returned (fst (Routes.updateTaskRoute taskId req w)) <> Some 409
  /\ (forall patch u t,
        Routes.badTaskId taskId = false ->
        Schemas.updateTaskSchema (body req) = inr patch ->
        user req = Some u ->
        dbUp (db w) = true ->
        stored w taskId = Some t ->
        isDeleted t = false ->
        is_Some (users (db w) !! createdBy t) ->
        exists task w' t',
          Routes.updateTaskRoute taskId req w = (Ok (Routes.withETag 200 task), w')
          /\ stored w' taskId = Some t'
          /\ title t' = default (title t) (p_title patch)
          /\ description t' = match p_description patch with
                              | Some d => Some d
                              | None => description t
                              end
          /\ assignees t' = default (assignees t) (p_assignees patch)
          /\ version t' = version t + 1
          /\ updatedBy t' = Some (id u) /\ updatedAt t' = clock w
          /\ createdBy t' = createdBy t /\ createdAt t' = createdAt t
          /\ isDeleted t' = false
          /\ t_version task = version t + 1
          /\ t_title task = default (title t) (p_title patch)).
Proof.
  intros Hh Hdrop. rewrite Hh.
  pose proof (dropped_parse h Hdrop) as Hparse.
  assert (Hgate : forall t, versionConflict (Routes.parseIfMatch (Some h)) t = false)
    by (intros t; apply dropped_gate, Hparse).
  split; [exact Hparse|]. split; [exact Hgate|]. split; [|split].
  - unfold Routes.updateTaskRoute, tryCatch.
    change (Routes.errorBody (without_ifMatch req)) with (Routes.errorBody req).
    change (body (without_ifMatch req)) with (body req).
    change (ifMatch (without_ifMatch req)) with (@None string).
    rewrite Hh.
    destruct (Routes.badTaskId taskId); [reflexivity|].
    match goal with |- match ?a with _ => _ end = match ?b with _ => _ end =>
      assert (E : a = b); [|rewrite E; reflexivity] end.
    apply bind_ext. intros patch w1.
    unfold Routes.currentUser.
    change (user (without_ifMatch req)) with (user req).
    apply bind_ext. intros u w2.
    unfold bind. rewrite (updateTask_gate_ext taskId patch u _ None w2); [reflexivity|].
    intros t. rewrite Hgate. reflexivity.
  - intros H409. apply updateTaskRoute_conflict in H409 as (t & _ & Hc).
    rewrite Hh, Hgate in Hc. discriminate.
  - intros patch u t Hid Hs Hu Hup Ht Hdel Hcr.
    destruct (updateTaskRoute_applies taskId req w patch u t Hid Hs Hu Hup Ht Hdel)
      as (task & w' & Hrun & Hst); [rewrite Hh; apply Hgate | exact Hcr |].
    exists task, w', (updated (clock w) t patch u). split; [exact Hrun|]. split; [exact Hst|].
    destruct (prepareUpdate_fields t patch u) as (Hpv & Hpu & Hpt & Hpd & Hpa).
    assert (Htitle : title (updated (clock w) t patch u) = default (title t) (p_title patch))
      by (unfold updated; simpl; rewrite Hpt; reflexivity).
    split; [exact Htitle|].
    split; [unfold updated; simpl; rewrite Hpd; reflexivity|].
    split; [unfold updated; simpl; rewrite Hpa; reflexivity|].
    split; [unfold updated; simpl; exact Hpv|].
    split; [unfold updated; simpl; rewrite Hpu; reflexivity|].
    split; [reflexivity|]. split; [reflexivity|]. split; [reflexivity|].
    split; [unfold updated; simpl; exact Hdel|].
    pose proof Hrun as Hrun'.
    unfold Routes.updateTaskRoute, Routes.liftParsed, Routes.currentUser in Hrun'.
    rewrite Hid, Hs, Hu in Hrun'. unfold tryCatch, bind, ret in Hrun'.
    destruct (updateTask taskId patch u (Routes.parseIfMatch (ifMatch req)) w)
      as [[task0|e] w0] eqn:Hu0.
    + injection Hrun' as Htask _.
      assert (task0 = task) as <- by (unfold Routes.withETag in Htask; congruence).
      pose proof (updateTask_returns _ _ _ _ _ _ _ Hu0) as (t0 & Ht0 & Hver & Htt).
      rewrite Ht in Ht0. injection Ht0 as <-.
      split; [exact Hver|]. rewrite Htt. exact Htitle.
    + exfalso. destruct e; discriminate Hrun'.
Qed.

End IfMatch.

Lemma if_match_precondition_dropped_witness :
  let h := String JS.dquote "0-1970-01-01T00:00:01.000Z" in
  let req := Sample.patchWith h in
  preconditionDropped h
  /\ Routes.parseIfMatch (ifMatch req) = Some 0
  /\ version <$> stored Sample.office Sample.taskA = Some 1
  /\ exists task w' t',
       Routes.updateTaskRoute Sample.taskA req Sample.office
       = (Ok (Routes.withETag 200 task), w')
       /\ stored w' Sample.taskA = Some t'
       /\ title t' = "B" /\ description t' = Some "d" /\ version t' = 2
       /\ updatedBy t' = Some Sample.annId
       /\ t_version task = 2 /\ t_title task = "B".
Proof.
  intros h req.
  assert (Hdrop : preconditionDropped h).
  { right. exists "0", "1970-01-01T00:00:01.000Z". repeat split. discriminate. }
  split; [exact Hdrop|]. split; [reflexivity|]. split; [vm_compute; reflexivity|].
  destruct (if_match_precondition_dropped h Sample.taskA req Sample.office eq_refl Hdrop)
    as (_ & _ & _ & _ & Happly).
  destruct (Happly (Sample.titleOnly "B") Sample.ann
              (TaskService.newTask 1000 "A" (Some "d") Sample.annId [] 1))
    as (task & w' & t' & Hrun & Hst & Htitle & Hdesc & _ & Hver & Hby & _ & _ & _ & _ & Htv & Htt);
    try (vm_compute; reflexivity).
  { exists Sample.annDoc. vm_compute. reflexivity. }
  exists task, w', t'. split; [exact Hrun|]. split; [exact Hst|].
  split; [exact Htitle|]. split; [exact Hdesc|]. split; [exact Hver|].
  split; [exact Hby|]. split; [exact Htv | exact Htt].
Defined.

(* ===================================================================== *)
(** ** Printing and parsing a counter *)
(* ===================================================================== *)

Lemma scanDigits_print d :
  JS.scanDigits (NilEmpty.string_of_uint d) = (d, "").
Proof. induction d; simpl; rewrite ?IHd; reflexivity. Qed.

(** A text that begins with an ASCII character other than white space
    begins with no white space. *)
Lemma skipSpaces_ascii c s :
  JS.is_space c = false -> (N_of_ascii c <? 128)%N = true ->
  JS.skipSpaces (String c s) = String c s.
Proof.
  intros Hs Hc. cbn [JS.skipSpaces]. rewrite Hs. apply N.ltb_lt in Hc.
  assert (H2 : forall b, JS.is_space2 c b = false).
  { intros b. unfold JS.is_space2.
    destruct (N.eqb_spec (N_of_ascii c) 194); [lia|reflexivity]. }
  assert (H3 : forall b c', JS.is_space3 c b c' = false).
  { intros b c'. unfold JS.is_space3. cbv beta iota zeta.
    repeat match goal with
           | |- context [(N_of_ascii c =? ?k)%N] =>
               destruct (N.eqb_spec (N_of_ascii c) k); [lia|]
           end.
    reflexivity. }
  destruct s as [|b s2]; [reflexivity|]. rewrite H2.
  destruct s2 as [|c' s3]; [reflexivity|]. rewrite H3. reflexivity.
Qed.

Lemma skipSpaces_print d :
  JS.skipSpaces (NilEmpty.string_of_uint d) = NilEmpty.string_of_uint d.
Proof. destruct d; [reflexivity|apply skipSpaces_ascii; reflexivity ..]. Qed.

Lemma no_sign_print d :
  JS.startsWith "-" (NilEmpty.string_of_uint d) = false
  /\ JS.startsWith "+" (NilEmpty.string_of_uint d) = false.
Proof. destruct d; split; reflexivity. Qed.

Lemma no_hex_prefix_print d :
  JS.startsWith "0x" (NilEmpty.string_of_uint d) = false
  /\ JS.startsWith "0X" (NilEmpty.string_of_uint d) = false.
Proof. destruct d as [|d|d|d|d|d|d|d|d|d|d]; try (split; reflexivity); destruct d; split; reflexivity. Qed.

Lemma parseInt_print d :
  d <> Nil ->
  JS.parseInt (NilEmpty.string_of_uint d) = Some (Z.of_N (Pos.of_uint d)).
Proof.
  intros Hd. unfold JS.parseInt. rewrite skipSpaces_print.
  destruct (no_sign_print d) as (-> & ->).
  unfold JS.parseUnsigned. destruct (no_hex_prefix_print d) as (-> & ->). simpl.
  rewrite scanDigits_print. simpl. destruct d; try reflexivity. contradiction.
Qed.

Lemma parseInt_toString n : 0 <= n -> JS.parseInt (JS.toString n) = Some n.
Proof.
  intros Hn. destruct n as [|p|p]; [reflexivity| |lia].
  unfold JS.toString. simpl. unfold NilZero.string_of_uint.
  pose proof (DecimalPos.Unsigned.to_uint_nonnil p) as Hnn.
  replace (match Pos.to_uint p with Nil => "0" | _ => NilEmpty.string_of_uint (Pos.to_uint p) end)
    with (NilEmpty.string_of_uint (Pos.to_uint p))
    by (destruct (Pos.to_uint p); [contradiction | reflexivity ..]).
  rewrite parseInt_print by exact Hnn. rewrite DecimalPos.Unsigned.of_to. reflexivity.
Qed.

Lemma asInteger_toString n :
  0 <= n < 2 ^ 53 -> Redis.asInteger (Text (JS.toString n)) = Some n.
Proof.
  intros Hn. unfold Redis.asInteger. rewrite parseInt_toString by lia.
  rewrite String.eqb_refl. simpl.
  destruct (Z.leb_spec (- 2 ^ 63) n); [|lia].
  destruct (Z.ltb_spec n (2 ^ 63 - 1)); [reflexivity|lia].
Qed.

(* ===================================================================== *)
(** ** The fixed-window rate limiter *)
(* ===================================================================== *)

Section RateLimiter.

Import AuthUtils.

#[local] Arguments Redis.asInteger : simpl never.
#[local] Arguments JS.parseInt : simpl never.
#[local] Arguments JS.toString : simpl never.

Ltac rlred :=
  cbv beta iota zeta delta
    [bind ret throw gets modify tryCatch Date_now
     checkRateLimit setStats memGet memSet
     Redis.incr Redis.expire Redis.put Redis.connected] in *.

(** The first call of a window. *)
Lemma checkRateLimit_opens key limit windowMs w :
  1 <= limit -> 1000 <= windowMs ->
  backendReady w ->
  windowOpen w key = false ->
  let r := checkRateLimit key limit windowMs w in
  fst r = Ok true
  /\ counter (snd r) key = Some (1, clock w + windowOf w windowMs)
  /\ env (snd r) = env w /\ clock (snd r) = clock w /\ backendReady (snd r).
Proof.
  intros Hl Hw Hready Hfresh.
  unfold backendReady, windowOpen, counter, windowOf, Redis.lookup in *.
  rlred. unfold Redis.lookup. set (rk := "rate-limit:" +:+ key) in *. simpl.
  destruct (getStorage (env w)) eqn:Hs; simpl.
  - rewrite Hready. simpl.
    assert (Hno : match redisDb (kv w) !! rk with
                  | Some e => if Redis.live (clock w) e then Some e else None
                  | None => None
                  end = None).
    { apply bool_decide_eq_false_1 in Hfresh.
      destruct (match redisDb (kv w) !! rk with Some _ => _ | None => _ end);
        [exfalso; apply Hfresh; eauto | reflexivity]. }
    rewrite Hno. simpl. rewrite Hready. simpl. rewrite lookup_insert_eq. simpl.
    assert (Hs1 : 1 <= windowMs / 1000) by (apply Z.div_le_lower_bound; lia).
    destruct (Z.leb_spec (windowMs / 1000) 0) as [|_]; [lia|]. simpl.
    destruct (Z.leb_spec 1 limit) as [_|]; [|lia]. simpl.
    rewrite Hs. simpl. rewrite lookup_insert_eq.
    unfold Redis.live. simpl.
    destruct (Z.ltb_spec (clock w + windowMs / 1000 * 1000) (clock w)) as [|_]; [lia|].
    simpl. rewrite Hready. auto.
  - assert (Hset : forall it, inMemoryStorage (kv w) !! key = Some it ->
                              (clock w >? expiresAt it) = true).
    { intros it Hit. rewrite Hit in Hfresh.
      destruct (clock w >? expiresAt it); [reflexivity|discriminate]. }
    destruct (inMemoryStorage (kv w) !! key) as [it|] eqn:Hit; simpl.
    + rewrite (Hset it eq_refl). simpl. rewrite Hs, lookup_insert_eq. simpl.
      destruct (Z.gtb_spec (clock w) (clock w + windowMs)) as [|_]; [lia|]. auto.
    + rewrite Hs, lookup_insert_eq. simpl.
      destruct (Z.gtb_spec (clock w) (clock w + windowMs)) as [|_]; [lia|]. auto.
Qed.

(** A later call in the same window. *)
Lemma checkRateLimit_counts key limit windowMs w n e :
  backendReady w ->
  counter w key = Some (n, e) ->
  1 <= n -> n + 1 < 2 ^ 53 ->
  let r := checkRateLimit key limit windowMs w in
  fst r = Ok (n + 1 <=? limit)
  /\ counter (snd r) key = Some (n + 1, e)
  /\ env (snd r) = env w /\ clock (snd r) = clock w /\ backendReady (snd r).
Proof.
  intros Hready Hc Hn Hb. unfold backendReady, counter, Redis.lookup in *.
  rlred. unfold Redis.lookup. set (rk := "rate-limit:" +:+ key) in *. simpl.
  destruct (getStorage (env w)) eqn:Hs; simpl.
  - rewrite Hready. simpl.
    destruct (redisDb (kv w) !! rk) as [en|] eqn:Hl0; [|discriminate].
    destruct (Redis.live (clock w) en) eqn:Hlive; [|discriminate].
    destruct (Redis.asInteger (rval en)) as [n0|] eqn:Hint; [|discriminate].
    destruct (rexp en) as [t|] eqn:Hexp; [|discriminate].
    injection Hc as -> ->. simpl.
    destruct (Z.eqb_spec (n + 1) 1) as [|_]; [lia|]. simpl.
    destruct (n + 1 <=? limit); simpl; rewrite Hs; simpl;
      rewrite lookup_insert_eq; unfold Redis.live in *; simpl; rewrite Hexp in Hlive;
      rewrite Hlive; simpl; rewrite asInteger_toString by lia; rewrite Hready; auto.
  - destruct (inMemoryStorage (kv w) !! key) as [it|] eqn:Hit; [|discriminate]. simpl.
    destruct (clock w >? expiresAt it) eqn:Hexp; [discriminate|].
    destruct (parseData (data it)) as [n0|] eqn:Hp; [|discriminate].
    injection Hc as -> <-. simpl. replace (1 + n) with (n + 1) by lia.
    destruct (n + 1 <=? limit); simpl; rewrite Hs, lookup_insert_eq; simpl;
      rewrite Hexp; unfold JS.numToString; simpl;
      rewrite parseInt_toString by lia; auto.
Qed.

Lemma windowAnswers_length n limit k : List.length (windowAnswers n limit k) = k.
Proof. revert n. induction k; intros n; simpl; [reflexivity | rewrite IHk; reflexivity]. Qed.

Lemma windowAnswers_lookup limit k :
  forall n i a, windowAnswers n limit k !! i = Some a ->
                a = (n + 1 + Z.of_nat i <=? limit).
Proof.
  induction k as [|k IH]; intros n i a; simpl; [intros [=]|].
  destruct i as [|i]; simpl.
  - intros [= <-]. f_equal. lia.
  - intros H. rewrite (IH _ _ _ H). f_equal. lia.
Qed.

Lemma counter_at_time w key n e t :
  counter w key = Some (n, e) -> t <= e -> counter (at_time t w) key = Some (n, e).
Proof.
  unfold counter, Redis.lookup. simpl. intros Hc Ht.
  destruct (getStorage (env w)).
  - destruct (redisDb (kv w) !! _) as [en|]; [|discriminate].
    destruct (Redis.live (clock w) en); [|discriminate]. simpl in Hc.
    destruct (Redis.asInteger (rval en)) as [n0|] eqn:Hi; [|discriminate].
    destruct (rexp en) as [x|] eqn:Hx; [|discriminate]. injection Hc as -> ->.
    unfold Redis.live. rewrite Hx.
    destruct (Z.ltb_spec e t); [lia|]. simpl. rewrite Hi, Hx. reflexivity.
  - destruct (inMemoryStorage (kv w) !! key) as [it|]; [|discriminate].
    destruct (clock w >? expiresAt it); [discriminate|].
    destruct (parseData (data it)) as [n0|]; [|discriminate]. injection Hc as -> <-.
    destruct (Z.gtb_spec t (expiresAt it)); [lia|]. reflexivity.
Qed.

Lemma window_closed_after w key n e late :
  counter w key = Some (n, e) -> e < late -> windowOpen (at_time late w) key = false.
Proof.
  unfold counter, windowOpen, Redis.lookup. simpl. intros Hc Ht.
  destruct (getStorage (env w)).
  - destruct (redisDb (kv w) !! _) as [en|]; [|discriminate].
    destruct (Redis.live (clock w) en); [|discriminate]. simpl in Hc.
    destruct (Redis.asInteger (rval en)) as [n0|] eqn:Hi; [|discriminate].
    destruct (rexp en) as [x|] eqn:Hx; [|discriminate]. injection Hc as -> ->.
    unfold Redis.live. rewrite Hx.
    destruct (Z.ltb_spec e late); [|lia]. simpl.
    first [reflexivity | apply bool_decide_eq_false_2; intros [? [=]]].
  - destruct (inMemoryStorage (kv w) !! key) as [it|]; [|discriminate].
    destruct (clock w >? expiresAt it); [discriminate|].
    destruct (parseData (data it)) as [n0|]; [|discriminate]. injection Hc as -> <-.
    destruct (Z.gtb_spec late (expiresAt it)); [reflexivity|lia].
Qed.

Lemma callsAt_counts key limit windowMs ts :
  forall w n e,
    backendReady w ->
    counter w key = Some (n, e) ->
    1 <= n -> n + Z.of_nat (List.length ts) < 2 ^ 53 ->
    Forall (fun t => t <= e) ts ->
    exists w',
      callsAt key limit windowMs ts w = (Ok (windowAnswers n limit (List.length ts)), w')
      /\ counter w' key = Some (n + Z.of_nat (List.length ts), e)
      /\ env w' = env w /\ backendReady w'.
Proof.
  induction ts as [|t ts IH]; intros w n e Hready Hc Hn Hb Hts; cbn [callsAt List.length].
  - exists w. simpl. rewrite Z.add_0_r. auto.
  - apply Forall_cons in Hts as (Ht & Hts). cbn [List.length] in Hb.
    rewrite Nat2Z.inj_succ in Hb |- *.
    assert (Hready' : backendReady (at_time t w)) by exact Hready.
    pose proof (counter_at_time w key n e t Hc Ht) as Hc'.
    destruct (checkRateLimit_counts key limit windowMs (at_time t w) n e Hready' Hc' Hn)
      as (Hr & Hcnt & Henv & _ & Hrdy); [lia|].
    unfold bind, modify.
    destruct (checkRateLimit key limit windowMs (at_time t w)) as [[a|x] w1];
      simpl in Hr; [|discriminate]. injection Hr as ->. simpl in Hcnt, Henv, Hrdy.
    destruct (IH w1 (n + 1) e Hrdy Hcnt) as (w2 & Hrun & Hcnt2 & Henv2 & Hrdy2);
      [lia|lia|exact Hts|].
    rewrite Hrun. exists w2. unfold ret. repeat split; auto.
    + rewrite Hcnt2. f_equal. f_equal. lia.
    + congruence.
Qed.

(** C6 (the code departs from the claim).  The two backends of the limiter
    do not count alike.  With the in-process map the first call of a window
    returns true without comparing the count with the limit: with limit 0
    it is allowed although the resulting count 1 exceeds the limit, where
    Redis, on the same input, denies it.  With Redis the window is given to
    [EXPIRE] in whole seconds, rounded down: a window of 500 ms is an
    expiry of 0 seconds, the counter is gone as soon as it is created, and
    with limit 1 the second and the third call at the same instant are
    allowed, where the in-process map, on the same input, denies them. *)
Theorem rate_limit_backends_disagree :
  let fallback := Sample.start Sample.env_memory false in
  let durable := Sample.start Sample.env_redis true in
  (windowOpen fallback "k" = false
   /\ fst (checkRateLimit "k" 0 60000 fallback) = Ok true
   /\ counter (snd (checkRateLimit "k" 0 60000 fallback)) "k" = Some (1, 61000)
   /\ (1 <=? 0) = false)
  /\ (windowOpen durable "k" = false
      /\ fst (checkRateLimit "k" 0 60000 durable) = Ok false)
  /\ (500 / 1000 = 0
      /\ fst (callsAt "k" 1 500 [1000; 1000; 1000] durable) = Ok [true; true; true]
      /\ counter (snd (callsAt "k" 1 500 [1000; 1000; 1000] durable)) "k" = None
      /\ fst (callsAt "k" 1 500 [1000; 1000; 1000] fallback) = Ok [true; false; false]).
Proof. vm_compute. repeat split; reflexivity. Qed.

(** Where the limit is at least 1 and the window at least one second the
    limiter counts as a fixed-window counter on both backends.  Take such a
    limit and window, a reachable backend, Redis or the in-process map, and
    a key whose window is not open.  The first call is allowed and opens a window
    that ends [windowOf] later (the whole seconds of the window with
    Redis).  The further calls made before the window ends are counted
    without moving its end, and the call number k of the window is allowed
    exactly when k is at most the limit, so call number limit + 1 is
    denied.  The first call after the end of the window is allowed again
    and starts a new count at 1. *)
Lemma fixed_window_counter key limit windowMs w ts late :
  1 <= limit -> 1000 <= windowMs ->
  backendReady w ->
  windowOpen w key = false ->
  Forall (fun t => t <= clock w + windowOf w windowMs) ts ->
  Z.of_nat (List.length ts) + 1 < 2 ^ 53 ->
  clock w + windowOf w windowMs < late ->
  exists w1 answers w2 w3,
    checkRateLimit key limit windowMs w = (Ok true, w1)
    /\ counter w1 key = Some (1, clock w + windowOf w windowMs)
    /\ callsAt key limit windowMs ts w1 = (Ok answers, w2)
    /\ List.length answers = List.length ts
    /\ (forall i a, answers !! i = Some a -> a = (Z.of_nat i + 2 <=? limit))
    /\ counter w2 key = Some (1 + Z.of_nat (List.length ts), clock w + windowOf w windowMs)
    /\ checkRateLimit key limit windowMs (at_time late w2) = (Ok true, w3)
    /\ counter w3 key = Some (1, late + windowOf w windowMs).
Proof.
  intros Hl Hwin Hready Hfresh Hts Hlen Hlate.
  destruct (checkRateLimit_opens key limit windowMs w Hl Hwin Hready Hfresh)
    as (Hr1 & Hc1 & He1 & _ & Hrdy1).
  destruct (checkRateLimit key limit windowMs w) as [[a|x] w1] eqn:E1; simpl in Hr1;
    [|discriminate].
  injection Hr1 as ->. simpl in Hc1, He1, Hrdy1.
  destruct (callsAt_counts key limit windowMs ts w1 1 _ Hrdy1 Hc1)
    as (w2 & Hrun & Hc2 & He2 & Hrdy2); [lia|lia|exact Hts|].
  pose proof (window_closed_after w2 key _ _ late Hc2 Hlate) as Hclosed.
  assert (Hrdy2' : backendReady (at_time late w2)) by exact Hrdy2.
  destruct (checkRateLimit_opens key limit windowMs (at_time late w2) Hl Hwin Hrdy2' Hclosed)
    as (Hr3 & Hc3 & _).
  destruct (checkRateLimit key limit windowMs (at_time late w2)) as [[a|x] w3] eqn:E3;
    simpl in Hr3; [|discriminate].
  injection Hr3 as ->. simpl in Hc3.
  exists w1, (windowAnswers 1 limit (List.length ts)), w2, w3.
  split; [first [exact E1 | reflexivity]|]. split; [exact Hc1|]. split; [exact Hrun|].
  split; [apply windowAnswers_length|].
  split; [intros i a Hi; rewrite (windowAnswers_lookup _ _ _ _ _ Hi); f_equal; lia|].
  split; [exact Hc2|]. split; [exact E3|].
  rewrite Hc3. unfold windowOf. simpl. rewrite He2, He1. reflexivity.
Qed.

Lemma fixed_window_counter_example :
  let calls := [1000; 2000; 30000; 61000] in
  (exists w1 answers w2 w3,
     checkRateLimit "203.0.113.7:/" 3 60000 (Sample.start Sample.env_redis true)
       = (Ok true, w1)
     /\ counter w1 "203.0.113.7:/" = Some (1, 61000)
     /\ callsAt "203.0.113.7:/" 3 60000 calls w1 = (Ok answers, w2)
     /\ List.length answers = 4%nat
     /\ (forall i a, answers !! i = Some a -> a = (Z.of_nat i + 2 <=? 3))
     /\ counter w2 "203.0.113.7:/" = Some (5, 61000)
     /\ checkRateLimit "203.0.113.7:/" 3 60000 (at_time 61001 w2) = (Ok true, w3)
     /\ counter w3 "203.0.113.7:/" = Some (1, 121001))
  /\ (exists w1 answers w2 w3,
        checkRateLimit "203.0.113.7:/" 3 60500 (Sample.start Sample.env_memory false)
          = (Ok true, w1)
        /\ counter w1 "203.0.113.7:/" = Some (1, 61500)
        /\ callsAt "203.0.113.7:/" 3 60500 calls w1 = (Ok answers, w2)
        /\ List.length answers = 4%nat
        /\ (forall i a, answers !! i = Some a -> a = (Z.of_nat i + 2 <=? 3))
        /\ counter w2 "203.0.113.7:/" = Some (5, 61500)
        /\ checkRateLimit "203.0.113.7:/" 3 60500 (at_time 61501 w2) = (Ok true, w3)
        /\ counter w3 "203.0.113.7:/" = Some (1, 122001)).
Proof.
  intros calls. split.
  - apply (fixed_window_counter "203.0.113.7:/" 3 60000
             (Sample.start Sample.env_redis true) calls 61001);
      try (vm_compute; first [reflexivity | discriminate]).
    repeat constructor; vm_compute; discriminate.
  - apply (fixed_window_counter "203.0.113.7:/" 3 60500
             (Sample.start Sample.env_memory false) calls 61501);
      try (vm_compute; first [reflexivity | discriminate | exact I]).
    repeat constructor; vm_compute; discriminate.
Defined.

End RateLimiter.

(* ===================================================================== *)
(** ** Running a computation step by step; the two stores *)
(* ===================================================================== *)

Lemma append_inj_r p a b : p +:+ a = p +:+ b -> a = b.
Proof. induction p as [|c p IH]; simpl; [auto|]. intros [= H]. auto. Qed.

Lemma tryCatch_total {A} (m : M A) (a : A) w :
  exists r, fst (tryCatch m (fun _ => ret a) w) = Ok r.
Proof.
  unfold tryCatch, ret. destruct (m w) as [[x|e] w1]; simpl; eauto.
Qed.

(* ---- running a computation step by step ---- *)

Lemma bind_ok {A B} (m : M A) (k : A -> M B) w a w1 :
  m w = (Ok a, w1) -> bind m k w = k a w1.
Proof. unfold bind. intros ->. reflexivity. Qed.

Lemma bind_err {A B} (m : M A) (k : A -> M B) w e w1 :
  m w = (Throw e, w1) -> bind m k w = (Throw e, w1).
Proof. unfold bind. intros ->. reflexivity. Qed.

Lemma tryCatch_ok {A} (m : M A) (h : Err -> M A) w a w1 :
  m w = (Ok a, w1) -> tryCatch m h w = (Ok a, w1).
Proof. unfold tryCatch. intros ->. reflexivity. Qed.

Lemma tryCatch_err {A} (m : M A) (h : Err -> M A) w e w1 :
  m w = (Throw e, w1) -> tryCatch m h w = h e w1.
Proof. unfold tryCatch. intros ->. reflexivity. Qed.

(** One step of a [bind] or a [tryCatch] whose first part has been run. *)
Ltac run_with E :=
  first [ rewrite (bind_ok _ _ _ _ _ E) | rewrite (bind_err _ _ _ _ _ E)
        | rewrite (tryCatch_ok _ _ _ _ _ E) | rewrite (tryCatch_err _ _ _ _ _ E) ].

(** The same for a first part that is [ret], [gets], [modify] or [throw]. *)
Ltac run_pure :=
  first [ erewrite bind_ok by reflexivity | erewrite bind_err by reflexivity
        | erewrite tryCatch_ok by reflexivity | erewrite tryCatch_err by reflexivity ].

(* ---- computations that write to the stores only ---- *)

Lemma same_but_stores_refl w : same_but_stores w w.
Proof. repeat split. Qed.

Lemma same_but_stores_trans w1 w2 w3 :
  same_but_stores w1 w2 -> same_but_stores w2 w3 -> same_but_stores w1 w3.
Proof. intros (?&?&?&?&?) (?&?&?&?&?). repeat split; congruence. Qed.

Lemma storesOnly_ret {A} (a : A) : storesOnly (ret a).
Proof. intros w. apply same_but_stores_refl. Qed.

Lemma storesOnly_throw {A} e : storesOnly (@throw A e).
Proof. intros w. apply same_but_stores_refl. Qed.

Lemma storesOnly_gets {A} (f : World -> A) : storesOnly (gets f).
Proof. intros w. apply same_but_stores_refl. Qed.

Lemma storesOnly_bind {A B} (m : M A) (k : A -> M B) :
  storesOnly m -> (forall a, storesOnly (k a)) -> storesOnly (bind m k).
Proof.
  intros Hm Hk w. unfold bind. specialize (Hm w).
  destruct (m w) as [[a|e] w1]; simpl in *; [|exact Hm].
  eapply same_but_stores_trans; [exact Hm | apply Hk].
Qed.

Lemma storesOnly_tryCatch {A} (m : M A) (h : Err -> M A) :
  storesOnly m -> (forall e, storesOnly (h e)) -> storesOnly (tryCatch m h).
Proof.
  intros Hm Hh w. unfold tryCatch. specialize (Hm w).
  destruct (m w) as [[a|e] w1]; simpl in *; [exact Hm|].
  eapply same_but_stores_trans; [exact Hm | apply Hh].
Qed.

Lemma storesOnly_connected : storesOnly Redis.connected.
Proof. intros w. unfold Redis.connected. destruct (redisUp (kv w)); apply same_but_stores_refl. Qed.

Lemma storesOnly_redisDb (f : World -> gmap string RedisEntry) :
  storesOnly (modify (fun w => with_kv (set_redisDb (f w)) w)).
Proof. intros w. repeat split. Qed.

Lemma storesOnly_memory (f : World -> gmap string MemEntry) :
  storesOnly (modify (fun w => with_kv (set_inMemoryStorage (f w)) w)).
Proof. intros w. repeat split. Qed.

Lemma storesOnly_stats f : storesOnly (AuthUtils.setStats f).
Proof. intros w. repeat split. Qed.

Ltac stores_step :=
  first
    [ apply storesOnly_ret | apply storesOnly_throw | apply storesOnly_gets
    | apply storesOnly_connected | apply storesOnly_redisDb | apply storesOnly_memory
    | apply storesOnly_stats
    | apply storesOnly_bind; [|intro]
    | apply storesOnly_tryCatch; [|intro]
    | match goal with
      | |- storesOnly (match ?x with _ => _ end) => destruct x
      | |- storesOnly (if ?x then _ else _) => destruct x
      end ].

Ltac stores_only := repeat stores_step.

Section Store.
Import AuthUtils.

Lemma storesOnly_setEx k ttl v : storesOnly (Redis.setEx k ttl v).
Proof. unfold Redis.setEx, Redis.put, Date_now. stores_only. Qed.

Lemma storesOnly_get k : storesOnly (Redis.get k).
Proof. unfold Redis.get. stores_only. Qed.

Lemma storesOnly_del k : storesOnly (Redis.del k).
Proof. unfold Redis.del. stores_only. Qed.

Lemma storesOnly_incr k : storesOnly (Redis.incr k).
Proof. unfold Redis.incr, Redis.put. stores_only. Qed.

Lemma storesOnly_expire k s : storesOnly (Redis.expire k s).
Proof. unfold Redis.expire, Redis.put, Date_now. stores_only. Qed.

Lemma storesOnly_keys p : storesOnly (Redis.keys p).
Proof. unfold Redis.keys. stores_only. Qed.

Lemma storesOnly_setWithExpiration key v ttl : storesOnly (setWithExpiration key v ttl).
Proof.
  unfold setWithExpiration, memSet, Date_now. stores_only.
Qed.

Lemma storesOnly_getValue key : storesOnly (getValue key).
Proof.
  unfold getValue, memGet, memDelete, Date_now. stores_only.
Qed.

Lemma storesOnly_deleteValue key : storesOnly (deleteValue key).
Proof. unfold deleteValue, memDelete. stores_only. Qed.

Lemma storesOnly_getSession tok : storesOnly (getSession tok).
Proof.
  unfold getSession, Date_now. stores_only.
Qed.

Lemma storesOnly_deleteSession tok : storesOnly (deleteSession tok).
Proof. unfold deleteSession. stores_only. Qed.


Lemma storesOnly_checkRateLimit key limit windowMs :
  storesOnly (checkRateLimit key limit windowMs).
Proof.
  unfold checkRateLimit, memGet, memSet, Date_now. stores_only.
Qed.

Lemma backendReady_ext w w' : same_but_stores w w' -> backendReady w -> backendReady w'.
Proof. unfold backendReady. intros (-> & _ & _ & _ & ->). auto. Qed.

Lemma backendReady_at_time t w : backendReady w -> backendReady (at_time t w).
Proof. auto. Qed.

Lemma setEx_run k ttl v w :
  redisUp (kv w) = true -> 1 <= ttl ->
  Redis.setEx k ttl v w
  = (Ok tt, with_kv (set_redisDb (<[k := {| rval := v; rexp := Some (clock w + ttl * 1000) |}]>
                                    (redisDb (kv w)))) w).
Proof.
  intros Hup Httl. unfold Redis.setEx, Redis.connected, Redis.put. mred.
  rewrite Hup. destruct (Z.leb_spec ttl 0); [lia|]. reflexivity.
Qed.

Lemma get_run k w :
  redisUp (kv w) = true -> Redis.get k w = (Ok (rval <$> Redis.lookup w k), w).
Proof. intros Hup. unfold Redis.get, Redis.connected. mred. rewrite Hup. reflexivity. Qed.

Lemma get_down k w : redisUp (kv w) = false -> Redis.get k w = (Throw RedisError, w).
Proof. intros Hup. unfold Redis.get, Redis.connected. mred. rewrite Hup. reflexivity. Qed.

Lemma del_run k w :
  redisUp (kv w) = true ->
  Redis.del k w = (Ok tt, with_kv (set_redisDb (delete k (redisDb (kv w)))) w).
Proof. intros Hup. unfold Redis.del, Redis.connected. mred. rewrite Hup. reflexivity. Qed.

Lemma getValue_reads key w :
  backendReady w -> fst (getValue key w) = Ok (readsAs w key).
Proof.
  unfold backendReady, getValue, readsAs, memGet, memDelete. mred.
  destruct (getStorage (env w)); intros Hr.
  - rewrite get_run by exact Hr. reflexivity.
  - destruct (inMemoryStorage (kv w) !! key) as [item|]; [|reflexivity].
    destruct (clock w >? expiresAt item); reflexivity.
Qed.

Lemma readsAs_set key v ttl w t key' :
  backendReady w -> 1 <= ttl ->
  readsAs (at_time t (snd (setWithExpiration key v ttl w))) key'
  = if decide (key' = key)
    then (if t <=? clock w + ttl * 1000 then Some v else None)
    else readsAs (at_time t w) key'.
Proof.
  unfold backendReady, setWithExpiration, readsAs, memSet. mred.
  destruct (getStorage (env w)) eqn:Hs; intros Hr Httl; simpl; rewrite ?Hs.
  - rewrite setEx_run by assumption. simpl. rewrite Hs. unfold Redis.lookup. simpl.
    destruct (decide (key' = key)) as [->|Hne].
    + rewrite lookup_insert_eq. unfold Redis.live. simpl.
      destruct (Z.ltb_spec (clock w + ttl * 1000) t), (Z.leb_spec t (clock w + ttl * 1000));
        try lia; reflexivity.
    + rewrite lookup_insert_ne by congruence. reflexivity.
  - simpl. rewrite ?Hs.
    destruct (decide (key' = key)) as [->|Hne].
    + rewrite lookup_insert_eq. simpl.
      destruct (Z.gtb_spec t (clock w + ttl * 1000)), (Z.leb_spec t (clock w + ttl * 1000));
        try lia; reflexivity.
    + rewrite lookup_insert_ne by congruence. reflexivity.
Qed.

Lemma setWithExpiration_ok key v ttl w :
  backendReady w -> 1 <= ttl -> fst (setWithExpiration key v ttl w) = Ok tt.
Proof.
  unfold backendReady, setWithExpiration, memSet. mred.
  destruct (getStorage (env w)); intros Hr Httl.
  - rewrite setEx_run by assumption. reflexivity.
  - reflexivity.
Qed.

Lemma deleteValue_ok key w : backendReady w -> fst (deleteValue key w) = Ok tt.
Proof.
  unfold backendReady, deleteValue, memDelete. mred.
  destruct (getStorage (env w)); intros Hr; [|reflexivity].
  rewrite del_run by assumption. reflexivity.
Qed.

Lemma readsAs_delete key w t key' :
  backendReady w ->
  readsAs (at_time t (snd (deleteValue key w))) key'
  = if decide (key' = key) then None else readsAs (at_time t w) key'.
Proof.
  unfold backendReady, deleteValue, readsAs, memDelete. mred.
  destruct (getStorage (env w)) eqn:Hs; intros Hr; simpl; rewrite ?Hs.
  - rewrite del_run by assumption. simpl. rewrite Hs. unfold Redis.lookup. simpl.
    destruct (decide (key' = key)) as [->|Hne].
    + rewrite lookup_delete_eq. reflexivity.
    + rewrite lookup_delete_ne by congruence. reflexivity.
  - simpl. rewrite ?Hs.
    destruct (decide (key' = key)) as [->|Hne].
    + rewrite lookup_delete_eq. reflexivity.
    + rewrite lookup_delete_ne by congruence. reflexivity.
Qed.

(** X1.  With the selected backend reachable and a time to live of at least one
    second, [setWithExpiration] succeeds; [getValue] of the key then returns
    the stored value at every time up to [ttl * 1000] ms after the write and
    null later, on either backend; reading another key is not affected; and
    after [deleteValue] the key reads null. *)
Theorem stored_value_lifetime key v ttl w t key' :
  backendReady w -> 1 <= ttl ->
  let w1 := snd (setWithExpiration key v ttl w) in
  fst (setWithExpiration key v ttl w) = Ok tt
  /\ fst (getValue key (at_time t w1))
     = Ok (if t <=? clock w + ttl * 1000 then Some v else None)
  /\ (key' <> key -> fst (getValue key' (at_time t w1)) = fst (getValue key' (at_time t w)))
  /\ fst (getValue key (at_time t (snd (deleteValue key w1)))) = Ok None.
Proof.
  intros Hr Httl w1.
  assert (Hr1 : backendReady w1)
    by (eapply backendReady_ext; [apply storesOnly_setWithExpiration | exact Hr]).
  split; [apply setWithExpiration_ok; assumption|].
  split; [|split].
  - rewrite getValue_reads by (apply backendReady_at_time; exact Hr1).
    unfold w1. rewrite readsAs_set by assumption. rewrite decide_True by reflexivity.
    reflexivity.
  - intros Hne.
    rewrite !getValue_reads by (apply backendReady_at_time; assumption).
    unfold w1. rewrite readsAs_set by assumption. rewrite decide_False by exact Hne.
    reflexivity.
  - rewrite getValue_reads
      by (apply backendReady_at_time; eapply backendReady_ext;
          [apply storesOnly_deleteValue | exact Hr1]).
    rewrite readsAs_delete by exact Hr1. rewrite decide_True by reflexivity. reflexivity.
Qed.

Lemma stored_value_lifetime_witness :
  let w := Sample.start Sample.env_memory false in
  fst (getValue "k" (at_time 61000 (snd (setWithExpiration "k" (Text "v") 60 w))))
  = Ok (Some (Text "v"))
  /\ fst (getValue "k" (at_time 61001 (snd (setWithExpiration "k" (Text "v") 60 w))))
     = Ok None.
Proof.
  assert (Hr : backendReady (Sample.start Sample.env_memory false)) by exact I.
  assert (Httl : 1 <= 60) by lia.
  split.
  - exact (proj1 (proj2 (stored_value_lifetime "k" (Text "v") 60 _ 61000 "k" Hr Httl))).
  - exact (proj1 (proj2 (stored_value_lifetime "k" (Text "v") 60 _ 61001 "k" Hr Httl))).
Defined.

End Store.

(* ===================================================================== *)
(** ** Sessions and [authenticate] *)
(* ===================================================================== *)

Section Sessions.
Import AuthUtils.

Lemma getSession_total tok w : exists r, fst (getSession tok w) = Ok r.
Proof. apply tryCatch_total. Qed.

Lemma getSession_reads tok w :
  backendReady w -> fst (getSession tok w) = Ok (sessionOf w tok).
Proof.
  intros Hr. unfold getSession, sessionOf, tryCatch. unfold bind at 1.
  pose proof (getValue_reads ("session:" +:+ tok) w Hr) as Hv.
  destruct (storesOnly_getValue ("session:" +:+ tok) w) as (_ & Hc & _).
  destruct (getValue ("session:" +:+ tok) w) as [[v|e] w1]; simpl in *; [|discriminate].
  injection Hv as <-.
  destruct v as [[[|c s]|[u x|?|?]]|]; try reflexivity.
  unfold Date_now. mred. rewrite Hc.
  destruct (x <? clock w); [|reflexivity].
  destruct (deleteValue _ w1) as [[[]|e] w2]; reflexivity.
Qed.

Lemma getSession_down tok w :
  getStorage (env w) = UseRedis -> redisUp (kv w) = false ->
  getSession tok w = (Ok None, w).
Proof.
  intros Hs Hup. unfold getSession, getValue, tryCatch. mred. rewrite Hs.
  rewrite get_down by exact Hup. reflexivity.
Qed.






(** Reading a valid session leaves the world as it is. *)
Lemma getSession_valid_pure tok w u :
  backendReady w -> fst (getSession tok w) = Ok (Some u) -> snd (getSession tok w) = w.
Proof.
  unfold backendReady, getSession, getValue, tryCatch, memGet, memDelete. mred.
  destruct (getStorage (env w)); intros Hr.
  - rewrite get_run by assumption. simpl.
    destruct (Redis.lookup w _) as [[[[|c s]|[u0 x|?|?]] ?]|]; simpl; try discriminate.
    destruct (x <? clock w); simpl; [|reflexivity].
    destruct (deleteValue _ w) as [[[]|e] w2]; discriminate.
  - destruct (inMemoryStorage (kv w) !! _) as [[[[|c s]|[u0 x|?|?]] ?]|]; simpl;
      try discriminate;
      try (match goal with |- context [clock w >? ?e] => destruct (clock w >? e) end;
           simpl; discriminate).
    match goal with |- context [clock w >? ?e] => destruct (clock w >? e) end;
      simpl; [discriminate|].
    destruct (x <? clock w); simpl; [|reflexivity].
    destruct (deleteValue _ w) as [[[]|e] w2]; discriminate.
Qed.

Lemma deleteSession_ok tok w : fst (deleteSession tok w) = Ok tt.
Proof.
  unfold deleteSession, tryCatch.
  destruct (deleteValue _ w) as [[[]|e] w1]; reflexivity.
Qed.

Lemma sessionOf_deleted tok w t tok' :
  backendReady w ->
  sessionOf (at_time t (snd (deleteSession tok w))) tok'
  = if decide (tok' = tok) then None else sessionOf (at_time t w) tok'.
Proof.
  intros Hr. unfold deleteSession, tryCatch.
  pose proof (deleteValue_ok ("session:" +:+ tok) w Hr) as Hok.
  pose proof (readsAs_delete ("session:" +:+ tok) w t ("session:" +:+ tok') Hr) as Hd.
  destruct (deleteValue _ w) as [[[]|e] w1]; simpl in *; [|discriminate].
  unfold sessionOf. rewrite Hd.
  destruct (decide (tok' = tok)) as [->|Hne].
  - rewrite decide_True by reflexivity. reflexivity.
  - rewrite decide_False; [reflexivity|].
    intros H. apply append_inj_r in H. contradiction.
Qed.

End Sessions.

Section Authenticate.
Import Middleware.

(** Writing the two session headers changes nothing, and succeeds exactly
    when [headersOk] says so. *)
Lemma sessionHeaders_run tok w :
  snd (sessionHeaders tok w) = w
  /\ (headersOk w tok = true -> fst (sessionHeaders tok w) = Ok tt)
  /\ (headersOk w tok = false -> exists e, fst (sessionHeaders tok w) = Throw e).
Proof.
  unfold sessionHeaders, headersOk, Date_toISOString, setHeader. mred.
  destruct (SESSION_MAX_AGE (env w)) as [d|]; simpl;
    [|split; [reflexivity|split; [discriminate|eauto]]].
  destruct (JS.validTime (clock w + d)); simpl;
    [|split; [reflexivity|split; [discriminate|eauto]]].
  destruct (JS.validHeaderValue tok); simpl;
    (split; [reflexivity|split; [auto; discriminate|intros; eauto; discriminate]]).
Qed.

Lemma headersOk_ext w w' tok : same_but_stores w w' -> headersOk w' tok = headersOk w tok.
Proof. intros (He & Hc & _). unfold headersOk. rewrite He, Hc. reflexivity. Qed.

Lemma authenticate_run req tok w r :
  presentedToken req = Some tok -> JS.truthyStr tok = true ->
  fst (AuthUtils.getSession tok w) = Ok r ->
  authenticate req w
  = (Ok match r with
        | Some u =>
            if headersOk w tok
            then Next (set_auth u (JS.orStr (sessionToken req) tok) req)
            else Done (respond 500
                         (ErrorBody 500 MsgAuthFailure (requestIdOrUnknown req) None))
        | None => Done (respond 401 (ErrorBody 401 MsgSessionInvalid (requestIdOrUnknown req) None))
        end, snd (AuthUtils.getSession tok w)).
Proof.
  intros Hp Ht Hg. unfold authenticate, tryCatch. rewrite Hp, Ht. unfold bind at 1.
  pose proof (headersOk_ext w _ tok (storesOnly_getSession tok w)) as Hext.
  destruct (AuthUtils.getSession tok w) as [[[u|]|e] w1]; simpl in *; try discriminate;
    injection Hg as <-; [|reflexivity].
  unfold bind.
  destruct (sessionHeaders_run tok w1) as (Hs & Hok & Hbad).
  destruct (sessionHeaders tok w1) as [[[]|e] w2]; simpl in *; subst w2.
  - destruct (headersOk w tok); [reflexivity|].
    destruct (Hbad Hext) as (e & He). discriminate He.
  - destruct (headersOk w tok); [|reflexivity].
    specialize (Hok Hext). discriminate Hok.
Qed.

Lemma authenticate_no_token req w :
  (forall tok, presentedToken req = Some tok -> JS.truthyStr tok = false) ->
  authenticate req w
  = (Ok (Done (respond 401 (ErrorBody 401 MsgNotLoggedIn (requestIdOrUnknown req) None))), w).
Proof.
  intros Hp. unfold authenticate, tryCatch.
  destruct (presentedToken req) as [tok|]; [|reflexivity].
  rewrite (Hp tok eq_refl). reflexivity.
Qed.

Lemma storesOnly_sessionHeaders tok : storesOnly (sessionHeaders tok).
Proof. unfold sessionHeaders, Date_toISOString, setHeader, Date_now. stores_only. Qed.

Lemma storesOnly_authenticate req : storesOnly (authenticate req).
Proof.
  unfold authenticate.
  repeat first [apply storesOnly_sessionHeaders | stores_step].
Qed.

(** X3.  What [authenticate] does with a request.  It calls [next] only
    with [req.user] set to the user [getSession] returns for the presented,
    non-empty token (and [req.sessionToken] kept or set to that token), and
    only when the two session headers can be written: [SESSION_MAX_AGE] is
    a number, [Date.now()] plus it is within the range of [Date], and the
    token is a header value.  It answers 401 only when no non-empty token
    is presented or the token has no session.  It answers 500 only when the
    token has a session and the headers cannot be written.  There is no
    other outcome. *)
Theorem authenticate_outcome req w :
  exists s, fst (authenticate req w) = Ok s
  /\ match s with
     | Next req' =>
         exists tok u,
           presentedToken req = Some tok /\ JS.truthyStr tok = true
           /\ fst (AuthUtils.getSession tok w) = Ok (Some u)
           /\ headersOk w tok = true
           /\ req' = set_auth u (JS.orStr (sessionToken req) tok) req
     | Done res =>
         (status res = 401
          /\ forall tok, presentedToken req = Some tok -> JS.truthyStr tok = true ->
                         fst (AuthUtils.getSession tok w) = Ok None)
         \/ (status res = 500
             /\ exists tok u,
                  presentedToken req = Some tok /\ JS.truthyStr tok = true
                  /\ fst (AuthUtils.getSession tok w) = Ok (Some u)
                  /\ headersOk w tok = false)
     end.
Proof.
  destruct (presentedToken req) as [tok|] eqn:Hp.
  - destruct (JS.truthyStr tok) eqn:Ht.
    + destruct (getSession_total tok w) as (r & Hr).
      rewrite (authenticate_run req tok w r Hp Ht Hr). cbn [fst].
      destruct r as [u|].
      * destruct (headersOk w tok) eqn:Hh; eexists; (split; [reflexivity|]).
        -- exists tok, u. auto.
        -- right. split; [reflexivity|]. exists tok, u. auto.
      * eexists; split; [reflexivity|]. left. split; [reflexivity|].
        intros tok' [= <-] _. exact Hr.
    + rewrite authenticate_no_token by (intros ? H; rewrite Hp in H; injection H as <-; exact Ht).
      eexists; split; [reflexivity|]. left. split; [reflexivity|].
      intros ? [= <-]. congruence.
  - rewrite authenticate_no_token by (intros ? H; rewrite Hp in H; discriminate H).
    eexists; split; [reflexivity|]. left. split; [reflexivity|]. intros ?; discriminate.
Qed.

(** X4.  When Redis is the selected backend and its client is not connected,
    [authenticate] answers 401 to every request, with or without a token,
    and the state is unchanged: [getSession] swallows the error and reports
    no session. *)
Theorem authenticate_store_down req w :
  AuthUtils.getStorage (env w) = AuthUtils.UseRedis -> redisUp (kv w) = false ->
  exists res, authenticate req w = (Ok (Done res), w) /\ status res = 401.
Proof.
  intros Hs Hup.
  destruct (presentedToken req) as [tok|] eqn:Hp.
  - destruct (JS.truthyStr tok) eqn:Ht.
    + pose proof (getSession_down tok w Hs Hup) as Hd.
      rewrite (authenticate_run req tok w None Hp Ht) by (rewrite Hd; reflexivity).
      rewrite Hd. eexists; split; reflexivity.
    + rewrite authenticate_no_token by (intros ? H; rewrite Hp in H; injection H as <-; exact Ht).
      eexists; split; reflexivity.
  - rewrite authenticate_no_token by (intros ? H; rewrite Hp in H; discriminate H).
    eexists; split; reflexivity.
Qed.

Lemma authenticate_store_down_witness :
  exists res,
    authenticate (Sample.request GET Root "/" Sample.noBody)
                 (Sample.loggedIn Sample.env_redis false)
    = (Ok (Done res), Sample.loggedIn Sample.env_redis false)
    /\ status res = 401.
Proof.
  apply (authenticate_store_down (Sample.request GET Root "/" Sample.noBody)
           (Sample.loggedIn Sample.env_redis false)); reflexivity.
Defined.

End Authenticate.

(* ===================================================================== *)
(** ** Logout, refresh and [optionalAuth] *)
(* ===================================================================== *)

Section AuthRoutes.
Import Middleware AuthUtils.

Lemma logout_run tok w : AuthService.logout tok w = (Ok tt, snd (deleteSession tok w)).
Proof.
  unfold AuthService.logout, tryCatch. pose proof (deleteSession_ok tok w) as H.
  destruct (deleteSession tok w) as [[[]|e] w1]; simpl in *; [reflexivity|discriminate].
Qed.

(** X5.  With the backend reachable, a request that carries the token of a
    live session through [authenticate] and the logout route, at a time
    when [authenticate] can write its two session headers, is answered
    204; from then on [authenticate] answers 401 for that token at any
    time, and the sessions of other tokens are as before. *)
Theorem logout_ends_session req tok u w t tok' :
  backendReady w ->
  presentedToken req = Some tok -> JS.truthyStr tok = true -> sessionToken req = None ->
  fst (getSession tok w) = Ok (Some u) ->
  headersOk w tok = true ->
  let r := andThen (authenticate req) Routes.logoutRoute w in
  (exists res, fst r = Ok res /\ status res = 204)
  /\ (exists res, fst (authenticate req (at_time t (snd r))) = Ok (Done res)
                  /\ status res = 401)
  /\ (tok' <> tok ->
      fst (getSession tok' (at_time t (snd r))) = fst (getSession tok' (at_time t w))).
Proof.
  intros Hr Hp Ht Hs Hg Hh r.
  assert (Hrun : r = (Ok (respond 204 Empty), snd (deleteSession tok w))).
  { unfold r, andThen. unfold bind at 1.
    rewrite (authenticate_run req tok w (Some u) Hp Ht Hg). rewrite Hh.
    rewrite (getSession_valid_pure tok w u Hr Hg). rewrite Hs.
    unfold Routes.logoutRoute, tryCatch, bind. cbn [sessionToken set_auth JS.orStr].
    rewrite Ht. rewrite logout_run. reflexivity. }
  rewrite Hrun. cbn [fst snd].
  assert (Hr2 : backendReady (at_time t (snd (deleteSession tok w)))).
  { apply backendReady_at_time.
    eapply backendReady_ext; [apply storesOnly_deleteSession | exact Hr]. }
  split; [eexists; split; reflexivity|]. split.
  - rewrite (authenticate_run req tok _ None Hp Ht).
    + eexists; split; reflexivity.
    + rewrite getSession_reads by exact Hr2.
      rewrite sessionOf_deleted by exact Hr. rewrite decide_True by reflexivity.
      reflexivity.
  - intros Hne. rewrite !getSession_reads by (try exact Hr2; apply backendReady_at_time, Hr).
    rewrite sessionOf_deleted by exact Hr. rewrite decide_False by exact Hne. reflexivity.
Qed.

Lemma logout_ends_session_witness :
  let w := Sample.loggedIn Sample.env_memory false in
  let req := Sample.request POST Root "/logout" Sample.noBody in
  let r := andThen (authenticate req) Routes.logoutRoute w in
  (exists res, fst r = Ok res /\ status res = 204)
  /\ (exists res, fst (authenticate req (at_time 2000 (snd r))) = Ok (Done res)
                  /\ status res = 401).
Proof.
  assert (Hr : backendReady (Sample.loggedIn Sample.env_memory false)) by exact I.
  pose proof (logout_ends_session (Sample.request POST Root "/logout" Sample.noBody)
                "sess-ann" Sample.ann _ 2000 "other" Hr eq_refl eq_refl eq_refl eq_refl
                eq_refl) as H.
  split; [exact (proj1 H) | exact (proj1 (proj2 H))].
Defined.



(** X7.  [optionalAuth] always calls [next]: with the request as it came, or
    with [req.user] and [req.sessionToken] set when the presented, non-empty
    token has a session. *)
Theorem optionalAuth_never_blocks req w :
  exists req',
    fst (optionalAuth req w) = Ok (Next req')
    /\ (req' = req
        \/ exists tok u, presentedToken req = Some tok /\ JS.truthyStr tok = true
                         /\ fst (getSession tok w) = Ok (Some u)
                         /\ req' = set_auth u tok req).
Proof.
  unfold optionalAuth, tryCatch.
  destruct (presentedToken req) as [tok|]; [|eexists; split; [reflexivity|left; reflexivity]].
  destruct (JS.truthyStr tok) eqn:Ht; [|eexists; split; [reflexivity|left; reflexivity]].
  unfold bind.
  destruct (getSession tok w) as [[[u|]|e] w1] eqn:Hg; cbn [fst ret].
  - eexists; split; [reflexivity|]. right. exists tok, u. rewrite Hg. auto.
  - eexists; split; [reflexivity|]. left; reflexivity.
  - eexists; split; [reflexivity|]. left; reflexivity.
Qed.

End AuthRoutes.

(* ===================================================================== *)
(** ** Password reset tokens and [forgotPassword] *)
(* ===================================================================== *)

Section PasswordReset.
Import AuthUtils.

Lemma getPasswordResetToken_reads tok w :
  backendReady w ->
  fst (getPasswordResetToken tok w)
  = Ok match readsAs w ("password-reset:" +:+ tok) with
       | Some (Json (JReset email x)) => if x <? clock w then None else Some (email, x)
       | _ => None
       end.
Proof.
  intros Hr. unfold getPasswordResetToken, tryCatch. unfold bind at 1.
  pose proof (getValue_reads ("password-reset:" +:+ tok) w Hr) as Hv.
  destruct (storesOnly_getValue ("password-reset:" +:+ tok) w) as (_ & Hc & _).
  destruct (getValue ("password-reset:" +:+ tok) w) as [[v|e] w1]; simpl in *; [|discriminate].
  injection Hv as <-.
  destruct v as [[[|c s]|[?|m x|?]]|]; try reflexivity.
  unfold Date_now. mred. rewrite Hc.
  destruct (x <? clock w); [|reflexivity].
  destruct (deleteValue _ w1) as [[[]|e] w2]; reflexivity.
Qed.

Lemma storesOnly_storePasswordResetToken email tok :
  storesOnly (storePasswordResetToken email tok).
Proof. unfold storePasswordResetToken, Date_now. stores_only. Qed.

Lemma storePasswordResetToken_run email tok w :
  backendReady w ->
  storePasswordResetToken email tok w
  = (Ok tt, snd (setWithExpiration ("password-reset:" +:+ tok)
                   (Json (JReset email (clock w + 60 * 60 * 1000))) 3600 w)).
Proof.
  intros Hr. unfold storePasswordResetToken. mred.
  match goal with |- context [setWithExpiration ?k ?v ?t w] =>
    pose proof (setWithExpiration_ok k v t w Hr ltac:(lia)) as H;
    destruct (setWithExpiration k v t w) as [[[]|e] w1] end; simpl in *;
    [reflexivity|discriminate].
Qed.

Lemma resetToken_stored email tok w t :
  backendReady w ->
  fst (getPasswordResetToken tok (at_time t (snd (storePasswordResetToken email tok w))))
  = Ok (if t <=? clock w + 3600000 then Some (email, clock w + 3600000) else None).
Proof.
  intros Hr.
  rewrite getPasswordResetToken_reads
    by (apply backendReady_at_time; eapply backendReady_ext;
        [apply storesOnly_storePasswordResetToken | exact Hr]).
  rewrite storePasswordResetToken_run by exact Hr. cbn [snd].
  rewrite readsAs_set by (try exact Hr; lia). rewrite decide_True by reflexivity.
  change (60 * 60 * 1000) with 3600000. change (3600 * 1000) with 3600000.
  destruct (Z.leb_spec t (clock w + 3600000)); [|reflexivity].
  cbn [clock at_time].
  destruct (Z.ltb_spec (clock w + 3600000) t); [lia|reflexivity].
Qed.

(** X8.  With the backend reachable, [storePasswordResetToken] succeeds;
    [getPasswordResetToken] then returns the e-mail and the expiry time, one
    hour after the write, up to that time and null later; after
    [deletePasswordResetToken] it returns null. *)
Theorem reset_token_lifetime email tok w t :
  backendReady w ->
  let w1 := snd (storePasswordResetToken email tok w) in
  fst (storePasswordResetToken email tok w) = Ok tt
  /\ fst (getPasswordResetToken tok (at_time t w1))
     = Ok (if t <=? clock w + 3600000 then Some (email, clock w + 3600000) else None)
  /\ fst (getPasswordResetToken tok (at_time t (snd (deletePasswordResetToken tok w1))))
     = Ok None.
Proof.
  intros Hr w1.
  assert (Hr1 : backendReady w1)
    by (eapply backendReady_ext; [apply storesOnly_storePasswordResetToken | exact Hr]).
  split; [rewrite storePasswordResetToken_run by exact Hr; reflexivity|].
  split; [apply resetToken_stored; exact Hr|].
  unfold deletePasswordResetToken, tryCatch.
  pose proof (deleteValue_ok ("password-reset:" +:+ tok) w1 Hr1) as Hok.
  pose proof (readsAs_delete ("password-reset:" +:+ tok) w1 t
                ("password-reset:" +:+ tok) Hr1) as Hd.
  pose proof (storesOnly_deleteValue ("password-reset:" +:+ tok) w1) as Hk.
  destruct (deleteValue _ w1) as [[[]|e] w2]; simpl in *; [|discriminate].
  rewrite getPasswordResetToken_reads
    by (apply backendReady_at_time; eapply backendReady_ext; [exact Hk | exact Hr1]).
  rewrite Hd, decide_True by reflexivity. reflexivity.
Qed.

Lemma reset_token_lifetime_witness :
  let w := Sample.start Sample.env_redis true in
  let w1 := snd (storePasswordResetToken "ann@example.com" "r1" w) in
  fst (getPasswordResetToken "r1" (at_time 3601000 w1))
  = Ok (Some ("ann@example.com", 3601000))
  /\ fst (getPasswordResetToken "r1" (at_time 3601001 w1)) = Ok None.
Proof.
  assert (Hr : backendReady (Sample.start Sample.env_redis true)) by reflexivity.
  split.
  - exact (proj1 (proj2 (reset_token_lifetime "ann@example.com" "r1" _ 3601000 Hr))).
  - exact (proj1 (proj2 (reset_token_lifetime "ann@example.com" "r1" _ 3601001 Hr))).
Defined.

End PasswordReset.

Section ForgotPassword.
Import AuthUtils AuthService.

Lemma user_findUnique_run email w :
  dbUp (db w) = true ->
  Prisma.user_findUnique email w
  = (Ok (List.find (fun iu => String.eqb (u_email iu.2) email)
                   (map_to_list (users (db w)))), w).
Proof. intros Hup. unfold Prisma.user_findUnique, Prisma.connected. mred. rewrite Hup. reflexivity. Qed.

Lemma find_account email (us : gmap string DbUser) :
  (exists uid doc, us !! uid = Some doc /\ u_email doc = email)
  <-> is_Some (List.find (fun iu : string * DbUser => String.eqb (u_email iu.2) email)
                         (map_to_list us)).
Proof.
  split.
  - intros (uid & doc & Hl & He).
    destruct (List.find _ _) eqn:Hf; [eauto|exfalso].
    eapply find_none in Hf; [|apply list_elem_of_In, elem_of_map_to_list; exact Hl].
    simpl in Hf. rewrite He, String.eqb_refl in Hf. discriminate.
  - intros [[uid doc] Hf]. apply find_some in Hf as [Hin He].
    exists uid, doc. split.
    + apply elem_of_map_to_list, list_elem_of_In. exact Hin.
    + simpl in He. apply String.eqb_eq. exact He.
Qed.

(** X9.  [forgotPassword] with the database up.  For an e-mail no account
    has, it returns and nothing changes.  For the e-mail of an account (the
    backend and the mail transport reachable) it returns, leaves the
    database as it was, sends exactly one mail, to that address, with the
    link [FRONTEND_URL/reset-password?token=...], and the token resolves to
    the e-mail for one hour. *)
Theorem forgotPassword_effect tok email w :
  dbUp (db w) = true ->
  ((forall uid doc, users (db w) !! uid = Some doc -> u_email doc <> email) ->
   forgotPassword tok email w = (Ok tt, w))
  /\ ((exists uid doc, users (db w) !! uid = Some doc /\ u_email doc = email) ->
      backendReady w -> mailUp (out w) = true ->
      let r := forgotPassword tok email w in
      fst r = Ok tt
      /\ db (snd r) = db w
      /\ outbox (out (snd r))
         = (outbox (out w)
            ++ [{| to := email; subject := "password reset";
                   resetUrl := default "undefined" (FRONTEND_URL (env w))
                               +:+ "/reset-password?token=" +:+ tok |}])%list
      /\ forall t, t <= clock w + 3600000 ->
           fst (getPasswordResetToken tok (at_time t (snd r)))
           = Ok (Some (email, clock w + 3600000))).
Proof.
  intros Hup. split.
  - intros Hnone. unfold forgotPassword. unfold bind at 1.
    rewrite user_findUnique_run by exact Hup.
    destruct (List.find _ _) as [[uid doc]|] eqn:Hf; [exfalso|reflexivity].
    assert (Hs : is_Some (List.find (fun iu : string * DbUser => String.eqb (u_email iu.2) email)
                            (map_to_list (users (db w))))) by (rewrite Hf; eauto).
    apply find_account in Hs as (uid' & doc' & Hl & He). exact (Hnone _ _ Hl He).
  - intros Hsome Hr Hmail r.
    apply find_account in Hsome as [[uid doc] Hf].
    pose proof (storesOnly_storePasswordResetToken email tok w) as (He & Hc & Hdb & Hout & _).
    pose proof (resetToken_stored email tok w) as Hget.
    assert (Hrun : r = (Ok tt,
              with_out (fun o => set_outbox (outbox o ++ [{| to := email;
                   subject := "password reset";
                   resetUrl := default "undefined" (FRONTEND_URL (env w))
                               +:+ "/reset-password?token=" +:+ tok |}]) o)
                (snd (storePasswordResetToken email tok w)))).
    { unfold r, forgotPassword. unfold bind at 1.
      rewrite user_findUnique_run by exact Hup. rewrite Hf.
      unfold bind at 1. rewrite storePasswordResetToken_run by exact Hr.
      rewrite storePasswordResetToken_run in He, Hout by exact Hr. cbn [snd] in *.
      unfold sendEmail. mred. rewrite He, Hout, Hmail. reflexivity. }
    rewrite Hrun. cbn [fst snd]. split; [reflexivity|]. split; [exact Hdb|].
    split; [cbn [out with_out outbox set_outbox]; rewrite Hout; reflexivity|].
    intros t Ht. specialize (Hget t Hr).
    destruct (Z.leb_spec t (clock w + 3600000)); [|lia].
    rewrite <- Hget.
    assert (Hr1 : backendReady (snd (storePasswordResetToken email tok w)))
      by (eapply backendReady_ext; [apply storesOnly_storePasswordResetToken | exact Hr]).
    rewrite !getPasswordResetToken_reads by exact Hr1. reflexivity.
Qed.

Lemma forgotPassword_effect_witness :
  let w := Sample.start Sample.env_redis true in
  forgotPassword "r1" "nobody@example.com" w = (Ok tt, w)
  /\ fst (getPasswordResetToken "r1"
            (at_time 2000 (snd (forgotPassword "r1" "ann@example.com" w))))
     = Ok (Some ("ann@example.com", 3601000)).
Proof.
  assert (Hr : backendReady (Sample.start Sample.env_redis true)) by reflexivity.
  split.
  - apply (proj1 (forgotPassword_effect "r1" "nobody@example.com"
                    (Sample.start Sample.env_redis true) eq_refl)).
    intros uid doc H.
    change (users (db (Sample.start Sample.env_redis true)))
      with ({[ Sample.annId := Sample.annDoc; Sample.bobId := Sample.bobDoc ]}
            : gmap string DbUser) in H.
    apply lookup_insert_Some in H as [[_ <-]|[_ H]]; [discriminate|].
    apply lookup_singleton_Some in H as [_ <-]. discriminate.
  - apply (proj2 (forgotPassword_effect "r1" "ann@example.com"
                    (Sample.start Sample.env_redis true) eq_refl)).
    + exists Sample.annId, Sample.annDoc. split; reflexivity.
    + exact Hr.
    + reflexivity.
    + vm_compute; discriminate.
Defined.

End ForgotPassword.

(* ===================================================================== *)
(** ** Which keys a computation writes *)
(* ===================================================================== *)

Section Frames.
Variables rk mk : string -> Prop.

Lemma same_but_keys_refl w : same_but_keys rk mk w w.
Proof. split; [repeat split|]. split; reflexivity. Qed.

Lemma same_but_keys_trans w1 w2 w3 :
  same_but_keys rk mk w1 w2 -> same_but_keys rk mk w2 w3 -> same_but_keys rk mk w1 w3.
Proof.
  intros ((E1 & C1 & U1) & R1 & M1) ((E2 & C2 & U2) & R2 & M2).
  split; [repeat split; congruence|].
  split; intros k Hk; [rewrite R2, R1 by exact Hk | rewrite M2, M1 by exact Hk]; reflexivity.
Qed.

Lemma writesOnly_ret {A} (a : A) : writesOnly rk mk (ret a).
Proof. intros w. apply same_but_keys_refl. Qed.

Lemma writesOnly_throw {A} e : writesOnly rk mk (@throw A e).
Proof. intros w. apply same_but_keys_refl. Qed.

Lemma writesOnly_gets {A} (f : World -> A) : writesOnly rk mk (gets f).
Proof. intros w. apply same_but_keys_refl. Qed.

Lemma writesOnly_bind_val {A B} (Q : A -> Prop) (m : M A) (k : A -> M B) :
  writesOnly rk mk m ->
  (forall w a w1, m w = (Ok a, w1) -> Q a) ->
  (forall a, Q a -> writesOnly rk mk (k a)) ->
  writesOnly rk mk (bind m k).
Proof.
  intros Hm HQ Hk w. unfold bind. specialize (Hm w). specialize (HQ w).
  destruct (m w) as [[a|e] w1]; simpl in *; [|exact Hm].
  eapply same_but_keys_trans; [exact Hm | apply Hk; eapply HQ; reflexivity].
Qed.

Lemma writesOnly_bind {A B} (m : M A) (k : A -> M B) :
  writesOnly rk mk m -> (forall a, writesOnly rk mk (k a)) -> writesOnly rk mk (bind m k).
Proof.
  intros Hm Hk. apply (writesOnly_bind_val (fun _ => True)); auto.
Qed.

Lemma writesOnly_tryCatch {A} (m : M A) (h : Err -> M A) :
  writesOnly rk mk m -> (forall e, writesOnly rk mk (h e)) -> writesOnly rk mk (tryCatch m h).
Proof.
  intros Hm Hh w. unfold tryCatch. specialize (Hm w).
  destruct (m w) as [[a|e] w1]; simpl in *; [exact Hm|].
  eapply same_but_keys_trans; [exact Hm | apply Hh].
Qed.

Lemma writesOnly_connected : writesOnly rk mk Redis.connected.
Proof. intros w. unfold Redis.connected. destruct (redisUp (kv w)); apply same_but_keys_refl. Qed.

Lemma writesOnly_stats f : writesOnly rk mk (AuthUtils.setStats f).
Proof. intros w. split; [repeat split|]. split; reflexivity. Qed.

Lemma writesOnly_put k e : rk k -> writesOnly rk mk (Redis.put k e).
Proof.
  intros Hk w. split; [repeat split|]. split; [|reflexivity].
  intros k' Hk'. cbn. apply lookup_insert_ne. intros ->. contradiction.
Qed.

Lemma writesOnly_redis_delete k :
  rk k ->
  writesOnly rk mk (modify (fun w => with_kv (set_redisDb (delete k (redisDb (kv w)))) w)).
Proof.
  intros Hk w. split; [repeat split|]. split; [|reflexivity].
  intros k' Hk'. cbn. apply lookup_delete_ne. intros ->. contradiction.
Qed.

Lemma writesOnly_memSet k e : mk k -> writesOnly rk mk (AuthUtils.memSet k e).
Proof.
  intros Hk w. split; [repeat split|]. split; [reflexivity|].
  intros k' Hk'. cbn. apply lookup_insert_ne. intros ->. contradiction.
Qed.

Lemma writesOnly_db f : writesOnly rk mk (modify (with_db f)).
Proof. intros w. split; [repeat split|]. split; reflexivity. Qed.

Lemma writesOnly_out f : writesOnly rk mk (modify (with_out f)).
Proof. intros w. split; [repeat split|]. split; reflexivity. Qed.

Lemma writesOnly_prisma : writesOnly rk mk Prisma.connected.
Proof. intros w. unfold Prisma.connected. destruct (dbUp (db w)); apply same_but_keys_refl. Qed.

Lemma writesOnly_memDelete k : mk k -> writesOnly rk mk (AuthUtils.memDelete k).
Proof.
  intros Hk w. split; [repeat split|]. split; [reflexivity|].
  intros k' Hk'. cbn. apply lookup_delete_ne. intros ->. contradiction.
Qed.

End Frames.

Ltac writes_step :=
  first
    [ apply writesOnly_ret | apply writesOnly_throw | apply writesOnly_gets
    | apply writesOnly_connected | apply writesOnly_stats
    | apply writesOnly_db | apply writesOnly_out | apply writesOnly_prisma
    | apply writesOnly_put; try assumption; try reflexivity
    | apply writesOnly_redis_delete; try assumption; try reflexivity
    | apply writesOnly_memSet; try assumption; try reflexivity
    | apply writesOnly_memDelete; try assumption; try reflexivity
    | apply writesOnly_bind; [|intro]
    | apply writesOnly_tryCatch; [|intro]
    | match goal with
      | |- writesOnly _ _ (match ?x with _ => _ end) => destruct x
      | |- writesOnly _ _ (if ?x then _ else _) => destruct x
      end ].

Ltac writes_only := repeat writes_step.

Section StoreFrames.
Import AuthUtils.

Lemma writesOnly_weaken {A} (rk mk rk' mk' : string -> Prop) (m : M A) :
  (forall k, rk k -> rk' k) -> (forall k, mk k -> mk' k) ->
  writesOnly rk mk m -> writesOnly rk' mk' m.
Proof.
  intros Hr Hm H w. destruct (H w) as (Hs & R & M). split; [exact Hs|].
  split; intros k Hk; [apply R | apply M]; auto.
Qed.

Lemma writesOnly_setWithExpiration key v ttl :
  writesOnly (eq key) (eq key) (setWithExpiration key v ttl).
Proof. unfold setWithExpiration, Redis.setEx, Date_now. writes_only. Qed.

Lemma writesOnly_getValue key : writesOnly (eq key) (eq key) (getValue key).
Proof. unfold getValue, Redis.get, memGet, Date_now. writes_only. Qed.

Lemma writesOnly_deleteValue key : writesOnly (eq key) (eq key) (deleteValue key).
Proof. unfold deleteValue, Redis.del. writes_only. Qed.

Lemma writesOnly_checkRateLimit key limit windowMs :
  writesOnly (eq ("rate-limit:" +:+ key)) (eq key) (checkRateLimit key limit windowMs).
Proof.
  unfold checkRateLimit, Redis.incr, Redis.expire, memGet, Date_now. writes_only.
Qed.

Lemma writesOnly_resetRateLimit key :
  writesOnly (eq ("rate-limit:" +:+ key)) (eq key) (resetRateLimit key).
Proof. unfold resetRateLimit, Redis.del. writes_only. Qed.

End StoreFrames.

(* ===================================================================== *)
(** ** The rate limiter: failures and statistics *)
(* ===================================================================== *)

Section RateLimiterMore.
Import AuthUtils.

#[local] Arguments Redis.asInteger : simpl never.
#[local] Arguments JS.parseInt : simpl never.
#[local] Arguments JS.toString : simpl never.

Lemma keepsStats_incr k : keepsStats (Redis.incr k).
Proof.
  intros w. unfold Redis.incr, Redis.connected, Redis.put. mred.
  destruct (redisUp (kv w)); [|reflexivity].
  destruct (Redis.lookup w k) as [e|]; [|reflexivity].
  destruct (Redis.asInteger (rval e)); reflexivity.
Qed.

Lemma keepsStats_expire k s : keepsStats (Redis.expire k s).
Proof.
  intros w. unfold Redis.expire, Redis.connected, Redis.put. mred.
  destruct (redisUp (kv w)); [|reflexivity].
  destruct (Redis.lookup w k) as [e|]; [|reflexivity].
  destruct (s <=? 0); reflexivity.
Qed.

(** What the handler of [checkRateLimit] does with an error. *)
Lemma checkRateLimit_handler w1 :
  let strict := bool_decide (NODE_ENV (env w1) = Some "production")
                && bool_decide (RATE_LIMIT_STRICT_MODE (env w1) = Some "true") in
  (run setStats incFailures in
   let* e := gets env in
   let strictMode := bool_decide (RATE_LIMIT_STRICT_MODE e = Some "true") in
   if bool_decide (NODE_ENV e = Some "production") && strictMode
   then run setStats incBlocked in ret false
   else ret true) w1
  = (Ok (negb strict),
     with_kv (fun k => set_rateLimitStats
                         {| total := total (rateLimitStats k);
                            blocked := blocked (rateLimitStats k) + (if strict then 1 else 0);
                            failures := failures (rateLimitStats k) + 1 |} k) w1).
Proof.
  cbv zeta. unfold setStats. mred. cbn [env with_kv].
  destruct (_ && _); cbn.
  - reflexivity.
  - unfold with_kv, set_rateLimitStats, incFailures. cbn.
    do 3 f_equal. rewrite Z.add_0_r. reflexivity.
Qed.


Lemma incr_down k w : redisUp (kv w) = false -> Redis.incr k w = (Throw RedisError, w).
Proof. intros Hup. unfold Redis.incr, Redis.connected. mred. rewrite Hup. reflexivity. Qed.

Lemma checkRateLimit_down key limit windowMs w :
  getStorage (env w) = UseRedis -> redisUp (kv w) = false ->
  let strict := bool_decide (NODE_ENV (env w) = Some "production")
                && bool_decide (RATE_LIMIT_STRICT_MODE (env w) = Some "true") in
  checkRateLimit key limit windowMs w
  = (Ok (negb strict),
     with_kv (fun k => set_rateLimitStats
                         {| total := total (rateLimitStats k) + 1;
                            blocked := blocked (rateLimitStats k) + (if strict then 1 else 0);
                            failures := failures (rateLimitStats k) + 1 |} k) w).
Proof.
  intros Hs Hup. cbv zeta. unfold checkRateLimit.
  run_pure. erewrite tryCatch_err; cycle 1.
  { run_pure. cbn [env with_kv]. rewrite Hs.
    erewrite bind_err by (apply incr_down; exact Hup). reflexivity. }
  rewrite checkRateLimit_handler. reflexivity.
Qed.

(** X10.  When Redis is the selected backend and its client is not connected,
    [checkRateLimit] allows the call unless [NODE_ENV] is production and
    [RATE_LIMIT_STRICT_MODE] is true, in which case it refuses; it counts
    one failure and leaves the Redis data alone.  The [rateLimit]
    middleware accordingly passes the request on, or answers 429. *)
Theorem rate_limiter_store_down key limit windowMs w :
  getStorage (env w) = UseRedis -> redisUp (kv w) = false ->
  let strict := bool_decide (NODE_ENV (env w) = Some "production")
                && bool_decide (RATE_LIMIT_STRICT_MODE (env w) = Some "true") in
  let r := checkRateLimit key limit windowMs w in
  fst r = Ok (negb strict)
  /\ failures (rateLimitStats (kv (snd r))) = failures (rateLimitStats (kv w)) + 1
  /\ redisDb (kv (snd r)) = redisDb (kv w)
  /\ forall lim win req,
       fst (Middleware.rateLimit lim win req w)
       = Ok (if strict
             then Done (respond 429 (ErrorBody 429 MsgTooManyRequests
                                       (Middleware.requestIdOrUnknown req) None))
             else Next req).
Proof.
  intros Hs Hup strict r. unfold r.
  rewrite checkRateLimit_down by assumption. fold strict.
  split; [reflexivity|]. split; [reflexivity|]. split; [reflexivity|].
  intros lim win req. unfold Middleware.rateLimit, tryCatch, bind, gets. cbn beta.
  rewrite checkRateLimit_down by assumption. fold strict.
  destruct strict; reflexivity.
Qed.

Lemma rate_limiter_store_down_witness :
  let w := Sample.start Sample.env_redis false in
  fst (checkRateLimit "k" 1 60000 w) = Ok true
  /\ fst (Middleware.rateLimit (Some 1) (Some 60000)
            (Sample.request POST Root "/" Sample.noBody) w)
     = Ok (Next (Sample.request POST Root "/" Sample.noBody)).
Proof.
  pose proof (rate_limiter_store_down "k" 1 60000 (Sample.start Sample.env_redis false)
                eq_refl eq_refl) as H.
  split; [exact (proj1 H) | exact (proj2 (proj2 (proj2 H)) _ _ _)].
Defined.

(** X11.  [checkRateLimit] never throws.  Each call adds one to [total], adds
    one to [blocked] exactly when it refuses, adds at most one to
    [failures], and changes nothing besides the stores and these
    statistics. *)
Theorem checkRateLimit_accounting key limit windowMs w :
  let r := checkRateLimit key limit windowMs w in
  let s := rateLimitStats (kv w) in
  let s' := rateLimitStats (kv (snd r)) in
  exists allowed,
    fst r = Ok allowed
    /\ total s' = total s + 1
    /\ blocked s' = blocked s + (if allowed then 0 else 1)
    /\ (failures s' = failures s \/ failures s' = failures s + 1)
    /\ same_but_stores w (snd r).
Proof.
  cbv zeta.
  assert (Hst := storesOnly_checkRateLimit key limit windowMs w).
  revert Hst. generalize (same_but_stores w). intros P.
  unfold checkRateLimit. run_pure.
  set (w0 := with_kv _ w).
  assert (H0 : rateLimitStats (kv w0) = incTotal (rateLimitStats (kv w))) by reflexivity.
  clearbody w0.
  (* what the body does to the statistics *)
  match goal with |- context [tryCatch ?b ?h w0] => set (body := b); set (handler := h) end.
  assert (Hbody : match body w0 with
                  | (Ok true, w1) | (Throw _, w1) =>
                      rateLimitStats (kv w1) = rateLimitStats (kv w0)
                  | (Ok false, w1) =>
                      rateLimitStats (kv w1) = incBlocked (rateLimitStats (kv w0))
                  end).
  { unfold body. run_pure. destruct (getStorage (env w0)).
    - pose proof (keepsStats_incr ("rate-limit:" +:+ key) w0) as Hi.
      destruct (Redis.incr _ w0) as [[cur|e] w1] eqn:E; run_with E; [|exact Hi].
      cbn [snd] in Hi.
      assert (Hx : exists r2 w2,
                 (if cur =? 1
                  then run Redis.expire ("rate-limit:" +:+ key) (windowMs / 1000) in ret tt
                  else ret tt) w1 = (r2, w2)
                 /\ rateLimitStats (kv w2) = rateLimitStats (kv w1)).
      { destruct (cur =? 1); [|eexists _, _; split; reflexivity].
        pose proof (keepsStats_expire ("rate-limit:" +:+ key) (windowMs / 1000) w1) as Hx.
        destruct (Redis.expire _ _ w1) as [[b|e] w2] eqn:E2; run_with E2;
          eexists _, _; (split; [reflexivity|exact Hx]). }
      destruct Hx as ([[]|e] & w2 & Ex & Hx); run_with Ex; [|congruence].
      destruct (cur <=? limit); unfold setStats; mred; cbn; congruence.
    - unfold memGet, memSet. mred.
      destruct (inMemoryStorage (kv w0) !! key) as [item|]; [|reflexivity].
      destruct (clock w0 >? expiresAt item); [reflexivity|].
      destruct (leNum _ limit); reflexivity. }
  destruct (body w0) as [[[|]|e] w1] eqn:Eb; run_with Eb; cbn [fst snd]; intros HP.
  - exists true. rewrite Hbody, H0. cbn. repeat split; auto; lia.
  - exists false. rewrite Hbody, H0. cbn. repeat split; auto; lia.
  - unfold handler in *. rewrite checkRateLimit_handler in *. cbn [fst snd] in *.
    eexists. split; [reflexivity|]. cbn. rewrite Hbody, H0. cbn.
    destruct (_ && _); cbn; repeat split; auto; lia.
Qed.

End RateLimiterMore.

(* ===================================================================== *)
(** ** What a computation can see of the stores *)
(* ===================================================================== *)

Section Respects.
Variable R : World -> World -> Prop.

Lemma respects_ret {A} (a : A) : respects R (ret a).
Proof. intros w1 w2 H. auto. Qed.

Lemma respects_throw {A} e : respects R (@throw A e).
Proof. intros w1 w2 H. auto. Qed.

Lemma respects_gets {A} (f : World -> A) :
  (forall w1 w2, R w1 w2 -> f w1 = f w2) -> respects R (gets f).
Proof. intros Hf w1 w2 H. unfold gets; simpl. rewrite (Hf _ _ H). auto. Qed.

Lemma respects_modify (f : World -> World) :
  (forall w1 w2, R w1 w2 -> R (f w1) (f w2)) -> respects R (modify f).
Proof. intros Hf w1 w2 H. unfold modify; simpl. auto. Qed.

Lemma respects_bind {A B} (m : M A) (k : A -> M B) :
  respects R m -> (forall a, respects R (k a)) -> respects R (bind m k).
Proof.
  intros Hm Hk w1 w2 H. unfold bind. destruct (Hm _ _ H) as (Hr & Hw).
  destruct (m w1) as [[a|e] w1'], (m w2) as [[a'|e'] w2']; simpl in *; try discriminate.
  - injection Hr as <-. apply Hk. exact Hw.
  - injection Hr as <-. auto.
Qed.

Lemma respects_tryCatch {A} (m : M A) (h : Err -> M A) :
  respects R m -> (forall e, respects R (h e)) -> respects R (tryCatch m h).
Proof.
  intros Hm Hh w1 w2 H. unfold tryCatch. destruct (Hm _ _ H) as (Hr & Hw).
  destruct (m w1) as [[a|e] w1'], (m w2) as [[a'|e'] w2']; simpl in *; try discriminate.
  - auto.
  - injection Hr as <-. apply Hh. exact Hw.
Qed.

End Respects.

Ltac respects_step :=
  first
    [ apply respects_ret | apply respects_throw
    | apply respects_bind; [|intro]
    | apply respects_tryCatch; [|intro]
    | match goal with
      | |- respects _ (match ?x with _ => _ end) => destruct x
      | |- respects _ (if ?x then _ else _) => destruct x
      end ].

Section SameAt.
Import AuthUtils.
Variables rk mk : string.

Lemma sameAt_connected : respects (sameAt rk mk) Redis.connected.
Proof.
  intros w1 w2 H. pose proof H as (He & Hc & Hu & Hr & Hm).
  unfold Redis.connected. rewrite Hu.
  destruct (redisUp (kv w1)); simpl; split; auto.
Qed.

Lemma sameAt_lookup : respects (sameAt rk mk) (gets (fun w => Redis.lookup w rk)).
Proof.
  apply respects_gets. intros w1 w2 (He & Hc & Hu & Hr & Hm).
  unfold Redis.lookup. rewrite Hr, Hc. reflexivity.
Qed.

Lemma sameAt_read : respects (sameAt rk mk) (gets (fun w => rval <$> Redis.lookup w rk)).
Proof.
  apply respects_gets. intros w1 w2 (He & Hc & Hu & Hr & Hm).
  unfold Redis.lookup. rewrite Hr, Hc. reflexivity.
Qed.

Lemma sameAt_put e : respects (sameAt rk mk) (Redis.put rk e).
Proof.
  apply respects_modify. intros w1 w2 (He & Hc & Hu & Hr & Hm).
  repeat split; auto. cbn. rewrite !lookup_insert_eq. reflexivity.
Qed.

Lemma sameAt_delete :
  respects (sameAt rk mk)
    (modify (fun w => with_kv (set_redisDb (delete rk (redisDb (kv w)))) w)).
Proof.
  apply respects_modify. intros w1 w2 (He & Hc & Hu & Hr & Hm).
  repeat split; auto. cbn. rewrite !lookup_delete_eq. reflexivity.
Qed.

Lemma sameAt_now : respects (sameAt rk mk) Date_now.
Proof. apply respects_gets. intros w1 w2 (He & Hc & _). symmetry. exact Hc. Qed.

Lemma sameAt_env {A} (f : Env -> A) : respects (sameAt rk mk) (gets (fun w => f (env w))).
Proof. apply respects_gets. intros w1 w2 (He & _). rewrite He. reflexivity. Qed.

Lemma sameAt_stats f : respects (sameAt rk mk) (setStats f).
Proof. apply respects_modify. intros w1 w2 (He & Hc & Hu & Hr & Hm). repeat split; auto. Qed.

Lemma sameAt_memGet : respects (sameAt rk mk) (memGet mk).
Proof.
  apply respects_gets. intros w1 w2 (He & Hc & Hu & Hr & Hm). symmetry. exact Hm.
Qed.

Lemma sameAt_memSet e : respects (sameAt rk mk) (memSet mk e).
Proof.
  apply respects_modify. intros w1 w2 (He & Hc & Hu & Hr & Hm).
  repeat split; auto. cbn. rewrite !lookup_insert_eq. reflexivity.
Qed.

Lemma sameAt_memDelete : respects (sameAt rk mk) (memDelete mk).
Proof.
  apply respects_modify. intros w1 w2 (He & Hc & Hu & Hr & Hm).
  repeat split; auto. cbn. rewrite !lookup_delete_eq. reflexivity.
Qed.

End SameAt.

Ltac same_step :=
  first
    [ apply sameAt_connected | apply sameAt_lookup | apply sameAt_read | apply sameAt_put
    | apply sameAt_delete | apply sameAt_now | apply sameAt_stats
    | apply sameAt_memGet | apply sameAt_memSet | apply sameAt_memDelete
    | apply (sameAt_env _ _ AuthUtils.getStorage)
    | apply (sameAt_env _ _ (fun e => e))
    | apply (sameAt_env _ _ SESSION_MAX_AGE)
    | respects_step ].

Section SameAtStore.
Import AuthUtils.

Lemma sameAt_checkRateLimit key limit windowMs :
  respects (sameAt ("rate-limit:" +:+ key) key) (checkRateLimit key limit windowMs).
Proof.
  unfold checkRateLimit, Redis.incr, Redis.expire. repeat same_step.
Qed.

Lemma sameAt_resetRateLimit key :
  respects (sameAt ("rate-limit:" +:+ key) key) (resetRateLimit key).
Proof. unfold resetRateLimit, Redis.del. repeat same_step. Qed.

Lemma sameAt_getValue key : respects (sameAt key key) (getValue key).
Proof. unfold getValue, Redis.get. repeat same_step. Qed.

Lemma sameAt_deleteValue key : respects (sameAt key key) (deleteValue key).
Proof. unfold deleteValue, Redis.del. repeat same_step. Qed.

Lemma sameAt_setWithExpiration key v ttl :
  respects (sameAt key key) (setWithExpiration key v ttl).
Proof. unfold setWithExpiration, Redis.setEx. repeat same_step. Qed.

Lemma sameAt_getSession tok :
  respects (sameAt ("session:" +:+ tok) ("session:" +:+ tok)) (getSession tok).
Proof.
  unfold getSession. repeat same_step;
    first [apply sameAt_getValue | apply sameAt_deleteValue].
Qed.

Lemma sameAt_validateCSRFToken x tok mk :
  respects (sameAt ("csrf:" +:+ tok) mk) (validateCSRFToken x tok).
Proof. unfold validateCSRFToken, Redis.get. repeat same_step. Qed.

(** Writing other keys leaves the two worlds the same at a key. *)
Lemma sameAt_frame (rk mk : string -> Prop) k k' w w' :
  same_but_keys rk mk w w' -> ~ rk k -> ~ mk k' -> sameAt k k' w w'.
Proof.
  intros ((He & Hc & Hu) & R & M) Hr Hm.
  split; [exact He|]. split; [exact Hc|]. split; [exact Hu|]. split; [apply R | apply M]; auto.
Qed.

End SameAtStore.

(* ===================================================================== *)
(** ** The rate limiter: one window per key *)
(* ===================================================================== *)

Section RateLimiterKeys.
Import AuthUtils.

#[local] Arguments Redis.asInteger : simpl never.
#[local] Arguments JS.parseInt : simpl never.
#[local] Arguments JS.toString : simpl never.

Lemma counter_ext w w' key :
  sameAt ("rate-limit:" +:+ key) key w w' ->
  counter w' key = counter w key /\ windowOpen w' key = windowOpen w key.
Proof.
  intros (He & Hc & _ & Hr & Hm). unfold counter, windowOpen, Redis.lookup.
  rewrite He, Hc, Hr, Hm. auto.
Qed.

Lemma sameWindow_frame w w' key key' :
  same_but_keys (eq ("rate-limit:" +:+ key)) (eq key) w w' -> key' <> key ->
  sameAt ("rate-limit:" +:+ key') key' w w'.
Proof.
  intros H Hne. eapply sameAt_frame; [exact H| |congruence].
  intros E. apply append_inj_r in E. congruence.
Qed.

(** X12.  A call of [checkRateLimit] for one key leaves the counter and the
    window of every other key as they were, and a later check of another
    key answers as it would have without that call. *)
Theorem rate_limit_keys_independent key key' limit windowMs w :
  key' <> key ->
  let w1 := snd (checkRateLimit key limit windowMs w) in
  counter w1 key' = counter w key'
  /\ windowOpen w1 key' = windowOpen w key'
  /\ forall limit' windowMs',
       fst (checkRateLimit key' limit' windowMs' w1)
       = fst (checkRateLimit key' limit' windowMs' w).
Proof.
  intros Hne w1.
  pose proof (sameWindow_frame w w1 key key'
                (writesOnly_checkRateLimit key limit windowMs w) Hne) as Hsw.
  destruct (counter_ext _ _ _ Hsw) as (Hc & Ho).
  split; [exact Hc|]. split; [exact Ho|].
  intros limit' windowMs'. symmetry.
  apply (sameAt_checkRateLimit key' limit' windowMs' w w1 Hsw).
Qed.

Lemma rate_limit_keys_independent_witness :
  let w := Sample.start Sample.env_redis true in
  counter (snd (checkRateLimit "a" 5 60000 w)) "b" = counter w "b".
Proof.
  assert (Hne : "b" <> "a") by discriminate.
  exact (proj1 (rate_limit_keys_independent "a" "b" 5 60000
                  (Sample.start Sample.env_redis true) Hne)).
Defined.

(** The first call of a window is allowed whenever the limit is at least
    one, however short the window. *)
Lemma checkRateLimit_fresh key limit windowMs w :
  backendReady w -> windowOpen w key = false -> 1 <= limit ->
  fst (checkRateLimit key limit windowMs w) = Ok true.
Proof.
  unfold backendReady, windowOpen. intros Hr Ho Hl.
  unfold checkRateLimit. run_pure. unfold tryCatch. run_pure. cbn [env with_kv].
  destruct (getStorage (env w)).
  - unfold Redis.incr, Redis.expire, Redis.connected, Redis.put, Redis.lookup in *. mred.
    cbn [kv with_kv redisUp set_rateLimitStats redisDb clock]. rewrite Hr.
    apply bool_decide_eq_false_1 in Ho.
    destruct (match redisDb (kv w) !! _ with Some _ => _ | None => _ end) as [en|] eqn:Hl0;
      [exfalso; apply Ho; eauto|].
    cbn. rewrite Hr. cbn. rewrite lookup_insert_eq. cbn.
    destruct (windowMs / 1000 <=? 0); cbn;
      destruct (Z.leb_spec 1 limit); try lia; reflexivity.
  - unfold memGet, memSet. mred. cbn [kv with_kv inMemoryStorage set_rateLimitStats clock].
    destruct (inMemoryStorage (kv w) !! key) as [item|]; [|reflexivity].
    destruct (clock w >? expiresAt item); [reflexivity|discriminate].
Qed.

Lemma resetRateLimit_closes key w :
  backendReady w -> windowOpen (snd (resetRateLimit key w)) key = false.
Proof.
  unfold backendReady, windowOpen, resetRateLimit, memDelete, Redis.lookup. intros Hr.
  unfold tryCatch. run_pure.
  destruct (getStorage (env w)) eqn:Hs.
  - rewrite del_run by exact Hr. cbn. rewrite Hs, lookup_delete_eq.
    apply bool_decide_eq_false_2. intros [? [=]].
  - cbn. rewrite Hs, lookup_delete_eq. reflexivity.
Qed.

Lemma storesOnly_resetRateLimit key : storesOnly (resetRateLimit key).
Proof. unfold resetRateLimit, memDelete. stores_only. Qed.

(** X13.  [resetRateLimit] never throws.  With the backend reachable it closes
    the window of the key, so the next check with a limit of at least one
    is allowed.  The counters of the other keys, and the answers of their
    checks, are as before. *)
Theorem resetRateLimit_reopens key key' limit windowMs w :
  let w1 := snd (resetRateLimit key w) in
  fst (resetRateLimit key w) = Ok tt
  /\ (backendReady w -> 1 <= limit ->
      windowOpen w1 key = false
      /\ fst (checkRateLimit key limit windowMs w1) = Ok true)
  /\ (key' <> key ->
      counter w1 key' = counter w key'
      /\ fst (checkRateLimit key' limit windowMs w1)
         = fst (checkRateLimit key' limit windowMs w)).
Proof.
  intros w1. split; [|split].
  - unfold resetRateLimit, tryCatch.
    match goal with |- context [bind ?m ?k w] => destruct (bind m k w) as [[[]|e] w2] end;
      reflexivity.
  - intros Hr Hl. split; [apply resetRateLimit_closes; exact Hr|].
    apply checkRateLimit_fresh; [|apply resetRateLimit_closes; exact Hr|exact Hl].
    eapply backendReady_ext; [apply storesOnly_resetRateLimit | exact Hr].
  - intros Hne.
    pose proof (sameWindow_frame w w1 key key' (writesOnly_resetRateLimit key w) Hne) as Hsw.
    split; [apply counter_ext; exact Hsw|].
    symmetry. apply (sameAt_checkRateLimit key' limit windowMs w w1 Hsw).
Qed.

Lemma resetRateLimit_reopens_witness :
  let w := snd (checkRateLimit "k" 1 60000 (Sample.start Sample.env_redis true)) in
  fst (checkRateLimit "k" 1 60000 w) = Ok false
  /\ fst (checkRateLimit "k" 1 60000 (snd (resetRateLimit "k" w))) = Ok true.
Proof.
  split; [vm_compute; reflexivity|].
  apply (proj1 (proj2 (resetRateLimit_reopens "k" "other" 1 60000
                         (snd (checkRateLimit "k" 1 60000
                                 (Sample.start Sample.env_redis true)))))).
  - reflexivity.
  - lia.
Defined.

End RateLimiterKeys.

(* ===================================================================== *)
(** ** The cleanup of the in-process map *)
(* ===================================================================== *)

Lemma respects_bind_gets R {A B} (Q : A -> Prop) (f : World -> A) (k : A -> M B) :
  (forall w1 w2, R w1 w2 -> f w1 = f w2 /\ Q (f w1)) ->
  (forall a, Q a -> respects R (k a)) ->
  respects R (bind (gets f) k).
Proof.
  intros Hf Hk w1 w2 H. unfold bind, gets. destruct (Hf _ _ H) as (<- & HQ).
  apply Hk; assumption.
Qed.

Section Cleanup.
Import AuthUtils.

#[local] Arguments Redis.asInteger : simpl never.
#[local] Arguments JS.parseInt : simpl never.
#[local] Arguments JS.toString : simpl never.

Lemma sameRedis_modify f :
  (forall w, env (f w) = env w /\ clock (f w) = clock w
             /\ redisUp (kv (f w)) = redisUp (kv w)) ->
  (forall w1 w2, redisDb (kv w2) = redisDb (kv w1) -> clock w2 = clock w1 ->
                 redisDb (kv (f w2)) = redisDb (kv (f w1))) ->
  respects sameRedis (modify f).
Proof.
  intros Hf Hd. apply respects_modify. intros w1 w2 (Hs & He & Hc & Hu & Hr).
  destruct (Hf w1) as (E1 & C1 & U1), (Hf w2) as (E2 & C2 & U2).
  repeat split; try congruence. apply Hd; assumption.
Qed.

Lemma sameRedis_connected : respects sameRedis Redis.connected.
Proof.
  intros w1 w2 H. pose proof H as (Hs & He & Hc & Hu & Hr).
  unfold Redis.connected. rewrite Hu. destruct (redisUp (kv w1)); simpl; split; auto.
Qed.

Lemma sameRedis_lookup k : respects sameRedis (gets (fun w => Redis.lookup w k)).
Proof.
  apply respects_gets. intros w1 w2 (Hs & He & Hc & Hu & Hr).
  unfold Redis.lookup. rewrite Hr, Hc. reflexivity.
Qed.

Lemma sameRedis_now : respects sameRedis Date_now.
Proof. apply respects_gets. intros w1 w2 (_ & _ & Hc & _). symmetry. exact Hc. Qed.

Lemma sameRedis_env {A} (f : Env -> A) : respects sameRedis (gets (fun w => f (env w))).
Proof. apply respects_gets. intros w1 w2 (_ & He & _). rewrite He. reflexivity. Qed.

Ltac redis_step :=
  first
    [ apply sameRedis_connected | apply sameRedis_lookup | apply sameRedis_now
    | apply (sameRedis_env (fun e => e))
    | apply sameRedis_modify;
        [ intros ?; repeat split
        | intros ? ? Hdb Hck; cbn; rewrite ?Hdb, ?Hck; reflexivity ]
    | apply (respects_bind_gets sameRedis (fun s => s = UseRedis)
               (fun w => getStorage (env w)));
        [ intros ? ? (Hs & He & _); rewrite He; auto
        | intros ? -> ]
    | respects_step ].

Lemma sameRedis_checkRateLimit key limit windowMs :
  respects sameRedis (checkRateLimit key limit windowMs).
Proof.
  unfold checkRateLimit, Redis.incr, Redis.expire, Redis.put, setStats.
  repeat redis_step.
Qed.

Lemma sameRedis_getValue key : respects sameRedis (getValue key).
Proof.
  unfold getValue, Redis.get. repeat redis_step.
  apply respects_gets. intros w1 w2 (Hs & He & Hc & Hu & Hr).
  unfold Redis.lookup. rewrite Hr, Hc. reflexivity.
Qed.

Lemma checkRateLimit_memory_answer key limit windowMs w :
  getStorage (env w) = UseMemory ->
  fst (checkRateLimit key limit windowMs w)
  = Ok match inMemoryStorage (kv w) !! key with
       | Some item =>
           if clock w >? expiresAt item then true
           else leNum (Z.add 1 <$> parseData (data item)) limit
       | None => true
       end.
Proof.
  intros Hs. unfold checkRateLimit, memGet, memSet, setStats. mred.
  simpl. rewrite Hs. simpl.
  destruct (inMemoryStorage (kv w) !! key) as [item|]; [|reflexivity].
  destruct (clock w >? expiresAt item); [reflexivity|].
  destruct (leNum _ limit); reflexivity.
Qed.

Lemma getValue_memory_answer key w :
  getStorage (env w) = UseMemory ->
  fst (getValue key w)
  = Ok match inMemoryStorage (kv w) !! key with
       | Some item => if clock w >? expiresAt item then None else Some (data item)
       | None => None
       end.
Proof.
  intros Hs. unfold getValue, memGet, memDelete. mred. rewrite Hs.
  destruct (inMemoryStorage (kv w) !! key) as [item|]; [|reflexivity].
  destruct (clock w >? expiresAt item); reflexivity.
Qed.

Lemma cleanup_lookup w k :
  inMemoryStorage (kv (snd (cleanupExpiredEntries w))) !! k
  = match inMemoryStorage (kv w) !! k with
    | Some item => if clock w >? expiresAt item then None else Some item
    | None => None
    end.
Proof.
  unfold cleanupExpiredEntries. mred. cbn [snd kv with_kv inMemoryStorage set_inMemoryStorage].
  rewrite map_lookup_filter.
  destruct (inMemoryStorage (kv w) !! k) as [item|]; [|reflexivity]. simpl.
  destruct (Z.gtb_spec (clock w) (expiresAt item)).
  - rewrite option_guard_False; [reflexivity|]. simpl. lia.
  - rewrite option_guard_True; [reflexivity|]. simpl. lia.
Qed.

(** X14.  [cleanupExpiredEntries] keeps exactly the entries of the in-process
    map whose expiry time is not before now, and neither [getValue] nor
    [checkRateLimit] of any key can tell whether it has run. *)
Theorem cleanup_unobservable key limit windowMs w :
  let w1 := snd (cleanupExpiredEntries w) in
  fst (cleanupExpiredEntries w) = Ok tt
  /\ (forall k item,
        inMemoryStorage (kv w1) !! k = Some item
        <-> inMemoryStorage (kv w) !! k = Some item /\ expiresAt item >= clock w)
  /\ fst (getValue key w1) = fst (getValue key w)
  /\ fst (checkRateLimit key limit windowMs w1) = fst (checkRateLimit key limit windowMs w).
Proof.
  intros w1. split; [reflexivity|]. split; [|split].
  - intros k item. unfold w1. rewrite cleanup_lookup.
    destruct (inMemoryStorage (kv w) !! k) as [it|]; [|split; [discriminate|intros [[=] _]]].
    destruct (Z.gtb_spec (clock w) (expiresAt it)); split.
    + discriminate.
    + intros [[= ->] ?]. lia.
    + intros [= ->]. split; [reflexivity|lia].
    + intros [[= ->] _]. reflexivity.
  - destruct (getStorage (env w)) eqn:Hs.
    + symmetry. apply (sameRedis_getValue key w w1). repeat split; auto.
    + rewrite !getValue_memory_answer by exact Hs. unfold w1. rewrite cleanup_lookup.
      change (clock (snd (cleanupExpiredEntries w))) with (clock w).
      destruct (inMemoryStorage (kv w) !! key) as [it|]; [|reflexivity].
      destruct (clock w >? expiresAt it) eqn:E; [reflexivity|]. rewrite E. reflexivity.
  - destruct (getStorage (env w)) eqn:Hs.
    + symmetry. apply (sameRedis_checkRateLimit key limit windowMs w w1). repeat split; auto.
    + rewrite !checkRateLimit_memory_answer by exact Hs. unfold w1. rewrite cleanup_lookup.
      change (clock (snd (cleanupExpiredEntries w))) with (clock w).
      destruct (inMemoryStorage (kv w) !! key) as [it|]; [|reflexivity].
      destruct (clock w >? expiresAt it) eqn:E; [reflexivity|]. rewrite E. reflexivity.
Qed.

End Cleanup.

(* ===================================================================== *)
(** ** CSRF tokens *)
(* ===================================================================== *)

Section Csrf.
Import AuthUtils Middleware.

Lemma validateCSRFToken_run x tok w :
  validateCSRFToken x tok w
  = (Ok (if redisUp (kv w) then sameToken (rval <$> Redis.lookup w ("csrf:" +:+ tok)) x
         else false), w).
Proof.
  unfold validateCSRFToken, tryCatch, bind. destruct (redisUp (kv w)) eqn:Hup.
  - rewrite get_run by exact Hup. reflexivity.
  - rewrite get_down by exact Hup. reflexivity.
Qed.

Lemma csrfProtection_run req csrf tok w :
  method req <> GET ->
  xCsrfToken req = Some csrf -> JS.truthyStr csrf = true ->
  presentedToken req = Some tok -> JS.truthyStr tok = true ->
  csrfProtection req w
  = (Ok (if fst (validateCSRFToken csrf tok w) is Ok true
         then Next req
         else Done (respond 403 (ErrorBody 403 MsgCsrfInvalid (requestIdOrUnknown req) None))),
     w).
Proof.
  intros Hm Hx Hc Hp Ht. unfold csrfProtection, tryCatch.
  rewrite Hx, Hp, Hc, Ht. cbn [andb].
  destruct (method req); try contradiction;
    unfold bind; rewrite validateCSRFToken_run; cbn [fst];
    destruct (if redisUp (kv w) then _ else _); reflexivity.
Qed.

Lemma storeCSRFToken_redis csrf tok w :
  getStorage (env w) = UseRedis -> redisUp (kv w) = true ->
  storeCSRFToken csrf tok w
  = (Ok tt, with_kv (set_redisDb (<["csrf:" +:+ tok :=
                                     {| rval := Text csrf;
                                        rexp := Some (clock w + 3600 * 1000) |}]>
                                    (redisDb (kv w)))) w).
Proof.
  intros Hs Hup. unfold storeCSRFToken, setWithExpiration.
  erewrite tryCatch_ok; [reflexivity|]. run_pure. rewrite Hs.
  apply setEx_run; [exact Hup|lia].
Qed.

(** X15.  On the Redis backend, connected: after [storeCSRFToken] for a session,
    [csrfProtection] passes a non-GET request that presents the session
    token and a non-empty [X-CSRF-Token] exactly when the header equals the
    stored token and at most one hour has passed; otherwise it answers 403.
    It changes nothing. *)
Theorem csrf_guard_accepts_stored_token req csrf submitted tok w t :
  getStorage (env w) = UseRedis -> redisUp (kv w) = true ->
  method req <> GET ->
  presentedToken req = Some tok -> JS.truthyStr tok = true ->
  xCsrfToken req = Some submitted -> JS.truthyStr submitted = true ->
  let w1 := at_time t (snd (storeCSRFToken csrf tok w)) in
  csrfProtection req w1
  = (Ok (if (t <=? clock w + 3600000) && String.eqb submitted csrf
         then Next req
         else Done (respond 403 (ErrorBody 403 MsgCsrfInvalid (requestIdOrUnknown req) None))),
     w1).
Proof.
  intros Hs Hup Hm Hp Ht Hx Hc w1.
  rewrite (csrfProtection_run req submitted tok w1 Hm Hx Hc Hp Ht).
  rewrite validateCSRFToken_run. cbn [fst].
  unfold w1. rewrite storeCSRFToken_redis by assumption.
  cbn [snd kv at_time with_kv redisUp set_redisDb]. rewrite Hup.
  unfold Redis.lookup. cbn [kv at_time with_kv redisDb set_redisDb clock].
  rewrite lookup_insert_eq. unfold Redis.live. cbn [rexp rval].
  change (3600 * 1000) with 3600000.
  destruct (Z.ltb_spec (clock w + 3600000) t), (Z.leb_spec t (clock w + 3600000));
    try lia.
  - reflexivity.
  - cbn [fmap option_fmap option_map sameToken rval andb negb].
    rewrite (String.eqb_sym csrf submitted).
    destruct (String.eqb submitted csrf); reflexivity.
Qed.

Lemma csrf_guard_accepts_stored_token_witness :
  let req := Sample.request PATCH (ById Sample.taskA) "/x" Sample.noBody in
  let with_token x :=
    {| method := method req; target := target req; path := path req; ip := ip req;
       cookieSession := cookieSession req; authorization := authorization req;
       xCsrfToken := Some x; ifMatch := ifMatch req; xRequestId := xRequestId req;
       query := query req; body := body req; user := user req;
       sessionToken := sessionToken req |} in
  let w := Sample.start Sample.env_redis true in
  fst (csrfProtection (with_token "c1")
         (at_time 2000 (snd (storeCSRFToken "c1" "sess-ann" w))))
  = Ok (Next (with_token "c1")).
Proof.
  cbv zeta.
  match goal with |- fst (csrfProtection ?r _) = _ =>
    exact (f_equal fst
             (csrf_guard_accepts_stored_token r "c1" "c1" "sess-ann"
                (Sample.start Sample.env_redis true) 2000 eq_refl eq_refl
                ltac:(cbn; discriminate) eq_refl eq_refl eq_refl eq_refl))
  end.
Defined.

(** X16.  [csrfProtection] never changes the state and never answers 500: it
    passes the request on unchanged, which it does for every GET and
    otherwise only with Redis connected, or it answers 403 to a request
    that is not a GET. *)
Theorem csrf_guard_outcome req w :
  snd (csrfProtection req w) = w
  /\ ((fst (csrfProtection req w) = Ok (Next req)
       /\ (method req = GET \/ redisUp (kv w) = true))
      \/ (exists res, fst (csrfProtection req w) = Ok (Done res)
                      /\ status res = 403 /\ method req <> GET)).
Proof.
  assert (Hcase : method req = GET \/ method req <> GET)
    by (destruct (method req); [left; reflexivity | right; discriminate ..]).
  destruct Hcase as [Hg|Hg].
  - unfold csrfProtection, tryCatch. rewrite Hg. cbn. auto.
  - assert (Hmiss : forall w0,
              (match xCsrfToken req, presentedToken req with
               | Some csrf, Some tok => JS.truthyStr csrf && JS.truthyStr tok
               | _, _ => false
               end = false) ->
              csrfProtection req w0
              = (Ok (Done (respond 403 (ErrorBody 403 MsgCsrfMissing
                                          (requestIdOrUnknown req) None))), w0)).
    { intros w0 H. unfold csrfProtection, tryCatch.
      destruct (xCsrfToken req) as [csrf|], (presentedToken req) as [tok|];
        try rewrite H; destruct (method req); try contradiction; reflexivity. }
    destruct (xCsrfToken req) as [csrf|] eqn:Hx;
      [destruct (presentedToken req) as [tok|] eqn:Hp;
       [destruct (JS.truthyStr csrf) eqn:Hc;
        [destruct (JS.truthyStr tok) eqn:Ht|]|]|].
    + rewrite (csrfProtection_run req csrf tok w Hg Hx Hc Hp Ht).
      rewrite validateCSRFToken_run. cbn [fst snd]. split; [reflexivity|].
      destruct (redisUp (kv w)) eqn:Hup.
      * destruct (sameToken _ csrf); [left; auto|right; eexists; repeat split; auto].
      * right; eexists; repeat split; auto.
    + rewrite Hmiss by (rewrite ?Hx, ?Hp, ?Hc, ?Ht, ?andb_false_r; reflexivity). cbn.
      split; [reflexivity|]. right; eexists; repeat split; auto.
    + rewrite Hmiss by (rewrite ?Hx, ?Hp, ?Hc, ?Ht, ?andb_false_r; reflexivity). cbn.
      split; [reflexivity|]. right; eexists; repeat split; auto.
    + rewrite Hmiss by (rewrite ?Hx, ?Hp, ?Hc, ?Ht, ?andb_false_r; reflexivity). cbn.
      split; [reflexivity|]. right; eexists; repeat split; auto.
    + rewrite Hmiss by (rewrite ?Hx, ?Hp, ?Hc, ?Ht, ?andb_false_r; reflexivity). cbn.
      split; [reflexivity|]. right; eexists; repeat split; auto.
Qed.

Lemma writesOnly_storeCSRFToken csrf tok :
  writesOnly (eq ("csrf:" +:+ tok)) (eq ("csrf:" +:+ tok)) (storeCSRFToken csrf tok).
Proof. unfold storeCSRFToken, setWithExpiration, Redis.setEx, Date_now. writes_only. Qed.

(** X17.  Storing a CSRF token for one session does not change what
    [validateCSRFToken] answers for any token of any other session. *)
Theorem csrf_token_bound_to_session csrf tok tok' x w :
  tok' <> tok ->
  fst (validateCSRFToken x tok' (snd (storeCSRFToken csrf tok w)))
  = fst (validateCSRFToken x tok' w).
Proof.
  intros Hne. symmetry.
  apply (sameAt_validateCSRFToken x tok' ("csrf:" +:+ tok') w).
  eapply sameAt_frame; [apply writesOnly_storeCSRFToken| |];
    intros E; apply append_inj_r in E; congruence.
Qed.

Lemma csrf_token_bound_to_session_witness :
  let w := Sample.start Sample.env_redis true in
  fst (validateCSRFToken "c1" "sess-bob" (snd (storeCSRFToken "c1" "sess-ann" w)))
  = fst (validateCSRFToken "c1" "sess-bob" w).
Proof.
  apply (csrf_token_bound_to_session "c1" "sess-ann" "sess-bob" "c1"
           (Sample.start Sample.env_redis true)).
  discriminate.
Defined.

End Csrf.

(* ===================================================================== *)
(** ** Deleted tasks and refused updates *)
(* ===================================================================== *)

Section SoftDelete.
Import TaskService StarService.

(** Every operation refuses a task whose deletion flag is set, and writes
    nothing. *)
Lemma flagged_task_refused taskId t w u p ev newId :
  dbUp (db w) = true -> stored w taskId = Some t -> isDeleted t = true ->
  getTask taskId u w = (Throw TaskNotFound, w)
  /\ updateTask taskId p u ev w = (Throw TaskNotFound, w)
  /\ deleteTask taskId u w = (Throw TaskNotFound, w)
  /\ duplicateTask newId taskId u w = (Throw TaskNotFound, w)
  /\ assignSelfToTask taskId u w = (Throw TaskNotFound, w)
  /\ addStar taskId u w = (Throw TaskNotFound, w).
Proof.
  unfold stored. intros Hup Ht Hdel.
  unfold getTask, updateTask, deleteTask, duplicateTask, assignSelfToTask, addStar.
  repeat split; erewrite bind_ok by (apply findFirst_run; exact Hup);
    rewrite Ht; cbn [andb]; rewrite Hdel; reflexivity.
Qed.

Lemma deleteTask_needs_db taskId u w token w' :
  deleteTask taskId u w = (Ok token, w') -> dbUp (db w) = true.
Proof.
  destruct (dbUp (db w)) eqn:Hup; [reflexivity|].
  unfold deleteTask. erewrite bind_err by (apply findFirst_down; exact Hup). discriminate.
Qed.

(** X18.  When [deleteTask] returns, the task is still stored, marked deleted and
    stamped with the time of the call, and the other tasks are as before.
    From then on [getTask], [updateTask], [deleteTask], [duplicateTask],
    [assignSelfToTask] and [addStar] of that task fail with the
    task-not-found error, for every user, and change nothing. *)
Theorem deleted_task_is_hidden taskId u w token w' :
  deleteTask taskId u w = (Ok token, w') ->
  exists t,
    stored w taskId = Some t
    /\ stored w' taskId = Some (markDeleted (clock w) t)
    /\ (forall other, other <> taskId -> stored w' other = stored w other)
    /\ forall v p ev newId,
         getTask taskId v w' = (Throw TaskNotFound, w')
         /\ updateTask taskId p v ev w' = (Throw TaskNotFound, w')
         /\ deleteTask taskId v w' = (Throw TaskNotFound, w')
         /\ duplicateTask newId taskId v w' = (Throw TaskNotFound, w')
         /\ assignSelfToTask taskId v w' = (Throw TaskNotFound, w')
         /\ addStar taskId v w' = (Throw TaskNotFound, w').
Proof.
  intros Hd. pose proof (deleteTask_needs_db _ _ _ _ _ Hd) as Hup.
  apply deleteTask_inv in Hd as (t & Ht & Hdel & Htasks & _ & Hup' & _).
  exists t. split; [exact Ht|].
  assert (Hs : stored w' taskId = Some (markDeleted (clock w) t))
    by (unfold stored; rewrite Htasks, lookup_insert_eq; reflexivity).
  split; [exact Hs|]. split.
  - intros other Hne. unfold stored. rewrite Htasks, lookup_insert_ne by congruence.
    reflexivity.
  - intros v p ev newId.
    apply (flagged_task_refused taskId (markDeleted (clock w) t)); [congruence|exact Hs|reflexivity].
Qed.

Lemma deleted_task_is_hidden_witness :
  exists token w',
    deleteTask Sample.taskA Sample.ann Sample.board = (Ok token, w')
    /\ fst (getTask Sample.taskA Sample.bob w') = Throw TaskNotFound.
Proof.
  destruct (deleteTask Sample.taskA Sample.ann Sample.board) as [[token|e] w'] eqn:E;
    [|vm_compute in E; discriminate E].
  exists token, w'. split; [reflexivity|].
  destruct (deleted_task_is_hidden _ _ _ _ _ E) as (t & _ & _ & _ & H).
  destruct (H Sample.bob (Sample.titleOnly "x") None Sample.taskB) as (-> & _). reflexivity.
Defined.

(** X19.  When [updateTask] fails with the task-not-found or the
    version-conflict error, the state is exactly as before the call: no
    write, no audit entry, no event, no cache invalidation. *)
Theorem refused_update_writes_nothing taskId p u ev w e w' :
  updateTask taskId p u ev w = (Throw e, w') ->
  e = TaskNotFound \/ e = VersionConflict -> w' = w.
Proof.
  unfold updateTask. unfold bind at 1.
  destruct (dbUp (db w)) eqn:Hup;
    [rewrite findFirst_run by exact Hup
    |rewrite findFirst_down by exact Hup; intros [= <- <-]; intros [?|?]; discriminate].
  destruct (tasks (db w) !! taskId) as [t|]; [|intros [= <- <-]; reflexivity].
  cbn [andb]. destruct (isDeleted t) eqn:Hdel; [intros [= <- <-]; reflexivity|].
  rewrite Hdel. destruct (versionConflict ev t); [intros [= <- <-]; reflexivity|].
  intros H Hor. exfalso. revert H.
  match goal with |- ?m w = _ -> _ => assert (Hr : raises (eq PrismaError) m) end.
  { unfold Prisma.task_update, Prisma.task_findFirst, Prisma.task_put, Prisma.relation,
      Prisma.taskAudit_create, WebSocketService.emitTaskUpdated, WebSocketService.emit,
      invalidateTaskCache, Date_now, transform, assigneeUsers, Prisma.user_findMany.
    repeat raises_step. }
  intros H. apply Hr in H. destruct Hor; congruence.
Qed.

Lemma refused_update_writes_nothing_witness :
  snd (updateTask Sample.taskA (Sample.titleOnly "B") Sample.bob (Some 7) Sample.board)
  = Sample.board
  /\ snd (updateTask Sample.taskB (Sample.titleOnly "B") Sample.bob None Sample.board)
     = Sample.board.
Proof.
  split.
  - destruct (updateTask Sample.taskA (Sample.titleOnly "B") Sample.bob (Some 7) Sample.board)
      as [[task|e] w'] eqn:E; [vm_compute in E; discriminate E|].
    assert (He : e = VersionConflict) by (vm_compute in E; congruence).
    exact (refused_update_writes_nothing _ _ _ _ _ _ _ E (or_intror He)).
  - destruct (updateTask Sample.taskB (Sample.titleOnly "B") Sample.bob None Sample.board)
      as [[task|e] w'] eqn:E; [vm_compute in E; discriminate E|].
    assert (He : e = TaskNotFound) by (vm_compute in E; congruence).
    exact (refused_update_writes_nothing _ _ _ _ _ _ _ E (or_introl He)).
Defined.

End SoftDelete.

(* ===================================================================== *)
(** ** Stars and self-assignment *)
(* ===================================================================== *)

Section Stars.
Import TaskService StarService.

Lemma filter_length_perm {A} (f : A -> bool) (l l' : list A) :
  l ≡ₚ l' -> List.length (List.filter f l) = List.length (List.filter f l').
Proof.
  induction 1 as [|x l l' _ IH|x y l|l1 l2 l3 _ IH1 _ IH2]; simpl.
  - reflexivity.
  - destruct (f x); simpl; congruence.
  - destruct (f x), (f y); reflexivity.
  - congruence.
Qed.

Lemma isTaskStarred_run taskId u w :
  dbUp (db w) = true ->
  isTaskStarred taskId u w = (Ok (bool_decide ((taskId, id u) ∈ taskStars (db w))), w).
Proof.
  intros Hup. unfold isTaskStarred, Prisma.taskStar_findUnique, Prisma.connected. mred.
  rewrite Hup. reflexivity.
Qed.

Lemma getStarCount_run taskId w :
  dbUp (db w) = true ->
  getStarCount taskId w
  = (Ok (Z.of_nat (List.length
           (List.filter (fun tu : string * string => String.eqb tu.1 taskId)
                        (elements (taskStars (db w)))))), w).
Proof.
  intros Hup. unfold getStarCount, Prisma.taskStar_count, Prisma.connected. mred.
  rewrite Hup. reflexivity.
Qed.

(** What [addStar] does to an active task. *)
Lemma addStar_run taskId t u w :
  dbUp (db w) = true -> stored w taskId = Some t -> isDeleted t = false ->
  addStar taskId u w
  = (Ok tt,
     if bool_decide ((taskId, id u) ∈ taskStars (db w)) then w
     else snd (WebSocketService.emitStarAdded taskId (id u)
                 (with_db (fun d => set_taskStars ({[ (taskId, id u) ]} ∪ taskStars d) d) w))).
Proof.
  unfold stored. intros Hup Ht Hdel. unfold addStar.
  erewrite bind_ok by (apply findFirst_run; exact Hup). rewrite Ht. cbn [andb]. rewrite Hdel.
  unfold Prisma.taskStar_findUnique, Prisma.taskStar_create, Prisma.connected,
    WebSocketService.emitStarAdded, WebSocketService.emit. mred. rewrite Hup.
  destruct (bool_decide _); [reflexivity|]. cbn. rewrite Hup.
  cbn [io out with_db]. destruct (io (out w)); reflexivity.
Qed.

Lemma emitStarAdded_db taskId uid w :
  db (snd (WebSocketService.emitStarAdded taskId uid w)) = db w.
Proof.
  unfold WebSocketService.emitStarAdded, WebSocketService.emit. mred.
  destruct (io (out w)); reflexivity.
Qed.

Lemma transform_starred b taskId t u w task w' :
  transform b taskId t u w = (Ok task, w') ->
  t_isStarred task = bool_decide ((taskId, id u) ∈ taskStars (db w)).
Proof.
  unfold transform. mred.
  destruct (users (db w) !! createdBy t); simpl; [|absurd_result].
  destruct b, (updatedBy t); simpl;
    destruct (assignees t); simpl; try (intros [= <- <-]; auto);
    destruct (dbUp (db w)); simpl; intros [= <- <-]; auto.
Qed.

(** X20.  With the database up and the task stored and not deleted, [addStar]
    returns; afterwards [isTaskStarred] is true and [getTask] reports the
    star; [getStarCount] is one more than before when the user had no star
    on the task and the same otherwise; a second [addStar] changes nothing;
    the tasks themselves are untouched. *)
Theorem addStar_effect taskId t u w :
  dbUp (db w) = true -> stored w taskId = Some t -> isDeleted t = false ->
  let before := bool_decide ((taskId, id u) ∈ taskStars (db w)) in
  let w1 := snd (addStar taskId u w) in
  fst (addStar taskId u w) = Ok tt
  /\ fst (isTaskStarred taskId u w1) = Ok true
  /\ (forall task, fst (getTask taskId u w1) = Ok task -> t_isStarred task = true)
  /\ (exists n, fst (getStarCount taskId w) = Ok n
                /\ fst (getStarCount taskId w1) = Ok (if before then n else n + 1))
  /\ addStar taskId u w1 = (Ok tt, w1)
  /\ tasks (db w1) = tasks (db w).
Proof.
  intros Hup Ht Hdel before w1.
  pose proof (addStar_run taskId t u w Hup Ht Hdel) as Hrun. fold before in Hrun.
  assert (Hdb : db w1 = if before then db w
                        else set_taskStars ({[ (taskId, id u) ]} ∪ taskStars (db w)) (db w)).
  { unfold w1. rewrite Hrun. cbn [snd]. destruct before; [reflexivity|].
    rewrite emitStarAdded_db. reflexivity. }
  assert (Hup1 : dbUp (db w1) = true) by (rewrite Hdb; destruct before; exact Hup).
  assert (Hin : (taskId, id u) ∈ taskStars (db w1)).
  { rewrite Hdb. unfold before. destruct (bool_decide _) eqn:E.
    - apply bool_decide_eq_true_1 in E. exact E.
    - cbn. apply elem_of_union_l, elem_of_singleton_2. reflexivity. }
  assert (Ht1 : stored w1 taskId = Some t).
  { unfold stored. rewrite Hdb. destruct before; exact Ht. }
  split; [rewrite Hrun; reflexivity|]. split; [|split; [|split; [|split]]].
  - rewrite isTaskStarred_run by exact Hup1.
    rewrite bool_decide_eq_true_2 by exact Hin. reflexivity.
  - intros task. unfold getTask.
    erewrite bind_ok by (apply findFirst_run; exact Hup1).
    unfold stored in Ht1. rewrite Ht1. cbn [andb]. rewrite Hdel.
    destruct (transform true taskId t u w1) as [[task'|e] w2] eqn:Etr; [|discriminate].
    intros [= <-]. rewrite (transform_starred _ _ _ _ _ _ _ Etr).
    apply bool_decide_eq_true_2. exact Hin.
  - rewrite !getStarCount_run by assumption. eexists. split; [reflexivity|]. cbn [fst].
    f_equal. rewrite Hdb. unfold before. destruct (bool_decide _) eqn:E; [reflexivity|].
    apply bool_decide_eq_false_1 in E. cbn [taskStars set_taskStars].
    rewrite (filter_length_perm _ _ _ (elements_union_singleton _ _ E)).
    cbn [List.filter fst]. rewrite String.eqb_refl. cbn [List.length]. lia.
  - rewrite (addStar_run taskId t u w1 Hup1 Ht1 Hdel).
    rewrite bool_decide_eq_true_2 by exact Hin. reflexivity.
  - rewrite Hdb. destruct before; reflexivity.
Qed.


Lemma addStar_effect_witness :
  let w1 := snd (addStar Sample.taskA Sample.bob Sample.board) in
  fst (isTaskStarred Sample.taskA Sample.bob w1) = Ok true
  /\ fst (getStarCount Sample.taskA w1) = Ok 1.
Proof.
  destruct (addStar_effect Sample.taskA
              (newTask 1000 "A" (Some "d") Sample.annId [] 1) Sample.bob Sample.board
              eq_refl eq_refl eq_refl) as (_ & H1 & _ & (n & Hn & H2) & _).
  split; [exact H1|]. rewrite H2. vm_compute in Hn. injection Hn as <-. reflexivity.
Defined.

Lemma with_db_same w (f : Db -> Db) : f (db w) = db w -> with_db f w = w.
Proof. intros H. unfold with_db. rewrite H. destruct w; reflexivity. Qed.

Lemma removeStar_run taskId u w :
  dbUp (db w) = true ->
  removeStar taskId u w
  = (Ok tt,
     if bool_decide ((taskId, id u) ∈ taskStars (db w))
     then snd (WebSocketService.emitStarRemoved taskId (id u)
                 (with_db (fun d => set_taskStars (taskStars d ∖ {[ (taskId, id u) ]}) d) w))
     else w).
Proof.
  intros Hup. unfold removeStar, Prisma.taskStar_deleteMany, Prisma.taskStar_findUnique,
    Prisma.connected, WebSocketService.emitStarRemoved, WebSocketService.emit. mred.
  rewrite Hup. destruct (bool_decide _) eqn:E; cbn.
  - cbn [io out with_db]. destruct (io (out w)); reflexivity.
  - f_equal. apply with_db_same. apply bool_decide_eq_false_1 in E.
    destruct (db w) as [up us ts stars au pr]. unfold set_taskStars. cbn in *.
    f_equal. apply difference_disjoint_L, disjoint_singleton_r. exact E.
Qed.

Lemma emitStarRemoved_db taskId uid w :
  db (snd (WebSocketService.emitStarRemoved taskId uid w)) = db w.
Proof.
  unfold WebSocketService.emitStarRemoved, WebSocketService.emit. mred.
  destruct (io (out w)); reflexivity.
Qed.

(** X21.  With the database up, [removeStar] returns, whether or not the task
    or the star exists; afterwards [isTaskStarred] is false, only that star
    is gone and the tasks are untouched; when there was no star the state
    is unchanged, no event included; a second [removeStar] changes
    nothing. *)
Theorem removeStar_effect taskId u w :
  dbUp (db w) = true ->
  let w2 := snd (removeStar taskId u w) in
  fst (removeStar taskId u w) = Ok tt
  /\ fst (isTaskStarred taskId u w2) = Ok false
  /\ taskStars (db w2) = taskStars (db w) ∖ {[ (taskId, id u) ]}
  /\ tasks (db w2) = tasks (db w)
  /\ ((taskId, id u) ∉ taskStars (db w) -> w2 = w)
  /\ removeStar taskId u w2 = (Ok tt, w2).
Proof.
  intros Hup w2. pose proof (removeStar_run taskId u w Hup) as Hrun.
  assert (Hdb : db w2 = set_taskStars (taskStars (db w) ∖ {[ (taskId, id u) ]}) (db w)).
  { unfold w2. rewrite Hrun. cbn [snd]. destruct (bool_decide _) eqn:E.
    - rewrite emitStarRemoved_db. reflexivity.
    - apply bool_decide_eq_false_1 in E.
      destruct (db w) as [up us ts stars au pr]. unfold set_taskStars. cbn in *.
      f_equal. symmetry. apply difference_disjoint_L, disjoint_singleton_r. exact E. }
  assert (Hup2 : dbUp (db w2) = true) by (rewrite Hdb; exact Hup).
  assert (Hnot : (taskId, id u) ∉ taskStars (db w2)).
  { rewrite Hdb. cbn. apply not_elem_of_difference. right.
    apply elem_of_singleton_2. reflexivity. }
  split; [rewrite Hrun; reflexivity|]. split; [|split; [|split; [|split]]].
  - rewrite isTaskStarred_run by exact Hup2.
    rewrite bool_decide_eq_false_2 by exact Hnot. reflexivity.
  - rewrite Hdb. reflexivity.
  - rewrite Hdb. reflexivity.
  - intros Habs. unfold w2. rewrite Hrun. rewrite bool_decide_eq_false_2 by exact Habs.
    reflexivity.
  - rewrite (removeStar_run taskId u w2 Hup2).
    rewrite bool_decide_eq_false_2 by exact Hnot. reflexivity.
Qed.

Lemma removeStar_effect_witness :
  fst (removeStar "no-such-task" Sample.ann Sample.board) = Ok tt
  /\ snd (removeStar "no-such-task" Sample.ann Sample.board) = Sample.board.
Proof.
  destruct (removeStar_effect "no-such-task" Sample.ann Sample.board eq_refl)
    as (H1 & _ & _ & _ & H2 & _).
  split; [exact H1|]. apply H2.
  assert (Hnone : taskStars (db Sample.board) = ∅) by (vm_compute; reflexivity).
  rewrite Hnone. apply not_elem_of_empty.
Defined.

End Stars.

Section AssignAndDuplicate.
Import TaskService.

Lemma assignSelf_needs_db taskId u w w' :
  assignSelfToTask taskId u w = (Ok tt, w') -> dbUp (db w) = true.
Proof.
  destruct (dbUp (db w)) eqn:Hup; [reflexivity|].
  unfold assignSelfToTask. erewrite bind_err by (apply findFirst_down; exact Hup).
  discriminate.
Qed.

(** X22.  When [assignSelfToTask] returns, the user is among the assignees, the
    earlier assignees are kept, no duplicate is introduced, and the title,
    the description and the creator are as before; if the user was an
    assignee already nothing at all changes; and a second call changes
    nothing. *)
Theorem assignSelf_effect taskId u w w' :
  assignSelfToTask taskId u w = (Ok tt, w') ->
  exists t t',
    stored w taskId = Some t /\ stored w' taskId = Some t'
    /\ id u ∈ assignees t'
    /\ (forall x, x ∈ assignees t -> x ∈ assignees t')
    /\ (NoDup (assignees t) -> NoDup (assignees t'))
    /\ (id u ∈ assignees t -> w' = w)
    /\ title t' = title t /\ description t' = description t
    /\ createdBy t' = createdBy t
    /\ assignSelfToTask taskId u w' = (Ok tt, w').
Proof.
  intros Ha. pose proof (assignSelf_needs_db _ _ _ _ Ha) as Hup.
  apply assignSelf_inv in Ha as (t & Ht & Hdel & _ & Hup' & _ & Hcase).
  exists t. destruct (bool_decide (id u ∈ assignees t)) eqn:Hin.
  - subst w'. apply bool_decide_eq_true_1 in Hin. exists t.
    repeat split; auto.
    unfold assignSelfToTask. erewrite bind_ok by (apply findFirst_run; exact Hup).
    unfold stored in Ht. rewrite Ht. cbn [andb]. rewrite Hdel.
    rewrite bool_decide_eq_true_2 by exact Hin. reflexivity.
  - apply bool_decide_eq_false_1 in Hin.
    exists (addAssignee (clock w) (id u) t).
    assert (Hs : stored w' taskId = Some (addAssignee (clock w) (id u) t))
      by (unfold stored; rewrite Hcase, lookup_insert_eq; reflexivity).
    split; [exact Ht|]. split; [exact Hs|]. cbn [assignees addAssignee].
    split; [apply elem_of_app; right; apply list_elem_of_singleton; reflexivity|].
    split; [intros x Hx; apply elem_of_app; left; exact Hx|]. split.
    { intros Hnd. apply NoDup_app. split; [exact Hnd|]. split.
      - intros x Hx Hx'. apply list_elem_of_singleton in Hx'. subst x. contradiction.
      - apply NoDup_singleton. }
    split; [intros; contradiction|]. repeat split.
    unfold assignSelfToTask. erewrite bind_ok by (apply findFirst_run; congruence).
    unfold stored in Hs. rewrite Hs. cbn [andb isDeleted addAssignee]. rewrite Hdel.
    cbn [assignees addAssignee].
    rewrite bool_decide_eq_true_2
      by (apply elem_of_app; right; apply list_elem_of_singleton; reflexivity).
    reflexivity.
Qed.

Lemma assignSelf_effect_witness :
  exists w' t',
    assignSelfToTask Sample.taskA Sample.bob Sample.board = (Ok tt, w')
    /\ stored w' Sample.taskA = Some t' /\ Sample.bobId ∈ assignees t'.
Proof.
  destruct (assignSelfToTask Sample.taskA Sample.bob Sample.board) as [[[]|e] w'] eqn:E;
    [|vm_compute in E; discriminate E].
  destruct (assignSelf_effect _ _ _ _ E) as (t & t' & _ & Hs & Hin & _).
  exists w', t'. split; [reflexivity|]. split; [exact Hs | exact Hin].
Defined.

End AssignAndDuplicate.

(* ===================================================================== *)
(** ** Duplicating a task *)
(* ===================================================================== *)

Section Duplicate.
Import TaskService.

(** X23.  When [duplicateTask] returns, the original is stored and not deleted;
    the copy is stored under the new id with the title followed by the
    copy suffix, the description and the assignees of the original, the
    current user as creator, version 1 and both time stamps at the time of
    the call; the other tasks, the stars and the key-value stores are as
    before; the returned task is the copy. *)
Theorem duplicate_effect newId taskId u w task w' :
  duplicateTask newId taskId u w = (Ok task, w') ->
  exists t,
    stored w taskId = Some t /\ isDeleted t = false
    /\ stored w' newId
       = Some (newTask (clock w) (title t +:+ COPY_SUFFIX) (description t)
                       (id u) (assignees t) 1)
    /\ (forall other, other <> newId -> stored w' other = stored w other)
    /\ t_id task = newId /\ t_version task = 1
    /\ t_title task = title t +:+ COPY_SUFFIX
    /\ t_description task = JS.orStr (description t) ""
    /\ taskStars (db w') = taskStars (db w)
    /\ kv w' = kv w.
Proof.
  unfold duplicateTask, stored. mred.
  destruct (dbUp (db w)) eqn:Hup; [|absurd_result].
  destruct (tasks (db w) !! taskId) as [t|] eqn:Ht; [|absurd_result].
  simpl.
  destruct (isDeleted t) eqn:Hdel; simpl; [absurd_result|].
  repeat (progress (rewrite ?Hup, ?Ht, ?Hdel; simpl)).
  destruct (users (db w) !! id u) eqn:Hcr; simpl; [|absurd_result].
  repeat (progress (rewrite ?Hup; simpl)).
  match goal with |- context [transform ?b ?i ?t0 ?u0 ?w0] =>
    pose proof (transform_pure b i t0 u0 w0) as Hp;
    pose proof (transform_fields b i t0 u0 w0) as Hv;
    destruct (transform b i t0 u0 w0) as [[task0|e] w1] end; simpl in *; [|absurd_result].
  subst w1. destruct (Hv _ _ eq_refl) as (Hid & Hver & Htitle & Hdesc). clear Hv.
  simpl in *. destruct (io (out w)); simpl; intros [= <- <-]; exists t; simpl;
    rewrite lookup_insert_eq;
    (repeat split; auto; intros other Hne; apply lookup_insert_ne; congruence).
Qed.

Lemma duplicate_effect_witness :
  exists task w' t,
    duplicateTask Sample.taskB Sample.taskA Sample.bob Sample.board = (Ok task, w')
    /\ stored w' Sample.taskA = stored Sample.board Sample.taskA
    /\ stored w' Sample.taskB = Some t /\ version t = 1 /\ createdBy t = Sample.bobId.
Proof.
  destruct (duplicateTask Sample.taskB Sample.taskA Sample.bob Sample.board)
    as [[task|e] w'] eqn:E; [|vm_compute in E; discriminate E].
  destruct (duplicate_effect _ _ _ _ _ _ E) as (t & _ & _ & Hnew & Hframe & _).
  exists task, w'. eexists. split; [reflexivity|].
  split; [apply Hframe; discriminate|]. split; [exact Hnew|]. split; reflexivity.
Defined.

End Duplicate.

(* ===================================================================== *)
(** ** The list query: the filter and the page *)
(* ===================================================================== *)

Section ListQuery.
Import TaskService.

Lemma transformAll_pure ts u : forall w, snd (transformAll ts u w) = w.
Proof.
  induction ts as [|it ts IH]; intros w; [reflexivity|]. cbn [transformAll].
  unfold bind. pose proof (transform_pure true it.1 it.2 u w) as Hp.
  destruct (transform true it.1 it.2 u w) as [[x|e] w1]; simpl in Hp; subst w1; [|reflexivity].
  specialize (IH w). destruct (transformAll ts u w) as [[xs|e] w2]; simpl in *; subst; reflexivity.
Qed.

Lemma transformAll_inv ts u : forall w l,
  fst (transformAll ts u w) = Ok l ->
  Forall2 (fun (it : string * DbTask) task =>
             t_id task = it.1 /\ t_version task = version it.2
             /\ t_title task = title it.2
             /\ t_description task = JS.orStr (description it.2) ""
             /\ t_isStarred task = bool_decide ((it.1, id u) ∈ taskStars (db w)))
          ts l.
Proof.
  induction ts as [|it ts IH]; intros w l; cbn [transformAll].
  - intros [= <-]. constructor.
  - unfold bind. pose proof (transform_pure true it.1 it.2 u w) as Hp.
    destruct (transform true it.1 it.2 u w) as [[x|e] w1] eqn:Etr; simpl in Hp; subst w1;
      [|discriminate].
    specialize (IH w). pose proof (transformAll_pure ts u w) as Hp2.
    destruct (transformAll ts u w) as [[xs|e] w2]; simpl in *; [|discriminate].
    intros [= <-]. constructor; [|apply IH; reflexivity].
    destruct (transform_fields _ _ _ _ _ _ _ Etr) as (? & ? & ? & ?).
    pose proof (transform_starred _ _ _ _ _ _ _ Etr).
    repeat split; auto.
Qed.

Lemma insertBy_In {A} (le : A -> A -> bool) x y l :
  In x (insertBy le y l) <-> x = y \/ In x l.
Proof.
  induction l as [|z l IH]; simpl; [intuition|].
  destruct (le y z); simpl; [intuition|]. rewrite IH. intuition.
Qed.

Lemma sortBy_In {A} (le : A -> A -> bool) x l : In x (sortBy le l) <-> In x l.
Proof.
  unfold sortBy. induction l as [|z l IH]; simpl; [reflexivity|].
  rewrite insertBy_In, IH. intuition.
Qed.

Lemma readCache_pure key w : snd (readCache key w) = w.
Proof.
  unfold readCache, Redis.get, Redis.connected. mred.
  destruct (redisUp (kv w)); [|reflexivity]. simpl.
  destruct (Redis.lookup w key) as [[[[|]|[]] ?]|]; reflexivity.
Qed.

Lemma starred_ids (stars : gset (string * string)) uid taskId :
  taskId ∈ (List.filter (fun tu : string * string => String.eqb tu.2 uid) (elements stars)).*1
  <-> (taskId, uid) ∈ stars.
Proof.
  rewrite list_elem_of_fmap. split.
  - intros ([a b] & -> & Hin). apply list_elem_of_In, filter_In in Hin as [Hin Hb].
    simpl in *. apply String.eqb_eq in Hb. subst b.
    apply elem_of_elements, list_elem_of_In. exact Hin.
  - intros Hin. exists (taskId, uid). split; [reflexivity|].
    apply list_elem_of_In, filter_In. split.
    + apply list_elem_of_In, elem_of_elements. exact Hin.
    + simpl. apply String.eqb_refl.
Qed.

(** What a document that matches the [where] object of a query satisfies. *)
Lemma buildWhere_sound f u w wh w' taskId t :
  buildWhere f u w = (Ok wh, w') -> matches wh taskId t = true ->
  w' = w /\ isDeleted t = false
  /\ match f_context f with
     | All => True
     | Mine => createdBy t = id u \/ id u ∈ assignees t
     | Starred => (taskId, id u) ∈ taskStars (db w)
     end
  /\ (JS.truthyStr (JS.trim (f_search f)) = true ->
      containsInsensitive (JS.trim (f_search f)) (title t) = true
      \/ exists d, description t = Some d
                   /\ containsInsensitive (JS.trim (f_search f)) d = true).
Proof.
  unfold buildWhere, Prisma.taskStar_findMany, Prisma.connected. mred.
  assert (Hsearch : forall (b : bool),
            b || (match description t with
                  | Some d => containsInsensitive (JS.trim (f_search f)) d
                  | None => false
                  end || false) = true ->
            b = true \/ exists d, description t = Some d
                         /\ containsInsensitive (JS.trim (f_search f)) d = true).
  { intros b. rewrite orb_false_r. intros [->|H]%orb_true_iff; [auto|right].
    destruct (description t) as [d|]; [eauto|discriminate]. }
  assert (Hdel : forall b, Bool.eqb (isDeleted t) false && b = true -> isDeleted t = false)
    by (intros b; destruct (isDeleted t); [discriminate|reflexivity]).
  destruct (f_context f); simpl.
  - (* all *)
    destruct (JS.truthyStr (f_search f) && JS.truthyStr (JS.trim (f_search f))) eqn:Es;
      intros [= <- <-]; unfold matches; simpl; intros Hm.
    + apply andb_true_iff in Hm as [Hd Ho]. rewrite andb_true_r in Hd.
      split; [reflexivity|]. split; [destruct (isDeleted t); [discriminate|reflexivity]|].
      split; [exact I|]. intros _. apply Hsearch. exact Ho.
    + rewrite !andb_true_r in Hm.
      split; [reflexivity|]. split; [destruct (isDeleted t); [discriminate|reflexivity]|].
      split; [exact I|]. intros Ht. exfalso.
      rewrite Ht, andb_true_r in Es.
      destruct (f_search f); [discriminate Ht|discriminate Es].
  - (* mine *)
    destruct (JS.truthyStr (f_search f) && JS.truthyStr (JS.trim (f_search f))) eqn:Es;
      intros [= <- <-]; unfold matches; simpl; intros Hm.
    + rewrite andb_true_r in Hm. apply andb_true_iff in Hm as [Hd Hm].
      apply andb_true_iff in Hm as [Hc Hm]. rewrite andb_true_r in Hm.
      split; [reflexivity|]. split; [destruct (isDeleted t); [discriminate|reflexivity]|].
      split; [|intros _; apply Hsearch; exact Hm].
      rewrite orb_false_r in Hc. apply orb_true_iff in Hc as [Hc|Hc].
      * left. apply String.eqb_eq. exact Hc.
      * right. apply bool_decide_eq_true_1 in Hc. exact Hc.
    + rewrite andb_true_r in Hm. apply andb_true_iff in Hm as [Hd Hc].
      rewrite andb_true_r in Hc.
      split; [reflexivity|]. split; [destruct (isDeleted t); [discriminate|reflexivity]|].
      split.
      * rewrite orb_false_r in Hc. apply orb_true_iff in Hc as [Hc|Hc].
        -- left. apply String.eqb_eq. exact Hc.
        -- right. apply bool_decide_eq_true_1 in Hc. exact Hc.
      * intros Ht. exfalso. rewrite Ht, andb_true_r in Es.
        destruct (f_search f); [discriminate Ht|discriminate Es].
  - (* starred *)
    destruct (dbUp (db w)); simpl; [|absurd_result].
    destruct (JS.truthyStr (f_search f) && JS.truthyStr (JS.trim (f_search f))) eqn:Es;
      intros [= <- <-]; unfold matches; simpl; intros Hm.
    + rewrite andb_true_r in Hm. apply andb_true_iff in Hm as [Hd Hm].
      apply andb_true_iff in Hm as [Hc Hm]. rewrite andb_true_r in Hm.
      split; [reflexivity|]. split; [destruct (isDeleted t); [discriminate|reflexivity]|].
      split; [|intros _; apply Hsearch; exact Hm].
      apply bool_decide_eq_true_1 in Hc. apply starred_ids in Hc. exact Hc.
    + rewrite andb_true_r in Hm. apply andb_true_iff in Hm as [Hd Hc].
      rewrite andb_true_r in Hc.
      split; [reflexivity|]. split; [destruct (isDeleted t); [discriminate|reflexivity]|].
      split.
      * apply bool_decide_eq_true_1 in Hc. apply starred_ids in Hc. exact Hc.
      * intros Ht. exfalso. rewrite Ht, andb_true_r in Es.
        destruct (f_search f); [discriminate Ht|discriminate Es].
Qed.

End ListQuery.

(* ===================================================================== *)
(** ** The list query: pages and their cache *)
(* ===================================================================== *)

Section ListQuery2.
Import TaskService.

Lemma getTasks_miss f u w r w1 :
  fst (readCache (generateCacheKey f u) w) = Ok None ->
  getTasks f u w = (Ok r, w1) ->
  exists wh,
    buildWhere f u w = (Ok wh, w) /\ dbUp (db w) = true
    /\ fst (transformAll (pageOf f wh w) u w) = Ok (items r)
    /\ page r = f_page f
    /\ r_total r = Z.of_nat (List.length (List.filter (fun it : string * DbTask => matches wh it.1 it.2)
                                 (map_to_list (tasks (db w)))))
    /\ hasMore r = (f_page f * f_limit f <? r_total r)
    /\ w1 = snd (tryCatch (Redis.setEx (generateCacheKey f u) CACHE_TTL (Json (JPage r)))
                          (fun _ => ret tt) w).
Proof.
  intros Hmiss. unfold getTasks. unfold bind at 1.
  pose proof (readCache_pure (generateCacheKey f u) w) as Hp.
  destruct (readCache (generateCacheKey f u) w) as [[[r'|]|e] w0]; simpl in Hmiss, Hp;
    try discriminate. subst w0.
  unfold bind at 1.
  destruct (buildWhere f u w) as [[wh|e] w0] eqn:Ebw; [|absurd_result].
  assert (w0 = w) as ->.
  { clear -Ebw. revert Ebw. unfold buildWhere, Prisma.taskStar_findMany, Prisma.connected. mred.
    destruct (f_context f); simpl; [| |destruct (dbUp (db w)); simpl; [|absurd_result]];
      destruct (_ && _); intros [= _ <-]; reflexivity. }
  unfold bind at 1, Prisma.connected.
  destruct (dbUp (db w)) eqn:Hup; [|absurd_result].
  unfold bind at 1, gets. unfold bind at 1. unfold bind at 1.
  fold (pageOf f wh w).
  pose proof (transformAll_pure (pageOf f wh w) u w) as Hp.
  destruct (transformAll (pageOf f wh w) u w) as [[l|e] w0] eqn:Etr; simpl in Hp; subst w0;
    [|absurd_result].
  unfold bind at 1.
  match goal with |- context [tryCatch ?m ?h w] =>
    pose proof (tryCatch_total m tt w) as Ht; destruct (tryCatch m h w) as [[[]|e] w2] eqn:Etc end.
  - unfold ret. intros [= <- <-]. exists wh. simpl. rewrite Etr. repeat split; auto.
    exact (eq_sym (f_equal snd Etc)).
  - exfalso. revert Etc. unfold tryCatch, ret.
    match goal with |- context [Redis.setEx ?a ?b ?c w] =>
      destruct (Redis.setEx a b c w) as [[[]|?] ?] end; discriminate.
Qed.

Lemma filter_sublist {A} (p : A -> bool) l : List.filter p l `sublist_of` l.
Proof.
  induction l as [|x l IH]; simpl; [constructor|].
  destruct (p x); [apply sublist_skip|apply sublist_cons]; exact IH.
Qed.

Lemma sortBy_perm {A} (le : A -> A -> bool) l : sortBy le l ≡ₚ l.
Proof.
  unfold sortBy. induction l as [|x l IH]; simpl; [reflexivity|].
  rewrite <- IH at 2. generalize (fold_right (insertBy le) [] l). clear.
  intros l0. induction l0 as [|y l0 IH]; simpl; [reflexivity|].
  destruct (le x y); [reflexivity|]. rewrite IH. apply perm_swap.
Qed.

Lemma pageOf_sublist f wh w :
  exists l, pageOf f wh w `sublist_of` l /\ l ≡ₚ List.filter (fun it : string * DbTask => matches wh it.1 it.2)
                              (map_to_list (tasks (db w))).
Proof.
  eexists. split; [|apply sortBy_perm]. unfold pageOf.
  etransitivity; [apply filter_sublist|].
  etransitivity; [apply sublist_take|]. apply sublist_drop.
Qed.

Lemma pageOf_elem f wh w it :
  it ∈ pageOf f wh w ->
  tasks (db w) !! it.1 = Some it.2 /\ matches wh it.1 it.2 = true.
Proof.
  destruct (pageOf_sublist f wh w) as (l & Hs & Hp). intros Hin.
  eapply elem_of_sublist in Hin; [|exact Hs]. rewrite Hp in Hin.
  apply list_elem_of_In, filter_In in Hin as [Hin Hm]. split; [|exact Hm].
  apply list_elem_of_In in Hin. destruct it as [i t]. apply elem_of_map_to_list in Hin. exact Hin.
Qed.

(** X24.  On a cache miss, the page [getTasks] returns has the requested page
    number, at most [limit] items, no more items than its total, and no
    task twice.  Every item is a stored task that is not deleted, with its
    title, its version and the star of the current user; it belongs to the
    requested context (mine: created by or assigned to the user; starred:
    starred by the user); and when the trimmed search term is not empty,
    the title or the description contains it, case ignored. *)
Theorem getTasks_page_sound f u w r :
  fst (readCache (generateCacheKey f u) w) = Ok None ->
  fst (getTasks f u w) = Ok r ->
  page r = f_page f
  /\ (List.length (items r) <= Z.to_nat (f_limit f))%nat
  /\ Z.of_nat (List.length (items r)) <= r_total r
  /\ NoDup (t_id <$> items r)
  /\ Forall (fun task => exists t,
        tasks (db w) !! t_id task = Some t /\ isDeleted t = false
        /\ t_title task = title t /\ t_version task = version t
        /\ t_isStarred task = bool_decide ((t_id task, id u) ∈ taskStars (db w))
        /\ match f_context f with
           | All => True
           | Mine => createdBy t = id u \/ id u ∈ assignees t
           | Starred => (t_id task, id u) ∈ taskStars (db w)
           end
        /\ (JS.truthyStr (JS.trim (f_search f)) = true ->
            containsInsensitive (JS.trim (f_search f)) (title t) = true
            \/ exists d, description t = Some d
                         /\ containsInsensitive (JS.trim (f_search f)) d = true))
      (items r).
Proof.
  intros Hmiss Hr. destruct (getTasks f u w) as [res w1] eqn:Eg. simpl in Hr. subst res.
  destruct (getTasks_miss _ _ _ _ _ Hmiss Eg) as (wh & Hbw & Hup & Htr & Hpage & Htot & Hmore & _).
  pose proof (transformAll_inv _ _ _ _ Htr) as HF.
  destruct (pageOf_sublist f wh w) as (l & Hs & Hp).
  assert (Hids : t_id <$> items r = (pageOf f wh w).*1).
  { clear -HF. induction HF as [|it task ts l' (Hi & _) _ IH]; [reflexivity|].
    rewrite !fmap_cons, Hi, IH. reflexivity. }
  assert (Hlen : List.length (items r) = List.length (pageOf f wh w)).
  { symmetry. eapply Forall2_length. exact HF. }
  split; [exact Hpage|]. split; [|split; [|split]].
  - rewrite Hlen. unfold pageOf.
    etransitivity; [apply sublist_length, filter_sublist|].
    rewrite length_take. lia.
  - rewrite Htot, Hlen. apply inj_le.
    etransitivity; [apply sublist_length; exact Hs|]. rewrite Hp. reflexivity.
  - rewrite Hids. eapply sublist_NoDup; [|apply fmap_sublist; exact Hs].
    rewrite Hp. eapply sublist_NoDup; [apply (NoDup_fst_map_to_list (tasks (db w)))|].
    apply fmap_sublist, filter_sublist.
  - apply Forall_forall. intros task Htask.
    apply list_elem_of_lookup in Htask as [i Hi'].
    destruct (Forall2_lookup_r _ _ _ _ _ HF Hi') as (it & Hit & (Hi & Hv & Ht & _ & Hst)).
    apply list_elem_of_lookup_2 in Hit as Hin.
    destruct (pageOf_elem _ _ _ _ Hin) as [Hl Hm].
    destruct (buildWhere_sound _ _ _ _ _ _ _ Hbw Hm) as (_ & Hdel & Hctx & Hsearch).
    exists it.2. rewrite Hi. repeat split; auto.
Qed.

Lemma getTasks_page_sound_witness :
  exists r,
    fst (getTasks (Sample.firstPage All) Sample.ann Sample.board) = Ok r
    /\ page r = 1 /\ NoDup (t_id <$> items r)
    /\ Z.of_nat (List.length (items r)) <= r_total r.
Proof.
  destruct (fst (getTasks (Sample.firstPage All) Sample.ann Sample.board)) as [r|e] eqn:E;
    [|vm_compute in E; discriminate E].
  assert (Hmiss : fst (readCache (generateCacheKey (Sample.firstPage All) Sample.ann)
                         Sample.board) = Ok None) by (vm_compute; reflexivity).
  destruct (getTasks_page_sound _ _ _ _ Hmiss E) as (Hp & _ & Ht & Hn & _).
  exists r. split; [reflexivity|]. split; [exact Hp|]. split; [exact Hn|exact Ht].
Defined.

(** X25.  With Redis connected, the page [getTasks] computes on a miss is what
    every later call with the same filters and user returns, without any
    change of state, up to 300 seconds later, whatever the database holds
    by then, as long as Redis is connected and the key has not been
    touched; after 300 seconds the cached page has expired. *)
Theorem getTasks_caches_page f u w r w2 :
  redisUp (kv w) = true ->
  fst (readCache (generateCacheKey f u) w) = Ok None ->
  fst (getTasks f u w) = Ok r ->
  redisUp (kv w2) = true ->
  redisDb (kv w2) !! generateCacheKey f u
  = redisDb (kv (snd (getTasks f u w))) !! generateCacheKey f u ->
  (clock w2 <= clock w + 300000 -> getTasks f u w2 = (Ok r, w2))
  /\ (clock w + 300000 < clock w2 ->
      fst (readCache (generateCacheKey f u) w2) = Ok None).
Proof.
  intros Hup Hmiss Hr Hup2 Hkey.
  destruct (getTasks f u w) as [res w1] eqn:Eg. simpl in Hr, Hkey. subst res.
  destruct (getTasks_miss _ _ _ _ _ Hmiss Eg) as (wh & _ & _ & _ & _ & _ & _ & Hw1).
  assert (Hentry : redisDb (kv w2) !! generateCacheKey f u
                   = Some {| rval := Json (JPage r); rexp := Some (clock w + 300000) |}).
  { rewrite Hkey, Hw1. unfold tryCatch, Redis.setEx, Redis.connected, Redis.put, Date_now. mred.
    rewrite Hup. simpl. apply lookup_insert_eq. }
  assert (Hread : fst (readCache (generateCacheKey f u) w2)
                  = Ok (if clock w + 300000 <? clock w2 then None else Some r)).
  { unfold readCache, Redis.get, Redis.connected, Redis.lookup. mred.
    rewrite Hup2. simpl. rewrite Hentry. unfold Redis.live. simpl.
    destruct (clock w + 300000 <? clock w2); reflexivity. }
  split; intros Hc.
  - destruct (Z.ltb_spec (clock w + 300000) (clock w2)); [lia|].
    pose proof (getTasks_hit f u w2 r Hread) as Hh.
    unfold getTasks in *. unfold bind at 1 in Hh. unfold bind at 1.
    pose proof (readCache_pure (generateCacheKey f u) w2) as Hp.
    destruct (readCache (generateCacheKey f u) w2) as [[[r'|]|e] w0]; simpl in Hread, Hp;
      try discriminate. subst w0. injection Hread as ->. reflexivity.
  - destruct (Z.ltb_spec (clock w + 300000) (clock w2)); [exact Hread|lia].
Qed.

Lemma getTasks_caches_page_witness :
  let f := Sample.firstPage All in
  let w1 := snd (getTasks f Sample.ann Sample.board) in
  let later := snd (StarService.addStar Sample.taskA Sample.ann (at_time 301000 w1)) in
  exists r, fst (getTasks f Sample.ann Sample.board) = Ok r
            /\ getTasks f Sample.ann later = (Ok r, later).
Proof.
  cbv zeta.
  destruct (fst (getTasks (Sample.firstPage All) Sample.ann Sample.board)) as [r|e] eqn:E;
    [|vm_compute in E; discriminate E].
  exists r. split; [reflexivity|].
  apply (proj1 (getTasks_caches_page (Sample.firstPage All) Sample.ann Sample.board r
                  (snd (StarService.addStar Sample.taskA Sample.ann
                          (at_time 301000
                             (snd (getTasks (Sample.firstPage All) Sample.ann Sample.board)))))
                  eq_refl ltac:(vm_compute; reflexivity) E
                  ltac:(vm_compute; reflexivity) ltac:(vm_compute; reflexivity))).
  vm_compute; discriminate.
Defined.

Lemma append_length a b : String.length (a +:+ b) = (String.length a + String.length b)%nat.
Proof. induction a as [|c a IH]; simpl; [reflexivity|]. rewrite IH. reflexivity. Qed.

Lemma append_assoc a b c : a +:+ (b +:+ c) = (a +:+ b) +:+ c.
Proof.
  induction a as [|x a IH]; [reflexivity|].
  change (String x (a +:+ (b +:+ c)) = String x ((a +:+ b) +:+ c)). rewrite IH. reflexivity.
Qed.

Lemma append_suffix_inj a : forall b x y,
  String.length x = String.length y -> a +:+ x = b +:+ y -> x = y.
Proof.
  induction a as [|c a IH]; intros b x y Hl H.
  - destruct b as [|d b]; [exact H|].
    exfalso. apply (f_equal String.length) in H.
    rewrite !append_length in H. simpl in H. lia.
  - destruct b as [|d b].
    + exfalso. apply (f_equal String.length) in H.
      rewrite !append_length in H. simpl in H. lia.
    + simpl in H. injection H as _ H. exact (IH _ _ _ Hl H).
Qed.

(** X26.  The cache keys of two users whose ids have the same length (an
    ObjectId has 24 characters) are equal only when the ids are equal,
    whatever the filters: a page cached for one user is never read for
    another. *)
Theorem cache_key_per_user f1 f2 u1 u2 :
  String.length (id u1) = String.length (id u2) ->
  generateCacheKey f1 u1 = generateCacheKey f2 u2 -> id u1 = id u2.
Proof.
  intros Hl H. unfold generateCacheKey in H.
  rewrite !append_assoc in H.
  eapply append_suffix_inj; [exact Hl|exact H].
Qed.

Lemma cache_key_per_user_witness :
  generateCacheKey (Sample.firstPage All) Sample.ann
  <> generateCacheKey (Sample.firstPage Mine) Sample.bob.
Proof.
  intros H.
  assert (Hid : id Sample.ann = id Sample.bob)
    by exact (cache_key_per_user _ _ Sample.ann Sample.bob eq_refl H).
  discriminate Hid.
Defined.

End ListQuery2.

(* ===================================================================== *)
(** ** The keys the task service writes *)
(* ===================================================================== *)

Section CacheFrame.
Import TaskService.

Lemma writesOnly_modify_kv rk mk (f : World -> World) :
  (forall w, kv (f w) = kv w /\ env (f w) = env w /\ clock (f w) = clock w) ->
  writesOnly rk mk (modify f).
Proof.
  intros H w. destruct (H w) as (Hk & He & Hc). unfold modify. cbn [snd].
  split; [rewrite Hk; auto|]. rewrite Hk. split; reflexivity.
Qed.

Lemma writesOnly_pure rk mk {A} (m : M A) :
  (forall w, snd (m w) = w) -> writesOnly rk mk m.
Proof. intros H w. rewrite H. apply same_but_keys_refl. Qed.

Ltac db_step :=
  first
    [ apply writesOnly_pure; apply transform_pure
    | writes_step
    | apply writesOnly_modify_kv; intros; repeat split; reflexivity ].

Lemma writesOnly_deleteEach keys :
  Forall isCacheKey keys -> writesOnly isCacheKey noKeys (deleteEach keys).
Proof.
  induction 1 as [|k keys Hk _ IH]; cbn [deleteEach]; [apply writesOnly_ret|].
  apply writesOnly_bind; [|intros _; exact IH].
  unfold Redis.del. apply writesOnly_bind; [apply writesOnly_connected|intros _].
  apply writesOnly_redis_delete. exact Hk.
Qed.

Lemma writesOnly_invalidate : writesOnly isCacheKey noKeys invalidateTaskCache.
Proof.
  unfold invalidateTaskCache. apply writesOnly_tryCatch; [|intros _; apply writesOnly_ret].
  apply (writesOnly_bind_val _ _ (Forall isCacheKey)).
  - unfold Redis.keys. writes_only.
  - unfold Redis.keys, Redis.connected. mred. intros w ks w1.
    destruct (redisUp (kv w)); simpl; [|absurd_result]. intros [= <- _].
    apply Forall_forall. intros k Hin. apply list_elem_of_In, filter_In in Hin as [_ Hin].
    apply andb_true_iff in Hin as [Hin _]. exact Hin.
  - intros ks Hks. destruct (0 <? _); [apply writesOnly_deleteEach; exact Hks|apply writesOnly_ret].
Qed.

Lemma writesOnly_emit rk mk rooms e : writesOnly rk mk (WebSocketService.emit rooms e).
Proof. unfold WebSocketService.emit. repeat db_step. Qed.

Lemma writesOnly_createTask newId data u : writesOnly isCacheKey noKeys (createTask newId data u).
Proof.
  unfold createTask, task_create, Prisma.taskAudit_create, Prisma.task_put, Prisma.relation,
    Date_now, WebSocketService.emitTaskCreated.
  repeat first [apply writesOnly_invalidate | apply writesOnly_emit | db_step].
Qed.

Lemma writesOnly_updateTask taskId data u ev :
  writesOnly isCacheKey noKeys (updateTask taskId data u ev).
Proof.
  unfold updateTask, Prisma.task_update, Prisma.task_findFirst, Prisma.taskAudit_create,
    Prisma.task_put, Prisma.relation, Date_now, WebSocketService.emitTaskUpdated.
  repeat first [apply writesOnly_invalidate | apply writesOnly_emit | db_step].
Qed.

Lemma writesOnly_deleteTask taskId u : writesOnly isCacheKey noKeys (deleteTask taskId u).
Proof.
  unfold deleteTask, Prisma.task_update, Prisma.task_findFirst, Prisma.taskAudit_create,
    Prisma.passwordReset_create,
    Prisma.task_put, Prisma.relation, Date_now, WebSocketService.emitTaskDeleted.
  repeat first [apply writesOnly_invalidate | apply writesOnly_emit | db_step].
Qed.

Lemma writesOnly_getTasks f u : writesOnly isCacheKey noKeys (getTasks f u).
Proof.
  unfold getTasks.
  apply writesOnly_bind; [apply writesOnly_pure, readCache_pure|intros [r|]]; [apply writesOnly_ret|].
  apply writesOnly_bind.
  { apply writesOnly_pure. intros w. unfold buildWhere, Prisma.taskStar_findMany, Prisma.connected.
    mred. destruct (f_context f); simpl; [| |destruct (dbUp (db w)); simpl; [|reflexivity]];
      destruct (_ && _); reflexivity. }
  intros wh. unfold Redis.setEx, Date_now.
  repeat first [apply writesOnly_pure, transformAll_pure | db_step].
Qed.

(** X27.  [getTasks], [createTask], [updateTask] and [deleteTask] write no Redis
    key outside the prefix of the cached pages and never the in-process
    map.  So every session lookup and every rate-limit check answers after
    such a call as it would have before. *)
Theorem task_service_spares_other_keys f newId data taskId patch ev u w w' :
  w' = snd (getTasks f u w) \/ w' = snd (createTask newId data u w)
  \/ w' = snd (updateTask taskId patch u ev w) \/ w' = snd (deleteTask taskId u w) ->
  (forall k, JS.startsWith SEARCH_CACHE_PREFIX k = false ->
             redisDb (kv w') !! k = redisDb (kv w) !! k)
  /\ inMemoryStorage (kv w') = inMemoryStorage (kv w)
  /\ (forall tok, fst (AuthUtils.getSession tok w') = fst (AuthUtils.getSession tok w))
  /\ (forall key limit windowMs,
        fst (AuthUtils.checkRateLimit key limit windowMs w')
        = fst (AuthUtils.checkRateLimit key limit windowMs w)).
Proof.
  intros Hw.
  assert (H : same_but_keys isCacheKey noKeys w w').
  { destruct Hw as [ -> | [ -> | [ -> | -> ] ] ];
      [apply writesOnly_getTasks|apply writesOnly_createTask
      |apply writesOnly_updateTask|apply writesOnly_deleteTask]. }
  split; [|split; [|split]].
  - intros k Hk. apply H. unfold isCacheKey. rewrite Hk. discriminate.
  - apply map_eq. intros k. apply H. intros [].
  - intros tok. symmetry. apply (sameAt_getSession tok w w').
    eapply sameAt_frame; [exact H| |intros []]. unfold isCacheKey. discriminate.
  - intros key limit windowMs. symmetry.
    apply (sameAt_checkRateLimit key limit windowMs w w').
    eapply sameAt_frame; [exact H| |intros []]. unfold isCacheKey. discriminate.
Qed.

Lemma task_service_spares_other_keys_witness :
  let w' := snd (deleteTask Sample.taskA Sample.ann Sample.office) in
  fst (AuthUtils.getSession "sess-ann" w') = fst (AuthUtils.getSession "sess-ann" Sample.office)
  /\ redisDb (kv w') !! "csrf:sess-ann" = redisDb (kv Sample.office) !! "csrf:sess-ann".
Proof.
  pose proof (task_service_spares_other_keys
                (Sample.firstPage All) Sample.taskB
                {| c_title := "A"; c_description := None |} Sample.taskA
                (Sample.titleOnly "B") None Sample.ann Sample.office
                (snd (deleteTask Sample.taskA Sample.ann Sample.office))
                (or_intror (or_intror (or_intror eq_refl)))) as (Hk & _ & Hs & _).
  split; [apply Hs|apply Hk; reflexivity].
Defined.

End CacheFrame.

(* ===================================================================== *)
(** ** The ETag and the If-Match header *)
(* ===================================================================== *)

Section ETag.
Import TaskService Routes.

Lemma print_allDigits d : allDigits (NilEmpty.string_of_uint d) = true.
Proof. unfold allDigits. induction d; simpl; auto. Qed.

Lemma toString_digits n :
  0 <= n -> allDigits (JS.toString n) = true /\ JS.toString n <> "".
Proof.
  intros Hn. unfold JS.toString. destruct n as [|p|p]; [split; [reflexivity|discriminate]| |lia].
  simpl. unfold NilZero.string_of_uint.
  pose proof (DecimalPos.Unsigned.to_uint_nonnil p) as Hnn.
  destruct (Pos.to_uint p) eqn:E; try contradiction;
    (split; [apply print_allDigits|discriminate]).
Qed.

Lemma parseIfMatch_etag iso v stamp :
  0 <= v -> parseIfMatch (Some (etagHeader iso (v, stamp))) = Some v.
Proof.
  intros Hv. destruct (toString_digits v Hv) as (Hd & Hne).
  rewrite (parseIfMatch_carries _ (JS.toString v)
             (iso stamp +:+ String JS.dquote EmptyString)).
  - apply parseInt_toString. exact Hv.
  - split; [reflexivity|]. split; assumption.
Qed.

(** X28.  The [ETag] text of a version [v >= 1], sent back as [If-Match], is
    parsed to [v].  The update route then answers 409 and leaves the state
    unchanged when the stored version differs, and, when it is the stored
    version and the creator has an account, answers 200 with the task at
    version [v + 1], which is also what is stored. *)
Theorem etag_guards_patch iso taskId req patch u t v stamp w :
  badTaskId taskId = false ->
  Schemas.updateTaskSchema (body req) = inr patch ->
  user req = Some u ->
  dbUp (db w) = true -> stored w taskId = Some t -> isDeleted t = false ->
  1 <= v ->
  ifMatch req = Some (etagHeader iso (v, stamp)) ->
  parseIfMatch (ifMatch req) = Some v
  /\ (v <> version t ->
      updateTaskRoute taskId req w = (Ok (errorBody req 409 MsgVersionMismatch None), w))
  /\ (v = version t -> is_Some (users (db w) !! createdBy t) ->
      exists task w',
        updateTaskRoute taskId req w = (Ok (withETag 200 task), w')
        /\ t_version task = v + 1
        /\ version <$> stored w' taskId = Some (v + 1)).
Proof.
  intros Hid Hbody Hu Hup Ht Hdel Hv Hh.
  assert (Hparse : parseIfMatch (ifMatch req) = Some v)
    by (rewrite Hh; apply parseIfMatch_etag; lia).
  split; [exact Hparse|]. split.
  - intros Hne. unfold updateTaskRoute, currentUser, liftParsed. rewrite Hid, Hbody, Hu, Hparse.
    unfold tryCatch. mred.
    rewrite (updateTask_stale_conflict taskId patch u v w t) by (auto; lia). reflexivity.
  - intros -> Hcr.
    destruct (updateTask_succeeds taskId patch u (Some (version t)) w t) as (task & w' & Hrun);
      auto.
    { unfold versionConflict. rewrite Z.eqb_refl. apply andb_false_r. }
    destruct (updateTask_inv _ _ _ _ _ _ _ Hrun) as (t' & Ht' & _ & _ & Htasks & Hver & _).
    rewrite Ht in Ht'. injection Ht' as <-.
    exists task, w'. split; [|split].
    + unfold updateTaskRoute, currentUser, liftParsed. rewrite Hid, Hbody, Hu, Hparse.
      unfold tryCatch. mred. rewrite Hrun. reflexivity.
    + exact Hver.
    + unfold stored. rewrite Htasks, lookup_insert_eq.
      cbn [fmap option_fmap option_map]. rewrite updated_version. reflexivity.
Qed.

Lemma etag_guards_patch_witness :
  let iso (t : Z) := "1970-01-01T00:00:01.000Z" in
  let req := Sample.patchWith (etagHeader iso (2, 1000)) in
  updateTaskRoute Sample.taskA req Sample.board
  = (Ok (errorBody req 409 MsgVersionMismatch None), Sample.board).
Proof.
  cbv zeta.
  destruct (stored Sample.board Sample.taskA) as [t|] eqn:Ht; [|vm_compute in Ht; discriminate Ht].
  refine (proj1 (proj2 (etag_guards_patch (fun _ => "1970-01-01T00:00:01.000Z") Sample.taskA
                   (Sample.patchWith (etagHeader (fun _ => "1970-01-01T00:00:01.000Z")
                                        (2, 1000)))
                   (Sample.titleOnly "B") Sample.ann t 2 1000 Sample.board
                   eq_refl eq_refl eq_refl eq_refl Ht _ _ eq_refl)) _).
  - vm_compute in Ht. injection Ht as <-. reflexivity.
  - lia.
  - vm_compute in Ht. injection Ht as <-. discriminate.
Defined.

End ETag.

(* ===================================================================== *)
(** ** Requests without a session *)
(* ===================================================================== *)

Section Gate.
Import Middleware Routes.

(** X29.  A request under [/tasks] whose token, if it presents one, has no live
    session is answered 401 by the task and star routers, whatever its
    method and path, and the database and the emitted events are as
    before. *)
Theorem tasks_need_a_session newId fresh req w :
  (forall tok, presentedToken req = Some tok -> JS.truthyStr tok = true ->
               fst (AuthUtils.getSession tok w) = Ok None) ->
  exists res w',
    tasksApp newId fresh req w = (Ok res, w')
    /\ status res = 401
    /\ db w' = db w /\ out w' = out w.
Proof.
  intros Hs.
  assert (Ha : exists res, authenticate req w = (Ok (Done res), snd (authenticate req w))
                           /\ status res = 401).
  { destruct (presentedToken req) as [tok|] eqn:Hp.
    - destruct (JS.truthyStr tok) eqn:Ht.
      + rewrite (authenticate_run req tok w None Hp Ht (Hs tok eq_refl Ht)).
        eexists. split; reflexivity.
      + rewrite (authenticate_no_token req w).
        * eexists. split; reflexivity.
        * intros tok' H. rewrite Hp in H. injection H as <-. exact Ht.
    - rewrite (authenticate_no_token req w).
      + eexists. split; reflexivity.
      + intros tok' H. rewrite Hp in H. discriminate. }
  destruct Ha as (res & Ha & Hst).
  destruct (storesOnly_authenticate req w) as (_ & _ & Hdb & Hout & _).
  exists res, (snd (authenticate req w)). split; [|auto].
  unfold tasksApp, tasksRouter. unfold bind at 1. unfold bind at 1. rewrite Ha. reflexivity.
Qed.

Lemma tasks_need_a_session_witness :
  exists res w',
    tasksApp Sample.taskB "rid"
      (Sample.request DELETE (ById Sample.taskA) "/x" Sample.noBody) Sample.board
    = (Ok res, w')
    /\ status res = 401 /\ db w' = db Sample.board.
Proof.
  destruct (tasks_need_a_session Sample.taskB "rid"
              (Sample.request DELETE (ById Sample.taskA) "/x" Sample.noBody) Sample.board)
    as (res & w' & H & Hs & Hd & _).
  - intros tok Hp _. injection Hp as <-. vm_compute. reflexivity.
  - exists res, w'. split; [exact H|]. split; [exact Hs|exact Hd].
Defined.

End Gate.

(* ===================================================================== *)
(** ** The starred list *)
(* ===================================================================== *)

Section StarredList.
Import TaskService StarService.

(** X30.  When [getStarredTasks] returns, its list has no task twice and holds
    exactly the stored tasks that are not deleted and that the user has
    starred; every item is flagged as starred and carries the stored title
    and version. *)
Theorem getStarredTasks_exact u w l :
  fst (getStarredTasks u w) = Ok l ->
  NoDup (t_id <$> l)
  /\ (forall taskId,
        taskId ∈ (t_id <$> l)
        <-> exists t, stored w taskId = Some t /\ isDeleted t = false
                      /\ (taskId, id u) ∈ taskStars (db w))
  /\ Forall (fun task => t_isStarred task = true
                         /\ exists t, stored w (t_id task) = Some t
                                      /\ t_title task = title t
                                      /\ t_version task = version t) l.
Proof.
  unfold getStarredTasks, Prisma.connected. unfold bind at 1.
  destruct (dbUp (db w)) eqn:Hup; [|discriminate].
  unfold bind at 1, gets. cbn [fst snd].
  set (starred := List.filter (fun it : string * DbTask =>
                     bool_decide ((it.1, id u) ∈ taskStars (db w)))
                   (map_to_list (tasks (db w)))).
  set (sorted := sortBy (before (users (db w)) ByUpdatedAt Desc) starred).
  set (shown := List.filter (fun it : string * DbTask => negb (isDeleted it.2)) sorted).
  intros Htr. pose proof (transformAll_inv _ _ _ _ Htr) as HF.
  assert (Hids : t_id <$> l = shown.*1).
  { clear -HF. induction HF as [|it task ts l' (Hi & _) _ IH]; [reflexivity|].
    rewrite !fmap_cons, Hi, IH. reflexivity. }
  assert (Hshown : forall it, it ∈ shown <->
            tasks (db w) !! it.1 = Some it.2 /\ isDeleted it.2 = false
            /\ (it.1, id u) ∈ taskStars (db w)).
  { intros [i t]. unfold shown, sorted, starred. simpl.
    rewrite list_elem_of_In, filter_In, (sortBy_In _ (i, t)), filter_In, <- list_elem_of_In,
      elem_of_map_to_list. simpl. rewrite bool_decide_eq_true, negb_true_iff. tauto. }
  split; [|split].
  - rewrite Hids. unfold shown, sorted.
    eapply sublist_NoDup; [|apply fmap_sublist, filter_sublist].
    rewrite sortBy_perm. unfold starred.
    eapply sublist_NoDup; [apply (NoDup_fst_map_to_list (tasks (db w)))|].
    apply fmap_sublist, filter_sublist.
  - intros taskId. rewrite Hids, list_elem_of_fmap. unfold stored. split.
    + intros ([i t] & -> & Hin). apply Hshown in Hin. exists t. exact Hin.
    + intros (t & Ht). exists (taskId, t). split; [reflexivity|]. apply Hshown. exact Ht.
  - apply Forall_forall. intros task Htask.
    apply list_elem_of_lookup in Htask as [i Hi'].
    destruct (Forall2_lookup_r _ _ _ _ _ HF Hi') as (it & Hit & (Hi & Hv & Ht & _ & Hst)).
    apply list_elem_of_lookup_2 in Hit. apply Hshown in Hit as (Hl & _ & Hs).
    split.
    + rewrite Hst. apply bool_decide_eq_true_2. exact Hs.
    + exists it.2. unfold stored. rewrite Hi. auto.
Qed.

Lemma getStarredTasks_exact_witness :
  let w := snd (addStar Sample.taskA Sample.bob Sample.board) in
  exists l, fst (getStarredTasks Sample.bob w) = Ok l
            /\ (Sample.taskA ∈ (t_id <$> l))
            /\ Forall (fun task => t_isStarred task = true) l.
Proof.
  cbv zeta.
  destruct (fst (getStarredTasks Sample.bob (snd (addStar Sample.taskA Sample.bob Sample.board))))
    as [l|e] eqn:E; [|vm_compute in E; discriminate E].
  destruct (getStarredTasks_exact _ _ _ E) as (_ & Hin & Hall).
  exists l. split; [reflexivity|]. split.
  - apply Hin.
    destruct (stored (snd (addStar Sample.taskA Sample.bob Sample.board)) Sample.taskA)
      as [t|] eqn:Ht; [|vm_compute in Ht; discriminate Ht].
    exists t. split; [reflexivity|]. split.
    + vm_compute in Ht. injection Ht as <-. reflexivity.
    + refine (proj1 (bool_decide_eq_true _) _). vm_compute. reflexivity.
  - eapply Forall_impl; [exact Hall|]. intros task (H & _). exact H.
Defined.

End StarredList.
